(** * ee-package-reporter: inventory extraction and diff report

    A shallow embedding of the two scripts of the repository,

    - [ee_inventory_to_xml.py]: the parsers of the captured text, the
      reconciliation of the three collection sources, the document
      builder [make_xml], the file names ([sanitize_filename],
      [image_display_name_and_tag]), the sections of the captured text
      ([split_sections]), the image references of a run
      ([split_repo_into_registry_and_path], [iter_image_refs]) and what
      [main] computes from a capture;
    - [ee_xml_diff_report.py]: the document loader [parse_image_xml], the
      differ ([index_by], [diff_rpms], [diff_simple_pkgs]) and the report
      renderer ([cell_html], [build_report]);

    followed by the properties of the specification that concern them
    and by further properties of the code.

    Conventions of the embedding.

    - A Python [str] is a [string]: the bytes of its UTF-8 encoding.  Byte
      order is code-point order, so [String.ltb] is Python's [<] on [str].
      White space, line boundaries and case mapping are those of the ASCII
      range.
    - A Python [dict] is an association list in insertion order with
      unique keys ([PyDict]); assigning an existing key keeps its place.
    - Code that can raise runs in the error monad [exc]; a [try]/[except]
      is [catch].
    - What the scripts call in the Python library and cannot be written
      down here in full ([json.loads], [repr], [datetime.fromisoformat])
      is a member of the class [PyRuntime]. *)

From Stdlib Require Import List String Ascii Bool Arith ZArith Lia.
From Stdlib Require Import Permutation Sorted DecimalString.
Import ListNotations.

Local Open Scope string_scope.
Local Open Scope list_scope.

Set Implicit Arguments.

(** String concatenation, as [+] and f-strings build it. *)
Infix "+++" := String.append (right associativity, at level 60).

(* ===================================================================== *)
(** * Exceptions *)
(* ===================================================================== *)

Inductive exn : Type :=
| IndexError
| KeyError
| TypeError
| AttributeError
| ValueError.

Inductive exc (A : Type) : Type :=
| Ok (a : A)
| Raise (e : exn).

Arguments Ok {A} a.
Arguments Raise {A} e.

Definition bind {A B : Type} (m : exc A) (k : A -> exc B) : exc B :=
  match m with
  | Ok a => k a
  | Raise e => Raise e
  end.

(** [try: m except Exception: h] *)
Definition catch {A : Type} (m : exc A) (h : exc A) : exc A :=
  match m with
  | Ok a => Ok a
  | Raise _ => h
  end.

Declare Scope exc_scope.
Delimit Scope exc_scope with exc.
Notation "x <- m ;; k" := (bind m (fun x => k))
  (at level 61, m at next level, right associativity) : exc_scope.
Notation "' p <- m ;; k" := (bind m (fun x => match x with p => k end))
  (at level 61, p pattern, m at next level, right associativity) : exc_scope.

(** [for x in l: body(x)] over an accumulator, stopping at the first
    exception. *)
Fixpoint for_each {A S : Type} (body : S -> A -> exc S) (l : list A) (s : S)
  : exc S :=
  match l with
  | [] => Ok s
  | x :: l' => bind (body s x) (for_each body l')
  end.

(** [l[i]] for a Python list, negative indices counting from the end. *)
Definition py_index {A : Type} (l : list A) (i : Z) : exc A :=
  let n := Z.of_nat (List.length l) in
  let j := (if i <? 0 then i + n else i)%Z in
  if (j <? 0)%Z then Raise IndexError
  else match nth_error l (Z.to_nat j) with
       | Some a => Ok a
       | None => Raise IndexError
       end.

(** [l[:n]] for a Python list. *)
Definition py_slice_to {A : Type} (l : list A) (n : Z) : list A :=
  if (n <? 0)%Z
  then firstn (Z.to_nat (Z.of_nat (List.length l) + n)) l
  else firstn (Z.to_nat n) l.

(* ===================================================================== *)
(** * Strings *)
(* ===================================================================== *)

Module PyStr.

(** [s[len(p):]] when [s.startswith(p)]. *)
Fixpoint strip_prefix (p s : string) : option string :=
  match p with
  | EmptyString => Some s
  | String a p' =>
      match s with
      | EmptyString => None
      | String b s' => if Ascii.eqb a b then strip_prefix p' s' else None
      end
  end.

(** [s.partition(sep)]: the text before and after the first occurrence
    of [sep], [None] when there is none. *)
Fixpoint partition (sep s : string) : option (string * string) :=
  match strip_prefix sep s with
  | Some rest => Some (EmptyString, rest)
  | None =>
      match s with
      | EmptyString => None
      | String c s' =>
          match partition sep s' with
          | Some (b, a) => Some (String c b, a)
          | None => None
          end
      end
  end.

(** [s.rpartition(sep)]: the same at the last occurrence. *)
Fixpoint rpartition (sep s : string) : option (string * string) :=
  match s with
  | EmptyString =>
      match strip_prefix sep s with
      | Some rest => Some (EmptyString, rest)
      | None => None
      end
  | String c s' =>
      match rpartition sep s' with
      | Some (b, a) => Some (String c b, a)
      | None =>
          match strip_prefix sep s with
          | Some rest => Some (EmptyString, rest)
          | None => None
          end
      end
  end.

(** [sub in s] *)
Definition contains (sub s : string) : bool :=
  match partition sub s with
  | Some _ => true
  | None => false
  end.

(** [s.split(sep)] for a non-empty [sep]; every cut removes at least one
    character, so [length s] rounds are enough. *)
Fixpoint split_fuel (fuel : nat) (sep s : string) : list string :=
  match fuel with
  | O => [s]
  | S fuel' =>
      match partition sep s with
      | None => [s]
      | Some (b, a) => b :: split_fuel fuel' sep a
      end
  end.

Definition split (sep s : string) : list string :=
  split_fuel (String.length s) sep s.

(** [s.split(sep, 1)] *)
Definition split1 (sep s : string) : list string :=
  match partition sep s with
  | None => [s]
  | Some (b, a) => [b; a]
  end.

(** [s.rsplit(sep, 1)] *)
Definition rsplit1 (sep s : string) : list string :=
  match rpartition sep s with
  | None => [s]
  | Some (b, a) => [b; a]
  end.

(** White space of [str.strip()] in the ASCII range: TAB, LF, VT, FF,
    CR, FS, GS, RS, US and the space. *)
Definition is_space (c : ascii) : bool :=
  let n := nat_of_ascii c in
  (((9 <=? n) && (n <=? 13)) || ((28 <=? n) && (n <=? 32)))%nat.

Fixpoint lstrip (s : string) : string :=
  match s with
  | EmptyString => EmptyString
  | String c s' => if is_space c then lstrip s' else s
  end.

Fixpoint rstrip (s : string) : string :=
  match s with
  | EmptyString => EmptyString
  | String c s' =>
      match rstrip s' with
      | EmptyString => if is_space c then EmptyString else String c EmptyString
      | r => String c r
      end
  end.

(** [s.strip()] *)
Definition strip (s : string) : string := rstrip (lstrip s).

(** Line boundaries of [str.splitlines()] in the ASCII range: LF, VT,
    FF, CR (CR LF counting once), FS, GS, RS. *)
Definition is_linebreak (c : ascii) : bool :=
  let n := nat_of_ascii c in
  (((10 <=? n) && (n <=? 13)) || ((28 <=? n) && (n <=? 30)))%nat.

Definition CR : ascii := ascii_of_nat 13.
Definition LF : ascii := ascii_of_nat 10.

(** [cur] is the line being read; [open] tells whether a line is under
    way (a final line break opens no empty line). *)
Fixpoint splitlines_go (s : string) (cur : string) (open : bool)
  : list string :=
  match s with
  | EmptyString => if open then [cur] else []
  | String c s' =>
      if is_linebreak c then
        match s' with
        | String d s'' =>
            if Ascii.eqb c CR && Ascii.eqb d LF
            then cur :: splitlines_go s'' EmptyString false
            else cur :: splitlines_go s' EmptyString false
        | EmptyString => [cur]
        end
      else splitlines_go s' (cur +++ String c EmptyString) true
  end.

(** [s.splitlines()] *)
Definition splitlines (s : string) : list string :=
  splitlines_go s EmptyString false.

Definition lower_ascii (c : ascii) : ascii :=
  let n := nat_of_ascii c in
  if ((65 <=? n) && (n <=? 90))%nat then ascii_of_nat (n + 32) else c.

(** [s.lower()] *)
Fixpoint lower (s : string) : string :=
  match s with
  | EmptyString => EmptyString
  | String c s' => String (lower_ascii c) (lower s')
  end.

(** [str(n)] for a length or a count. *)
Definition of_nat (n : nat) : string :=
  NilZero.string_of_uint (Nat.to_uint n).

End PyStr.

(** Truth value of a [str]. *)
Definition str_truthy (s : string) : bool :=
  negb (String.eqb s EmptyString).

(* ===================================================================== *)
(** * The parsers of [ee_inventory_to_xml.py] *)
(* ===================================================================== *)

Record rpm : Type := mk_rpm {
  rpm_name : string;
  rpm_epoch : string;
  rpm_version : string;
  rpm_release : string;
  rpm_arch : string
}.

(** One round of the loop of [parse_rpm_lines]; [continue] leaves the
    list as it is. *)
Definition parse_rpm_line (items : list rpm) (line0 : string) : list rpm :=
  let line := PyStr.strip line0 in
  if negb (str_truthy line) || negb (PyStr.contains "|" line) then items
  else
    let parts := PyStr.split "|" line in
    match List.map PyStr.strip parts with
    | [name; epoch0; version; release; arch] =>
        let epoch :=
          if str_truthy epoch0 && negb (String.eqb epoch0 "(none)")
          then epoch0 else "" in
        items ++ [mk_rpm name epoch version release arch]
    | _ => items
    end.

Definition parse_rpm_lines (text : string) : list rpm :=
  fold_left parse_rpm_line (PyStr.splitlines text) [].

Definition NL : string := String PyStr.LF EmptyString.

Definition rpm_scenario_text : string :=
  "bash|0|5.1.8|6.el9|x86_64" +++ NL +++ "malformed-line" +++ NL.

(* ===================================================================== *)
(** * Dictionaries *)
(* ===================================================================== *)

(** Keys are compared with a boolean equality that decides [=]. *)
Class EqKey (K : Type) : Type := {
  key_eqb : K -> K -> bool;
  key_eqb_spec : forall a b : K, reflect (a = b) (key_eqb a b)
}.

#[export] Instance EqKey_string : EqKey string :=
  {| key_eqb := String.eqb; key_eqb_spec := String.eqb_spec |}.

#[export] Instance EqKey_pair {A B : Type} `{EqKey A} `{EqKey B}
  : EqKey (A * B).
Proof.
  refine {| key_eqb := fun p q =>
              key_eqb (fst p) (fst q) && key_eqb (snd p) (snd q) |}.
  intros [a b] [a' b']; simpl.
  destruct (key_eqb_spec a a'); destruct (key_eqb_spec b b');
    simpl; constructor; congruence.
Defined.

Module PyDict.
Section Dict.
Context {K V : Type} `{EqKey K}.

Definition t : Type := list (K * V).

(** [d.get(k)] *)
Fixpoint get (k : K) (d : t) : option V :=
  match d with
  | [] => None
  | (k', v) :: d' => if key_eqb k k' then Some v else get k d'
  end.

(** [k in d] *)
Definition mem (k : K) (d : t) : bool :=
  match get k d with
  | Some _ => true
  | None => false
  end.

(** [d[k] = v]: an existing key keeps its position, a new one goes
    last. *)
Fixpoint set (k : K) (v : V) (d : t) : t :=
  match d with
  | [] => [(k, v)]
  | (k', v') :: d' =>
      if key_eqb k k' then (k', v) :: d' else (k', v') :: set k v d'
  end.

(** [list(d.keys())] *)
Definition keys (d : t) : list K := List.map fst d.
End Dict.
End PyDict.

(** [index_by] of [ee_xml_diff_report.py]. *)
Definition index_by {A K : Type} `{EqKey K} (items : list A) (keyfunc : A -> K)
  : PyDict.t (K := K) (V := A) :=
  fold_left (fun d it => PyDict.set (keyfunc it) it d) items [].

(* ===================================================================== *)
(** * Values of the Python library *)
(* ===================================================================== *)

(** What [json.loads] returns.  A float is carried by its truth value and
    its [repr]. *)
#[local] Unset Elimination Schemes.
Inductive json : Type :=
| JNull
| JBool (b : bool)
| JInt (z : Z)
| JFloat (nonzero : bool) (digits : string)
| JStr (s : string)
| JArr (l : list json)
| JObj (d : list (string * json)).
#[local] Set Elimination Schemes.

(** Truth value of a Python object. *)
Definition py_truthy (j : json) : bool :=
  match j with
  | JNull => false
  | JBool b => b
  | JInt z => negb (z =? 0)%Z
  | JFloat nz _ => nz
  | JStr s => str_truthy s
  | JArr l => match l with [] => false | _ => true end
  | JObj d => match d with [] => false | _ => true end
  end.

(** [a or b] *)
Definition py_or (a b : json) : json := if py_truthy a then a else b.

(** [o.get(k)] for an object that need not be a [dict]. *)
Definition py_get (o : json) (k : string) : exc json :=
  match o with
  | JObj d => Ok (match PyDict.get k d with Some v => v | None => JNull end)
  | _ => Raise AttributeError
  end.

Fixpoint chars (s : string) : list json :=
  match s with
  | EmptyString => []
  | String c s' => JStr (String c EmptyString) :: chars s'
  end.

(** What [for x in o] runs over. *)
Definition py_iter (o : json) : exc (list json) :=
  match o with
  | JArr l => Ok l
  | JObj d => Ok (List.map JStr (PyDict.keys d))
  | JStr s => Ok (chars s)
  | _ => Raise TypeError
  end.

(** A [datetime]: the microseconds since [datetime.min] on its own clock,
    and its offset from UTC in microseconds when it is aware. *)
Record datetime : Type := mk_datetime {
  dt_clock : N;
  dt_utcoffset : option Z
}.

Definition datetime_min : datetime := mk_datetime 0 None.

(** The Python library behind the scripts.  [json_loads] and
    [fromisoformat] answer [None] where the library raises. *)
Class PyRuntime : Type := {
  json_loads : string -> option json;
  py_repr : json -> string;
  fromisoformat : string -> option datetime
}.

(** [str(o)]: the string itself, the [repr] of anything else. *)
Definition py_str `{PyRuntime} (o : json) : string :=
  match o with
  | JStr s => s
  | _ => py_repr o
  end.

(* ===================================================================== *)
(** * Collections: normalisation and merge *)
(* ===================================================================== *)

Record pkg (A : Type) : Type := mk_pkg {
  pkg_name : A;
  pkg_version : A
}.

Arguments mk_pkg {A} _ _.

(** Stable sort on decorated items, as [sorted(..., key=...)] and
    [list.sort(key=...)] do it: only [<] on keys is used, and an item goes
    before the items of equal key that followed it. *)
Section Sorting.
Context {K A : Type} (ltb : K -> K -> bool).

Fixpoint insert_keyed (x : K * A) (l : list (K * A)) : list (K * A) :=
  match l with
  | [] => [x]
  | y :: l' =>
      if ltb (fst y) (fst x) then y :: insert_keyed x l' else x :: y :: l'
  end.

Fixpoint sort_keyed (l : list (K * A)) : list (K * A) :=
  match l with
  | [] => []
  | x :: l' => insert_keyed x (sort_keyed l')
  end.

Definition sorted_by (key : A -> K) (l : list A) : list A :=
  List.map snd (sort_keyed (List.map (fun x => (key x, x)) l)).
End Sorting.

Section Collections.
Context `{PyRuntime}.

Definition colls_dict_step (mapping : PyDict.t) (kv : string * json)
  : PyDict.t (K := string) (V := string) :=
  let (k, v) := kv in
  match v with
  | JObj vd =>
      match PyDict.get "version" vd with
      | Some ver =>
          if PyStr.contains "." k then PyDict.set k (py_str ver) mapping
          else mapping
      | None => mapping
      end
  | _ => mapping
  end.

Definition colls_list_step (mapping : PyDict.t) (e : json)
  : PyDict.t (K := string) (V := string) :=
  match e with
  | JObj ed =>
      match PyDict.get "namespace" ed, PyDict.get "name" ed,
            PyDict.get "version" ed with
      | Some ns, Some nm, Some ver =>
          PyDict.set (py_str ns +++ "." +++ py_str nm) (py_str ver) mapping
      | _, _, _ => mapping
      end
  | _ => mapping
  end.

(** [_colls_from_obj].  Every subscript is guarded by its membership
    test, so nothing is raised inside the [try]. *)
Definition _colls_from_obj (obj0 : json) : PyDict.t :=
  let obj :=
    match obj0 with
    | JObj d =>
        match PyDict.get "collections" d with
        | Some (JObj inner) => JObj inner
        | _ => obj0
        end
    | _ => obj0
    end in
  match obj with
  | JObj d => fold_left colls_dict_step d []
  | JArr l => fold_left colls_list_step l []
  | _ => []
  end.

Definition COLL_SEP : string := "===COLL SEP===".

(** [json.loads(ch or "{}")] with its [except]. *)
Definition loads_chunk (ch : string) : json :=
  match json_loads (if str_truthy ch then ch else "{}") with
  | Some obj => obj
  | None => JObj []
  end.

(** [while len(maps) < 3: maps.append({})]; three rounds are the most
    the loop can make. *)
Fixpoint pad_maps (fuel : nat) (maps : list (PyDict.t (K:=string) (V:=string)))
  : list PyDict.t :=
  match fuel with
  | O => maps
  | S fuel' =>
      if (List.length maps <? 3)%nat then pad_maps fuel' (maps ++ [[]])
      else maps
  end.

(** The three maps as the function names them:
    [(galaxy_map, fs_map, rpm_map)]. *)
Definition collection_sources (text : string)
  : PyDict.t (K:=string) (V:=string) * PyDict.t (K:=string) (V:=string)
    * PyDict.t (K:=string) (V:=string) :=
  let chunks0 := List.map PyStr.strip (PyStr.split COLL_SEP text) in
  let chunks :=
    if (3 <? List.length chunks0)%nat then firstn 3 chunks0 else chunks0 in
  let maps := List.map (fun ch => _colls_from_obj (loads_chunk ch)) chunks in
  let maps := pad_maps 3 maps in
  match maps with
  | [m0; m1; m2] => (m0, m1, m2)
  | [m0; m1] => (m0, m1, [])
  | [m0] => (m0, [], [])
  | _ => ([], [], [])
  end.

Definition merge_source (merged source : PyDict.t (K:=string) (V:=string))
  : PyDict.t :=
  fold_left (fun m nv => PyDict.set (fst nv) (snd nv) m) source merged.

Definition parse_collections_merged (text : string) : list (pkg string) :=
  let '(galaxy_map, fs_map, rpm_map) := collection_sources text in
  let merged := fold_left merge_source [rpm_map; fs_map; galaxy_map] [] in
  let items := List.map (fun nv => mk_pkg (fst nv) (snd nv)) merged in
  sorted_by String.ltb (fun x => PyStr.lower (pkg_name x)) items.

(** [parse_pip_json]: the JSON branch, whose exceptions lead to the
    line-oriented branch. *)
Definition parse_pip_array (text : string) : exc (list (pkg json)) :=
  (arr <- match json_loads text with
          | Some a => Ok a
          | None => Raise ValueError
          end ;;
   os <- py_iter arr ;;
   for_each
     (fun items o =>
        n <- py_get o "name" ;;
        v <- py_get o "version" ;;
        Ok (if py_truthy n && py_truthy v
            then items ++ [mk_pkg n v] else items))
     os [])%exc.

Definition parse_pip_line (pkgs : list (pkg json)) (line : string)
  : list (pkg json) :=
  let s := PyStr.strip line in
  if PyStr.contains "==" s then
    match PyStr.split1 "==" s with
    | [n; v] => pkgs ++ [mk_pkg (JStr (PyStr.strip n)) (JStr (PyStr.strip v))]
    | _ => pkgs
    end
  else pkgs.

Definition parse_pip_json (text : string) : list (pkg json) :=
  match parse_pip_array text with
  | Ok items => items
  | Raise _ => fold_left parse_pip_line (PyStr.splitlines text) []
  end.

End Collections.

(* ===================================================================== *)
(** * A small runtime to run the examples *)
(* ===================================================================== *)

(** An instance of [PyRuntime] that covers what the examples need: JSON
    without string escapes and without floats, the [repr] of such values,
    and timestamps of the form [YYYY-MM-DDTHH:MM:SS] with an optional
    [+HH:MM] or [-HH:MM]. *)
Module Mini.

Definition DQUOTE : ascii := ascii_of_nat 34.
Definition BACKSLASH : ascii := ascii_of_nat 92.

Definition is_json_ws (c : ascii) : bool :=
  let n := nat_of_ascii c in
  ((n =? 32) || (n =? 9) || (n =? 10) || (n =? 13))%nat.

Fixpoint skip_ws (s : string) : string :=
  match s with
  | String c s' => if is_json_ws c then skip_ws s' else s
  | EmptyString => EmptyString
  end.

Definition digit_of (c : ascii) : option Z :=
  let n := nat_of_ascii c in
  if ((48 <=? n) && (n <=? 57))%nat then Some (Z.of_nat (n - 48)) else None.

(** The text up to the closing quote. *)
Fixpoint pstring (s : string) : option (string * string) :=
  match s with
  | EmptyString => None
  | String c s' =>
      if Ascii.eqb c DQUOTE then Some (EmptyString, s')
      else if Ascii.eqb c BACKSLASH then None
      else match pstring s' with
           | Some (str, r) => Some (String c str, r)
           | None => None
           end
  end.

Fixpoint pdigits (s : string) (acc : Z) (seen : bool)
  : option (Z * string) :=
  match s with
  | String c s' =>
      match digit_of c with
      | Some d => pdigits s' (10 * acc + d)%Z true
      | None => if seen then Some (acc, s) else None
      end
  | EmptyString => if seen then Some (acc, s) else None
  end.

Definition starts_fraction (s : string) : bool :=
  match s with
  | String c _ =>
      Ascii.eqb c "."%char || Ascii.eqb c "e"%char || Ascii.eqb c "E"%char
  | EmptyString => false
  end.

Definition pnumber (s : string) : option (json * string) :=
  let '(neg, s1) :=
    match s with
    | String c s' => if Ascii.eqb c "-"%char then (true, s') else (false, s)
    | EmptyString => (false, s)
    end in
  match pdigits s1 0%Z false with
  | Some (z, r) =>
      if starts_fraction r then None
      else Some (JInt (if neg then - z else z)%Z, r)
  | None => None
  end.

Definition pliteral (s : string) : option (json * string) :=
  match PyStr.strip_prefix "true" s with
  | Some r => Some (JBool true, r)
  | None =>
      match PyStr.strip_prefix "false" s with
      | Some r => Some (JBool false, r)
      | None =>
          match PyStr.strip_prefix "null" s with
          | Some r => Some (JNull, r)
          | None => pnumber s
          end
      end
  end.

Fixpoint pvalue (fuel : nat) (s : string) : option (json * string) :=
  match fuel with
  | O => None
  | S fuel' =>
      match skip_ws s with
      | String c r =>
          if Ascii.eqb c "{"%char then
            match skip_ws r with
            | String d r' =>
                if Ascii.eqb d "}"%char then Some (JObj [], r')
                else pmembers fuel' (String d r') []
            | EmptyString => None
            end
          else if Ascii.eqb c "["%char then
            match skip_ws r with
            | String d r' =>
                if Ascii.eqb d "]"%char then Some (JArr [], r')
                else pelements fuel' (String d r') []
            | EmptyString => None
            end
          else if Ascii.eqb c DQUOTE then
            match pstring r with
            | Some (str, r') => Some (JStr str, r')
            | None => None
            end
          else pliteral (String c r)
      | EmptyString => None
      end
  end
with pmembers (fuel : nat) (s : string) (acc : list (string * json))
  : option (json * string) :=
  match fuel with
  | O => None
  | S fuel' =>
      match skip_ws s with
      | String c r =>
          if Ascii.eqb c DQUOTE then
            match pstring r with
            | Some (k, r1) =>
                match skip_ws r1 with
                | String c2 r2 =>
                    if Ascii.eqb c2 ":"%char then
                      match pvalue fuel' r2 with
                      | Some (v, r3) =>
                          let acc' := PyDict.set k v acc in
                          match skip_ws r3 with
                          | String c4 r4 =>
                              if Ascii.eqb c4 ","%char
                              then pmembers fuel' r4 acc'
                              else if Ascii.eqb c4 "}"%char
                                   then Some (JObj acc', r4)
                                   else None
                          | EmptyString => None
                          end
                      | None => None
                      end
                    else None
                | EmptyString => None
                end
            | None => None
            end
          else None
      | EmptyString => None
      end
  end
with pelements (fuel : nat) (s : string) (acc : list json)
  : option (json * string) :=
  match fuel with
  | O => None
  | S fuel' =>
      match pvalue fuel' s with
      | Some (v, r) =>
          match skip_ws r with
          | String c r' =>
              if Ascii.eqb c ","%char then pelements fuel' r' (acc ++ [v])
              else if Ascii.eqb c "]"%char then Some (JArr (acc ++ [v]), r')
                   else None
          | EmptyString => None
          end
      | None => None
      end
  end.

Definition loads (s : string) : option json :=
  match pvalue (S (String.length s)) s with
  | Some (j, r) =>
      match skip_ws r with
      | EmptyString => Some j
      | _ => None
      end
  | None => None
  end.

Definition repr_int (z : Z) : string :=
  NilZero.string_of_int (Z.to_int z).

Fixpoint repr (j : json) : string :=
  match j with
  | JNull => "None"
  | JBool true => "True"
  | JBool false => "False"
  | JInt z => repr_int z
  | JFloat _ digits => digits
  | JStr s => "'" +++ s +++ "'"
  | JArr l =>
      "[" +++
      (fix items (l : list json) : string :=
         match l with
         | [] => ""
         | [x] => repr x
         | x :: l' => repr x +++ ", " +++ items l'
         end) l +++ "]"
  | JObj d =>
      "{" +++
      (fix items (d : list (string * json)) : string :=
         match d with
         | [] => ""
         | [(k, x)] => "'" +++ k +++ "': " +++ repr x
         | (k, x) :: d' => "'" +++ k +++ "': " +++ repr x +++ ", " +++ items d'
         end) d +++ "}"
  end.

(** [n] decimal digits. *)
Fixpoint pfixed (n : nat) (s : string) (acc : Z) : option (Z * string) :=
  match n with
  | O => Some (acc, s)
  | S n' =>
      match s with
      | String c s' =>
          match digit_of c with
          | Some d => pfixed n' s' (10 * acc + d)%Z
          | None => None
          end
      | EmptyString => None
      end
  end.

Definition pchar (c : ascii) (s : string) : option string :=
  match s with
  | String d s' => if Ascii.eqb c d then Some s' else None
  | EmptyString => None
  end.

Definition is_leap (y : Z) : bool :=
  ((y mod 4 =? 0) && (negb (y mod 100 =? 0) || (y mod 400 =? 0)))%Z.

Definition days_in_month (y m : Z) : Z :=
  (if m =? 2 then (if is_leap y then 29 else 28)
   else if (m =? 4) || (m =? 6) || (m =? 9) || (m =? 11) then 30 else 31)%Z.

Fixpoint days_before_month (y : Z) (m : nat) : Z :=
  match m with
  | O => 0%Z
  | S m' => (days_before_month y m' + days_in_month y (Z.of_nat m))%Z
  end.

Definition days_before_year (y : Z) : Z :=
  (let p := y - 1 in 365 * p + p / 4 - p / 100 + p / 400)%Z.

Definition clock_of (y mo d h mi sec : Z) : N :=
  let days :=
    (days_before_year y + days_before_month y (Z.to_nat (mo - 1)) + (d - 1))%Z in
  Z.to_N ((((days * 24 + h) * 60 + mi) * 60 + sec) * 1000000)%Z.

Definition poffset (s : string) : option (option Z) :=
  match s with
  | EmptyString => Some None
  | String c r =>
      let sign :=
        if Ascii.eqb c "+"%char then Some 1%Z
        else if Ascii.eqb c "-"%char then Some (-1)%Z else None in
      match sign with
      | None => None
      | Some sg =>
          match pfixed 2 r 0%Z with
          | Some (h, r1) =>
              match pchar ":" r1 with
              | Some r2 =>
                  match pfixed 2 r2 0%Z with
                  | Some (m, EmptyString) =>
                      if ((h <? 24) && (m <? 60))%Z
                      then Some (Some (sg * (h * 60 + m) * 60000000)%Z)
                      else None
                  | _ => None
                  end
              | None => None
              end
          | None => None
          end
      end
  end.

Definition isoformat (s : string) : option datetime :=
  match pfixed 4 s 0%Z with
  | Some (y, r0) =>
  match pchar "-" r0 with
  | Some r1 =>
  match pfixed 2 r1 0%Z with
  | Some (mo, r2) =>
  match pchar "-" r2 with
  | Some r3 =>
  match pfixed 2 r3 0%Z with
  | Some (d, r4) =>
  match pchar "T" r4 with
  | Some r5 =>
  match pfixed 2 r5 0%Z with
  | Some (h, r6) =>
  match pchar ":" r6 with
  | Some r7 =>
  match pfixed 2 r7 0%Z with
  | Some (mi, r8) =>
  match pchar ":" r8 with
  | Some r9 =>
  match pfixed 2 r9 0%Z with
  | Some (sec, r10) =>
      if ((1 <=? y) && (1 <=? mo) && (mo <=? 12) && (1 <=? d)
          && (d <=? days_in_month y mo) && (h <? 24) && (mi <? 60)
          && (sec <? 60))%Z
      then match poffset r10 with
           | Some off => Some (mk_datetime (clock_of y mo d h mi sec) off)
           | None => None
           end
      else None
  | None => None end
  | None => None end
  | None => None end
  | None => None end
  | None => None end
  | None => None end
  | None => None end
  | None => None end
  | None => None end
  | None => None end
  | None => None end.

Definition runtime : PyRuntime :=
  {| json_loads := loads; py_repr := repr; fromisoformat := isoformat |}.

End Mini.

(** Test inputs are written with ['] where the text has a double quote. *)
Fixpoint dq (s : string) : string :=
  match s with
  | EmptyString => EmptyString
  | String c s' =>
      String (if Ascii.eqb c "'"%char then Mini.DQUOTE else c) (dq s')
  end.

Definition collection_scenario_text : string :=
  dq "{'community.general':{'version':'7.0.0'}}" +++ NL
  +++ COLL_SEP +++ NL +++ "{}" +++ NL +++ COLL_SEP +++ NL
  +++ dq "{'community.general':{'version':'6.0.0'}, 'ansible.posix':{'version':'1.5.0'}}".

(* ===================================================================== *)
(** * The document builder *)
(* ===================================================================== *)

(** An [xml.etree] element.  What [make_xml] stores are Python values
    ([T := json]); what [ET.parse] gives back are strings
    ([T := string]). *)
#[local] Unset Elimination Schemes.
Inductive element (T : Type) : Type :=
| Element (tag : string) (attrib : list (string * T)) (text : option T)
          (children : list (element T)).
#[local] Set Elimination Schemes.

Arguments Element {T} tag attrib text children.

Definition el_tag {T} (e : element T) : string :=
  let 'Element t _ _ _ := e in t.
Definition el_attrib {T} (e : element T) : list (string * T) :=
  let 'Element _ a _ _ := e in a.
Definition el_text {T} (e : element T) : option T :=
  let 'Element _ _ x _ := e in x.
Definition el_children {T} (e : element T) : list (element T) :=
  let 'Element _ _ _ c := e in c.

(** [e.findall("./a")]: the children of [e] named [a], in document
    order. *)
Definition find_children {T} (name : string) (e : element T)
  : list (element T) :=
  List.filter (fun c => String.eqb (el_tag c) name) (el_children e).

(** [e.findall("./a/b")] *)
Definition findall2 {T} (a b : string) (e : element T) : list (element T) :=
  List.flat_map (find_children b) (find_children a e).

(** [<] on the tuples [(name, arch, version, release)]. *)
Definition tuple4 : Type := string * string * string * string.

Definition lex_step (a b : string) (rest : bool) : bool :=
  if String.eqb a b then rest else String.ltb a b.

Definition tuple4_ltb (x y : tuple4) : bool :=
  let '(a1, b1, c1, d1) := x in
  let '(a2, b2, c2, d2) := y in
  lex_step a1 a2 (lex_step b1 b2 (lex_step c1 c2 (lex_step d1 d2 false))).

Definition rpm_sort_key (x : rpm) : tuple4 :=
  (rpm_name x, rpm_arch x, rpm_version x, rpm_release x).

Definition rpm_element (r : rpm) : element json :=
  let a := PyDict.set "name" (JStr (rpm_name r)) [] in
  let a := if str_truthy (rpm_epoch r)
           then PyDict.set "epoch" (JStr (rpm_epoch r)) a else a in
  let a := PyDict.set "version" (JStr (rpm_version r)) a in
  let a := PyDict.set "release" (JStr (rpm_release r)) a in
  let a := PyDict.set "arch" (JStr (rpm_arch r)) a in
  Element "rpm" a None [].

Definition package_element (p : pkg json) : element json :=
  Element "package"
    (PyDict.set "version" (pkg_version p)
       (PyDict.set "name" (pkg_name p) [])) None [].

Definition collection_element (c : pkg string) : element json :=
  Element "collection"
    (PyDict.set "version" (JStr (pkg_version c))
       (PyDict.set "name" (JStr (pkg_name c)) [])) None [].

(** [x["name"].lower()] on a record whose name came out of JSON. *)
Definition pip_sort_key (x : pkg json) : exc string :=
  match pkg_name x with
  | JStr s => Ok (PyStr.lower s)
  | _ => Raise AttributeError
  end.

Definition col_sort_key (x : pkg string) : string := PyStr.lower (pkg_name x).

(** The keys of [sorted(l, key=f)] are computed before anything is
    compared. *)
Fixpoint decorate {A K : Type} (key : A -> exc K) (l : list A)
  : exc (list (K * A)) :=
  match l with
  | [] => Ok []
  | x :: l' =>
      (k <- key x ;; r <- decorate key l' ;; Ok ((k, x) :: r))%exc
  end.

Definition sorted_exc {A K : Type} (ltb : K -> K -> bool) (key : A -> exc K)
  (l : list A) : exc (list A) :=
  (d <- decorate key l ;; Ok (List.map snd (sort_keyed ltb d)))%exc.

Section Builder.
Context `{PyRuntime}.

Definition meta_get (meta : list (string * json)) (k : string) : json :=
  match PyDict.get k meta with
  | Some v => v
  | None => JNull
  end.

(** [if l: g = SubElement(root, group); for d in l: SubElement(g, item).text = d] *)
Definition list_group (group item : string) (l : json)
  : exc (list (element json)) :=
  if py_truthy l then
    (ds <- py_iter l ;;
     Ok [Element group []  None
           (List.map (fun d => Element item [] (Some d) []) ds)])%exc
  else Ok [].

Definition make_xml (image_ref : string) (meta : list (string * json))
  (rpms : list rpm) (pips : list (pkg json)) (cols : list (pkg string))
  : exc (element json) :=
  let a := PyDict.set "reference" (JStr image_ref) [] in
  let created := py_or (meta_get meta "Created") (meta_get meta "created") in
  let digest := py_or (meta_get meta "Digest") (meta_get meta "digest") in
  let repo_digests := py_or (meta_get meta "RepoDigests") (JArr []) in
  let repo_tags := py_or (meta_get meta "RepoTags") (JArr []) in
  let a := if py_truthy created
           then PyDict.set "created" (JStr (py_str created)) a else a in
  let a := if py_truthy digest
           then PyDict.set "digest" (JStr (py_str digest)) a else a in
  (rd <- list_group "repoDigests" "digest" repo_digests ;;
   rt <- list_group "repoTags" "tag" repo_tags ;;
   let rpms_el :=
     Element "rpms" [] None
       (List.map rpm_element (sorted_by tuple4_ltb rpm_sort_key rpms)) in
   ps <- sorted_exc String.ltb pip_sort_key pips ;;
   let py_el := Element "python" [] None (List.map package_element ps) in
   let col_el :=
     Element "collections" [] None
       (List.map collection_element (sorted_by String.ltb col_sort_key cols)) in
   Ok (Element "image" a None (rd ++ rt ++ [rpms_el; py_el; col_el])))%exc.

End Builder.

(* ===================================================================== *)
(** * File names, captured sections and image references *)
(* ===================================================================== *)

(** The characters of the class [[A-Za-z0-9._-]]. *)
Definition is_name_char (c : ascii) : bool :=
  let n := nat_of_ascii c in
  (((65 <=? n) && (n <=? 90)) || ((97 <=? n) && (n <=? 122))
   || ((48 <=? n) && (n <=? 57))
   || (n =? 46) || (n =? 95) || (n =? 45))%nat.

(** [re.sub(r"[^A-Za-z0-9._-]+", "_", s)]: every maximal run of
    characters outside the class becomes one underscore.  [in_run] tells
    whether the character before was outside the class.  (The bytes of a
    code point beyond ASCII are all outside the class, so runs of bytes
    and runs of code points are the same.) *)
Fixpoint sanitize_go (s : string) (in_run : bool) : string :=
  match s with
  | EmptyString => EmptyString
  | String c s' =>
      if is_name_char c then String c (sanitize_go s' false)
      else if in_run then sanitize_go s' true
           else String "_"%char (sanitize_go s' true)
  end.

Definition sanitize_filename (s : string) : string := sanitize_go s false.

(** [len(s)] *)
Definition str_len (s : string) : Z := Z.of_nat (String.length s).

(** [s[:n]] for a [str]. *)
Definition str_slice_to (s : string) (n : Z) : string :=
  if (n <? 0)%Z
  then String.substring 0 (Z.to_nat (str_len s + n)) s
  else String.substring 0 (Z.to_nat n) s.

(** [s[n:]] for a [str] and an [n] that is not negative. *)
Definition str_slice_from (s : string) (n : nat) : string :=
  String.substring n (String.length s - n) s.

(** [s.startswith(p)] and [s.endswith(p)] *)
Definition startswith (p s : string) : bool :=
  match PyStr.strip_prefix p s with
  | Some _ => true
  | None => false
  end.

Definition endswith (p s : string) : bool :=
  (String.length p <=? String.length s)%nat
  && String.eqb (str_slice_from s (String.length s - String.length p)) p.

(** [a, b = l] *)
Definition unpack2 {A : Type} (l : list A) : exc (A * A) :=
  match l with
  | [a; b] => Ok (a, b)
  | _ => Raise ValueError
  end.

(** Truth value of a variable that is [None] or a [str]. *)
Definition opt_truthy (o : option string) : bool :=
  match o with
  | Some s => str_truthy s
  | None => false
  end.

(** [image_display_name_and_tag]: the stem of the file an image is
    written to. *)
Definition image_display_name_and_tag (image_ref : string) : exc string :=
  (' (name, tag, digest) <-
     (if PyStr.contains "@" image_ref then
        ' (name, digest) <- unpack2 (PyStr.split1 "@" image_ref) ;;
        Ok (name, None, Some digest)
      else
        last_seg <- py_index (PyStr.rsplit1 "/" image_ref) (-1) ;;
        if PyStr.contains ":" last_seg then
          ' (base, tag) <- unpack2 (PyStr.split1 ":" last_seg) ;;
          Ok (str_slice_to image_ref (- str_len last_seg) +++ base,
              Some tag, None)
        else Ok (image_ref, None, None)) ;;
   base <- py_index (PyStr.split "/" name) (-1) ;;
   Ok (if opt_truthy tag then
         base +++ "__" +++ match tag with Some t => t | None => "" end
       else if opt_truthy digest then
         base +++ "__"
         +++ sanitize_filename (match digest with Some d => d | None => "" end)
       else sanitize_filename image_ref))%exc.

(** The inner [extract] of [split_sections]; its [block] argument is
    not used, the text is [raw]. *)
Definition extract (raw start end_ : string) : exc string :=
  let s := PyStr.split1 start raw in
  if (List.length s <? 2)%nat then Ok EmptyString
  else
    (rest <- py_index s 1 ;;
     py_index (PyStr.split1 end_ rest) 0)%exc.

Definition RPM_START : string := "===RPM START===" +++ NL.
Definition RPM_END : string := "===RPM END===".
Definition PIP_START : string := "===PIP START===" +++ NL.
Definition PIP_END : string := "===PIP END===".
Definition COLL_START : string := "===COLL START===" +++ NL.
Definition COLL_END : string := "===COLL END===".

Definition split_sections (raw : string) : exc (string * string * string) :=
  (rpm_txt <- extract raw RPM_START RPM_END ;;
   pip_txt <- extract raw PIP_START PIP_END ;;
   col_txt <- extract raw COLL_START COLL_END ;;
   Ok (PyStr.strip rpm_txt, PyStr.strip pip_txt, PyStr.strip col_txt))%exc.

(** [split_repo_into_registry_and_path] *)
Definition split_repo_into_registry_and_path (registry_cli repo_cli : string)
  : string * string :=
  let pyxis_registry :=
    if endswith "redhat.io" registry_cli then "registry.access.redhat.com"
    else registry_cli in
  let repo_path := repo_cli in
  let repo_path :=
    if startswith (registry_cli +++ "/") repo_path
    then str_slice_from repo_path (String.length registry_cli + 1)
    else repo_path in
  let repo_path :=
    if startswith (pyxis_registry +++ "/") repo_path
    then str_slice_from repo_path (String.length pyxis_registry + 1)
    else repo_path in
  (pyxis_registry, repo_path).

(** The options [iter_image_refs] reads; an option that was not given is
    [None]. *)
Record cli_args : Type := mk_cli_args {
  args_images : option string;
  args_tags : option string;
  args_tags_file : option string;
  args_repo : string;
  args_registry : string
}.

(** How a function that can call [sys.exit] ends: with its value, with an
    exit status, or with an exception nobody catches. *)
Inductive outcome (A : Type) : Type :=
| Return (a : A)
| Exit (status : Z)
| Uncaught.

Arguments Return {A} a.
Arguments Exit {A} status.
Arguments Uncaught {A}.

(** [[s.strip() for s in text.split(",") if s.strip()]] *)
Definition comma_items (text : string) : list string :=
  List.filter str_truthy (List.map PyStr.strip (PyStr.split "," text)).

(** One round of the loop over the lines of the tags file. *)
Definition tags_file_step (repo : string) (refs : list string)
  (line : string) : list string :=
  let t := PyStr.strip line in
  if negb (str_truthy t) || startswith "#" t then refs
  else if PyStr.contains "/" t || PyStr.contains ":" t
          || PyStr.contains "@" t
       then refs ++ [t]
       else refs ++ [repo +++ ":" +++ t].

(** One round of the last loop: [(seen, uniq)]. *)
Definition dedupe_step (st : list string * list string) (r : string)
  : list string * list string :=
  let (seen, uniq) := st in
  if List.existsb (String.eqb r) seen then st
  else (r :: seen, uniq ++ [r]).

(** [iter_image_refs].  The tag discovery and the file system are the
    arguments [discover] (what [get_all_tags_via_curl_pyxis] returns, or
    that it raises) and [read_text] ([None] when the file cannot be
    read). *)
Definition iter_image_refs (args : cli_args)
  (discover : string -> string -> exc (list string))
  (read_text : string -> option string) : outcome (list string) :=
  let refs := [] in
  let refs :=
    match args_images args with
    | Some images =>
        if str_truthy images then refs ++ comma_items images else refs
    | None => refs
    end in
  let after_tags : outcome (list string) :=
    match args_tags args with
    | Some tags =>
        if str_truthy tags then
          if String.eqb (PyStr.lower (PyStr.strip tags)) "all" then
            match discover (args_registry args) (args_repo args) with
            | Raise _ => Exit 2
            | Ok discovered =>
                match discovered with
                | [] => Exit 2
                | _ =>
                    Return
                      (refs ++ List.map (fun t => args_repo args +++ ":" +++ t)
                                 discovered)
                end
            end
          else
            Return
              (fold_left (fun refs t => refs ++ [args_repo args +++ ":" +++ t])
                 (comma_items tags) refs)
        else Return refs
    | None => Return refs
    end in
  match after_tags with
  | Return refs =>
      let after_file : outcome (list string) :=
        match args_tags_file args with
        | Some file =>
            if str_truthy file then
              match read_text file with
              | Some text =>
                  Return
                    (fold_left (tags_file_step (args_repo args))
                       (PyStr.splitlines text) refs)
              | None => Uncaught
              end
            else Return refs
        | None => Return refs
        end in
      match after_file with
      | Return refs =>
          Return (snd (fold_left dedupe_step refs ([], [])))
      | Exit status => Exit status
      | Uncaught => Uncaught
      end
  | Exit status => Exit status
  | Uncaught => Uncaught
  end.

(** What [main] does with the text captured from one image:
    [split_sections], the three parsers and [make_xml], and the name of
    the file the document is written to. *)
Definition main_document `{PyRuntime} (image : string) (meta : json)
  (raw : string) : exc (element json) :=
  (' (rpm_txt, pip_txt, col_txt) <- split_sections raw ;;
   let rpms := parse_rpm_lines rpm_txt in
   let pips := parse_pip_json pip_txt in
   let cols := parse_collections_merged col_txt in
   make_xml image (match meta with JObj d => d | _ => [] end) rpms pips cols)%exc.

Definition main_xml_name (image : string) : exc string :=
  (stem <- image_display_name_and_tag image ;;
   Ok (sanitize_filename stem +++ ".xml"))%exc.

(* ===================================================================== *)
(** * The document loader *)
(* ===================================================================== *)

(** A path is the text of [str(path)]. *)
Definition path_name (path : string) : string :=
  match PyStr.rpartition "/" path with
  | Some (_, a) => a
  | None => path
  end.

(** [name.rfind(".")] as the text before and after the last dot. *)
Definition path_stem (path : string) : string :=
  let name := path_name path in
  match PyStr.rpartition "." name with
  | Some (b, a) =>
      if str_truthy b && str_truthy a then b else name
  | None => name
  end.

(** The longest prefix without [.] and [/], and what follows it. *)
Fixpoint span_tag (s : string) : string * string :=
  match s with
  | EmptyString => (EmptyString, EmptyString)
  | String c s' =>
      if Ascii.eqb c "."%char || Ascii.eqb c "/"%char then (EmptyString, s)
      else let (g, r) := span_tag s' in (String c g, r)
  end.

(** A match of [__([^./]+)\.xml$] at the start of [s]: the group can
    only be the whole run of characters other than [.] and [/], and [$]
    holds at the end of the text or before its final line feed. *)
Definition match_tag_here (s : string) : option string :=
  match PyStr.strip_prefix "__" s with
  | Some r =>
      let (g, r') := span_tag r in
      if str_truthy g then
        match PyStr.strip_prefix ".xml" r' with
        | Some e =>
            if String.eqb e EmptyString || String.eqb e NL then Some g
            else None
        | None => None
        end
      else None
  | None => None
  end.

(** [re.search(r"__([^./]+)\.xml$", s)], giving [m.group(1)]: the
    leftmost position where the pattern matches. *)
Fixpoint search_tag (s : string) : option string :=
  match match_tag_here s with
  | Some g => Some g
  | None =>
      match s with
      | EmptyString => None
      | String _ s' => search_tag s'
      end
  end.

(** [d.get(k, default)] with the empty string as default. *)
Definition attr (a : list (string * string)) (k : string) : string :=
  match PyDict.get k a with
  | Some v => v
  | None => EmptyString
  end.

(** [not tag], for a tag that is [None] or a string. *)
Definition no_tag (tag : option string) : bool :=
  match tag with
  | None => true
  | Some t => negb (str_truthy t)
  end.

Record snapshot : Type := mk_snapshot {
  snap_path : string;
  snap_tag : string;
  snap_created : datetime;
  snap_rpms : list rpm;
  snap_pips : list (pkg string);
  snap_cols : list (pkg string)
}.

Definition rpm_of_element (r : element string) : rpm :=
  let a := el_attrib r in
  mk_rpm (attr a "name")
    (let e := attr a "epoch" in if str_truthy e then e else EmptyString)
    (attr a "version") (attr a "release") (attr a "arch").

Definition pkg_of_element (p : element string) : pkg string :=
  mk_pkg (attr (el_attrib p) "name") (attr (el_attrib p) "version").

Section Loader.
Context `{PyRuntime}.

(** The tag taken from the [reference] attribute. *)
Definition tag_from_reference (ref : string) : exc (option string) :=
  (seg <- py_index (PyStr.rsplit1 "/" ref) (-1) ;;
   if PyStr.contains ":" seg then
     seg' <- py_index (PyStr.rsplit1 "/" ref) (-1) ;;
     t <- py_index (PyStr.split ":" seg') 1 ;;
     Ok (Some t)
   else Ok None)%exc.

(** The loop over [./repoTags/tag], left at the first text with a
    colon. *)
Fixpoint tag_from_repo_tags (ts : list (element string))
  (tag : option string) : exc (option string) :=
  match ts with
  | [] => Ok tag
  | t :: ts' =>
      let txt :=
        PyStr.strip
          (match el_text t with
           | Some x => if str_truthy x then x else EmptyString
           | None => EmptyString
           end) in
      if PyStr.contains ":" txt then
        (x <- py_index (PyStr.split ":" txt) (-1) ;; Ok (Some x))%exc
      else tag_from_repo_tags ts' tag
  end.

Definition derive_tag (path : string) (root : element string)
  : exc string :=
  let ref := attr (el_attrib root) "reference" in
  (tag <- tag_from_reference ref ;;
   tag <- (if no_tag tag
           then tag_from_repo_tags (findall2 "repoTags" "tag" root) tag
           else Ok tag) ;;
   let tag :=
     if no_tag tag then
       match search_tag path with
       | Some g => Some g
       | None => tag
       end
     else tag in
   Ok (match tag with
       | Some t => if str_truthy t then t else path_stem path
       | None => path_stem path
       end))%exc.

(** [created_dt], the timestamp before the sentinel is put in. *)
Definition derive_created_dt (created : string) : exc (option datetime) :=
  if str_truthy created then
    (a <- py_index (PyStr.split "Z" created) 0 ;;
     created_trim <- py_index (PyStr.split "." a) 0 ;;
     catch (match fromisoformat created_trim with
            | Some dt => Ok (Some dt)
            | None => Raise ValueError
            end)
           (Ok None))%exc
  else Ok None.

Definition derive_created (root : element string) : exc datetime :=
  (created_dt <- derive_created_dt (attr (el_attrib root) "created") ;;
   Ok (match created_dt with
       | Some dt => dt
       | None => datetime_min
       end))%exc.

(** [parse_image_xml], from the root that [ET.parse(path)] returns. *)
Definition parse_image_xml (path : string) (root : element string)
  : exc snapshot :=
  (tag <- derive_tag path root ;;
   created <- derive_created root ;;
   let rpms := List.map rpm_of_element (findall2 "rpms" "rpm" root) in
   let pips := List.map pkg_of_element (findall2 "python" "package" root) in
   let cols :=
     List.map pkg_of_element (findall2 "collections" "collection" root) in
   Ok (mk_snapshot path tag created rpms pips cols))%exc.

End Loader.

(* ===================================================================== *)
(** * The differ *)
(* ===================================================================== *)

(** [(added, removed, upgraded, downgraded)] *)
Definition diff_result : Type :=
  list string * list string * list string * list string.

Definition rpm_key_name_arch (r : rpm) : string * string :=
  (rpm_name r, rpm_arch r).

Definition rpm_version_str (r : rpm) : string :=
  let evr := rpm_version r +++ "-" +++ rpm_release r in
  if str_truthy (rpm_epoch r) then rpm_epoch r +++ ":" +++ evr else evr.

Definition rpm_label (r : rpm) : string :=
  rpm_name r +++ "[" +++ rpm_arch r +++ "] ".

(** The accumulators of the first loop: [(added, upgraded, downgraded)]. *)
Definition diff_acc : Type := list string * list string * list string.

Definition diff_rpms_new_step (old : PyDict.t (K := string * string) (V := rpm))
  (acc : diff_acc) (kv : (string * string) * rpm) : diff_acc :=
  let '(added, upgraded, downgraded) := acc in
  let (k, nv) := kv in
  match PyDict.get k old with
  | None =>
      (added ++ ["+ " +++ rpm_label nv +++ rpm_version_str nv],
       upgraded, downgraded)
  | Some ov =>
      let o := rpm_version_str ov in
      let n := rpm_version_str nv in
      if negb (String.eqb o n) then
        if String.ltb o n
        then (added, upgraded ++ ["↑ " +++ rpm_label nv +++ o +++ " → " +++ n],
              downgraded)
        else (added, upgraded,
              downgraded ++ ["↓ " +++ rpm_label nv +++ o +++ " → " +++ n])
      else acc
  end.

Definition diff_rpms_old_step (new : PyDict.t (K := string * string) (V := rpm))
  (removed : list string) (kv : (string * string) * rpm) : list string :=
  let (k, ov) := kv in
  if PyDict.mem k new then removed
  else removed ++ ["− " +++ rpm_label ov +++ rpm_version_str ov].

Definition diff_rpms (old_list new_list : list rpm) : diff_result :=
  let old := index_by old_list rpm_key_name_arch in
  let new := index_by new_list rpm_key_name_arch in
  let '(added, upgraded, downgraded) :=
    fold_left (diff_rpms_new_step old) new ([], [], []) in
  let removed := fold_left (diff_rpms_old_step new) old [] in
  (added, removed, upgraded, downgraded).

(** The inner [key] of [diff_simple_pkgs]. *)
Definition simple_key (x : pkg string) : string := PyStr.lower (pkg_name x).

Definition diff_simple_new_step (old : PyDict.t (K := string) (V := pkg string))
  (acc : diff_acc) (kv : string * pkg string) : diff_acc :=
  let '(added, upgraded, downgraded) := acc in
  let (k, nv) := kv in
  match PyDict.get k old with
  | None =>
      (added ++ ["+ " +++ pkg_name nv +++ " " +++ pkg_version nv],
       upgraded, downgraded)
  | Some ov =>
      let o := pkg_version ov in
      let n := pkg_version nv in
      if negb (String.eqb o n) then
        if String.ltb o n
        then (added, upgraded ++ ["↑ " +++ pkg_name nv +++ " " +++ o +++ " → " +++ n],
              downgraded)
        else (added, upgraded,
              downgraded ++ ["↓ " +++ pkg_name nv +++ " " +++ o +++ " → " +++ n])
      else acc
  end.

Definition diff_simple_old_step (new : PyDict.t (K := string) (V := pkg string))
  (removed : list string) (kv : string * pkg string) : list string :=
  let (k, ov) := kv in
  if PyDict.mem k new then removed
  else removed ++ ["− " +++ pkg_name ov +++ " " +++ pkg_version ov].

Definition diff_simple_pkgs (old_list new_list : list (pkg string))
  : diff_result :=
  let old := index_by old_list simple_key in
  let new := index_by new_list simple_key in
  let '(added, upgraded, downgraded) :=
    fold_left (diff_simple_new_step old) new ([], [], []) in
  let removed := fold_left (diff_simple_old_step new) old [] in
  (added, removed, upgraded, downgraded).

(* ===================================================================== *)
(** * The report renderer *)
(* ===================================================================== *)

(** One replacement pass of [str.replace] for a single character. *)
Fixpoint replace_char (c : ascii) (by_ : string) (s : string) : string :=
  match s with
  | EmptyString => EmptyString
  | String d s' =>
      if Ascii.eqb d c then by_ +++ replace_char c by_ s'
      else String d (replace_char c by_ s')
  end.

(** [html.escape(s)] with its default [quote=True]: five passes, the
    ampersand first. *)
Definition escape (s : string) : string :=
  let s := replace_char "&"%char "&amp;" s in
  let s := replace_char "<"%char "&lt;" s in
  let s := replace_char ">"%char "&gt;" s in
  let s := replace_char Mini.DQUOTE "&quot;" s in
  replace_char "'"%char "&#x27;" s.

(** [sep.join(l)] with the empty separator. *)
Definition join (l : list string) : string :=
  fold_right String.append EmptyString l.

Definition li (s : string) : string := "<li>" +++ escape s +++ "</li>".

(** The inner [to_list] of [cell_html]. *)
Definition to_list (title : string) (entries : list string) : string :=
  match entries with
  | [] => EmptyString
  | _ => "<h5>" +++ title +++ "</h5><ul>" +++ join (List.map li entries) +++ "</ul>"
  end.

Definition len {A} (l : list A) : Z := Z.of_nat (List.length l).

Definition str_of_Z (z : Z) : string := NilZero.string_of_int (Z.to_int z).

Definition cell_html_limit (diff_tuple : diff_result) (show_limit : Z)
  : string :=
  let '(added, removed, upgraded, downgraded) := diff_tuple in
  let total := (len added + len removed + len upgraded + len downgraded)%Z in
  if (total =? 0)%Z then "<div class='empty'>No changes</div>"
  else
    let lines :=
      ["<div class='counts'>+" +++ str_of_Z (len added) +++ " / ↑"
       +++ str_of_Z (len upgraded) +++ " / ↓" +++ str_of_Z (len downgraded)
       +++ " / −" +++ str_of_Z (len removed) +++ "</div>"] in
    let sample :=
      py_slice_to added (show_limit / 2) ++ py_slice_to upgraded (show_limit / 2) in
    let lines :=
      match sample with
      | [] => lines
      | _ => lines ++ ["<ul>" +++ join (List.map li sample) +++ "</ul>"]
      end in
    let remaining := (total - len sample)%Z in
    let lines :=
      if (remaining >? 0)%Z then
        let details_html :=
          join [to_list "Added" added; to_list "Upgraded" upgraded;
                to_list "Downgraded" downgraded; to_list "Removed" removed] in
        lines ++ ["<details><summary>Show all (" +++ str_of_Z total
                  +++ ")</summary>" +++ details_html +++ "</details>"]
      else lines in
    join lines.

(** [cell_html] with its default [show_limit=30]. *)
Definition cell_html (diff_tuple : diff_result) : string :=
  cell_html_limit diff_tuple 30.

(** [==] and [<] on [datetime]: a naive and an aware one are never equal,
    and ordering them raises [TypeError]. *)
Definition dt_utc (d : datetime) (off : Z) : Z := (Z.of_N (dt_clock d) - off)%Z.

Definition dt_eqb (a b : datetime) : bool :=
  match dt_utcoffset a, dt_utcoffset b with
  | None, None => (dt_clock a =? dt_clock b)%N
  | Some oa, Some ob => (dt_utc a oa =? dt_utc b ob)%Z
  | _, _ => false
  end.

Definition dt_lt (a b : datetime) : exc bool :=
  match dt_utcoffset a, dt_utcoffset b with
  | None, None => Ok (dt_clock a <? dt_clock b)%N
  | Some oa, Some ob => Ok (dt_utc a oa <? dt_utc b ob)%Z
  | _, _ => Raise TypeError
  end.

(** [<] on the tuples [(created, tag)]: the first components that differ
    decide. *)
Definition entry_key : Type := datetime * string.

Definition entry_key_lt (x y : entry_key) : exc bool :=
  if dt_eqb (fst x) (fst y) then
    if String.eqb (snd x) (snd y) then Ok false
    else Ok (String.ltb (snd x) (snd y))
  else dt_lt (fst x) (fst y).

(** The stable sort again, for a [<] that can raise.  Whichever
    comparison sort runs, it compares a naive with an aware timestamp as
    soon as both are in the list. *)
Section SortingExc.
Context {K A : Type} (lt : K -> K -> exc bool).

Fixpoint insert_keyed_exc (x : K * A) (l : list (K * A))
  : exc (list (K * A)) :=
  match l with
  | [] => Ok [x]
  | y :: l' =>
      (b <- lt (fst y) (fst x) ;;
       if b then r <- insert_keyed_exc x l' ;; Ok (y :: r)
       else Ok (x :: y :: l'))%exc
  end.

Fixpoint sort_keyed_exc (l : list (K * A)) : exc (list (K * A)) :=
  match l with
  | [] => Ok []
  | x :: l' => (r <- sort_keyed_exc l' ;; insert_keyed_exc x r)%exc
  end.
End SortingExc.

Definition entry_sort_key (e : snapshot) : entry_key :=
  (snap_created e, snap_tag e).

(** [sorted(entries, key=lambda e: (e['created'], e['tag']))] *)
Definition sort_entries (entries : list snapshot) : exc (list snapshot) :=
  (d <- sort_keyed_exc entry_key_lt
          (List.map (fun e => (entry_sort_key e, e)) entries) ;;
   Ok (List.map snd d))%exc.

Definition enumerate {A} (l : list A) : list (Z * A) :=
  List.combine (List.map Z.of_nat (seq 0 (List.length l))) l.

(** [(rpm_cells, pip_cells, col_cells)] *)
Definition cells : Type := list string * list string * list string.

Definition cells_step (entries : list snapshot) (acc : cells)
  (ie : Z * snapshot) : exc cells :=
  let '(rpm_cells, pip_cells, col_cells) := acc in
  let (idx, e) := ie in
  if (idx =? 0)%Z then
    Ok (rpm_cells ++ [EmptyString], pip_cells ++ [EmptyString],
        col_cells ++ [EmptyString])
  else
    (prev <- py_index entries (idx - 1) ;;
     Ok (rpm_cells ++ [cell_html (diff_rpms (snap_rpms prev) (snap_rpms e))],
         pip_cells ++ [cell_html (diff_simple_pkgs (snap_pips prev) (snap_pips e))],
         col_cells ++ [cell_html (diff_simple_pkgs (snap_cols prev) (snap_cols e))]))%exc.

Definition css : string := "
    <style>
    :root { --label-col-width: 200px; --col-min-width: 440px; }
    body { font-family: -apple-system, BlinkMacSystemFont, Segoe UI, Roboto, Helvetica, Arial, sans-serif; padding: 16px; margin: 0; }
    .table-wrap { width: 100%; overflow-x: auto; }
    table { border-collapse: separate; border-spacing: 0; width: max-content; min-width: 100%; }
    th, td { border: 1px solid #ddd; vertical-align: top; padding: 10px; word-break: break-word; overflow-wrap: anywhere; }
    thead th { background: #fafafa; position: sticky; top: 0; z-index: 2; }
    .rowlbl-hdr, .rowlbl { width: var(--label-col-width); min-width: var(--label-col-width); max-width: var(--label-col-width); background: #fff; position: sticky; left: 0; z-index: 3; }
    .rowlbl { font-weight: 700; }
    .taghdr, td.datacell { min-width: var(--col-min-width); }
    td .counts { font-weight: 600; margin-bottom: 6px; }
    td ul { margin: 4px 0 8px 16px; padding: 0; }
    td h5 { margin: 6px 0 4px; font-size: 12px; color: #555; }
    details { margin-top: 6px; }
    .empty { color: #666; font-style: italic; }
    </style>
    ".

Definition taghdr (t : string) : string :=
  "<th class='taghdr'>" +++ escape t +++ "</th>".

Definition datacell (c : string) : string :=
  "<td class='datacell'>" +++ c +++ "</td>".

Definition build_report (entries0 : list snapshot) : exc string :=
  (entries <- sort_entries entries0 ;;
   let tags := List.map snap_tag entries in
   ' (rpm_cells, pip_cells, col_cells) <-
      for_each (cells_step entries) (enumerate entries) ([], [], []) ;;
   let html := ["<html><head><meta charset='utf-8'>"; css; "</head><body>"] in
   let html := html ++ ["<h1>EE Image Package Diffs</h1>"] in
   let html := html ++ ["<p>Columns are widened for readability (min width ~440px). Scroll horizontally to view all tags and vertically for full details.</p>"] in
   let html := html ++ ["<div class='table-wrap'>"] in
   let html := html ++ ["<table>"] in
   let html := html ++ ["<thead><tr><th class='rowlbl-hdr'>Type</th>"
                        +++ join (List.map taghdr tags) +++ "</tr></thead>"] in
   let html := html ++ ["<tbody>"] in
   let html := html ++ ["<tr><th class='rowlbl'>RPMs</th>"
                        +++ join (List.map datacell rpm_cells) +++ "</tr>"] in
   let html := html ++ ["<tr><th class='rowlbl'>Python Packages</th>"
                        +++ join (List.map datacell pip_cells) +++ "</tr>"] in
   let html := html ++ ["<tr><th class='rowlbl'>Ansible Collections</th>"
                        +++ join (List.map datacell col_cells) +++ "</tr>"] in
   let html := html ++ ["</tbody></table></div>"] in
   let html := html ++ ["</body></html>"] in
   Ok (join html))%exc.

(* ===================================================================== *)
(** * The vocabulary of the properties *)
(* ===================================================================== *)

(** The definitions the statements below are written with: what the
    specification names (sources, precedence, classes of identity keys,
    rules of the tag derivation, markup around escaped texts) and the
    inputs of the examples. *)

(** ** Dictionaries *)

Definition key_eq_dec {K : Type} `{EqKey K} (a b : K) : {a = b} + {a <> b} :=
  match key_eqb_spec a b with
  | ReflectT _ e => left e
  | ReflectF _ n => right n
  end.

(** ** Sorted lists *)

(** [x] may stand before [y]: [y < x] does not hold. *)
Definition key_le {K A : Type} (ltb : K -> K -> bool) (x y : K * A) : Prop :=
  ltb (fst y) (fst x) = false.

(** The order a list sorted on [key] is in. *)
Definition le_on {A K : Type} (ltb : K -> K -> bool) (key : A -> K)
  (x y : A) : Prop :=
  ltb (key y) (key x) = false.

(** ** The RPM parser *)

Definition rpm_none_text : string :=
  "bash|(none)|5.1.8|6.el9|x86_64" +++ NL +++ "malformed-line" +++ NL.

(** ** Collection reconciliation *)

(** The source read from the [i]-th chunk of the text, empty when the
    text has no such chunk. *)
Definition source_of_chunk `{PyRuntime} (text : string) (i : nat)
  : PyDict.t (K := string) (V := string) :=
  match nth_error (PyStr.split COLL_SEP text) i with
  | Some c => _colls_from_obj (loads_chunk (PyStr.strip c))
  | None => []
  end.

(** What the precedence galaxy > filesystem > rpm-derived gives for a
    name. *)
Definition by_precedence (galaxy fs rpms : PyDict.t (K := string) (V := string))
  (name : string) : option string :=
  match PyDict.get name galaxy with
  | Some v => Some v
  | None =>
      match PyDict.get name fs with
      | Some v => Some v
      | None => PyDict.get name rpms
      end
  end.

Definition merged_of (galaxy fs rpms : PyDict.t (K := string) (V := string))
  : PyDict.t (K := string) (V := string) :=
  fold_left merge_source [rpms; fs; galaxy] [].

(** ** The differ: classification of identity keys *)

Inductive change : Type := Added | Removed | Upgraded | Downgraded | Unchanged.

Definition change_eqb (a b : change) : bool :=
  match a, b with
  | Added, Added | Removed, Removed | Upgraded, Upgraded
  | Downgraded, Downgraded | Unchanged, Unchanged => true
  | _, _ => false
  end.

(** What [diff_rpms] and [diff_simple_pkgs] differ in: the identity key
    of a record, its effective version, and the entries written for it. *)
Class DiffStyle (K V : Type) : Type := {
  key : V -> K;
  ver : V -> string;
  add_line : V -> string;
  rem_line : V -> string;
  up_line : V -> string -> string -> string;
  down_line : V -> string -> string -> string
}.

Section DiffByModel.
Context {K V : Type} {E : EqKey K} {S : DiffStyle K V}.

(** The two loops of [diff_rpms] and [diff_simple_pkgs], over a style. *)
Definition new_step_by (old : PyDict.t (K := K) (V := V))
  (acc : diff_acc) (kv : K * V) : diff_acc :=
  let '(added, upgraded, downgraded) := acc in
  let (k, nv) := kv in
  match PyDict.get k old with
  | None => (added ++ [add_line nv], upgraded, downgraded)
  | Some ov =>
      let o := ver ov in
      let n := ver nv in
      if negb (String.eqb o n) then
        if String.ltb o n
        then (added, upgraded ++ [up_line nv o n], downgraded)
        else (added, upgraded, downgraded ++ [down_line nv o n])
      else acc
  end.

Definition old_step_by (new : PyDict.t (K := K) (V := V))
  (removed : list string) (kv : K * V) : list string :=
  let (k, ov) := kv in
  if PyDict.mem k new then removed else removed ++ [rem_line ov].

Definition diff_by (old_list new_list : list V) : diff_result :=
  let old := index_by old_list key in
  let new := index_by new_list key in
  let '(added, upgraded, downgraded) :=
    fold_left (new_step_by old) new ([], [], []) in
  let removed := fold_left (old_step_by new) old [] in
  (added, removed, upgraded, downgraded).

(** The classification of the specification, for the identity-keyed
    mappings [old] and [new]: a key of [new] alone is added, a key of
    [old] alone is removed, a key of both is upgraded when the old
    effective version is below the new one as a string, downgraded when
    it differs otherwise, and unchanged when the versions are equal. *)
Definition classify (old new : PyDict.t (K := K) (V := V)) (k : K)
  : option change :=
  match PyDict.get k old, PyDict.get k new with
  | None, None => None
  | None, Some _ => Some Added
  | Some _, None => Some Removed
  | Some ov, Some nv =>
      if String.eqb (ver ov) (ver nv) then Some Unchanged
      else if String.ltb (ver ov) (ver nv) then Some Upgraded
           else Some Downgraded
  end.

Definition has_class (old new : PyDict.t (K := K) (V := V)) (c : change)
  (k : K) : bool :=
  match classify old new k with
  | Some c' => change_eqb c c'
  | None => false
  end.

(** The keys of a class, in the order the loops meet them: the order of
    [old] for the removed keys, of [new] for the others. *)
Definition keys_of (c : change) (old new : PyDict.t (K := K) (V := V))
  : list K :=
  match c with
  | Removed => List.filter (has_class old new Removed) (PyDict.keys old)
  | _ => List.filter (has_class old new c) (PyDict.keys new)
  end.

(** The entry the differ writes for a key of a class. *)
Definition line_of (c : change) (old new : PyDict.t (K := K) (V := V))
  (k : K) : string :=
  match c, PyDict.get k old, PyDict.get k new with
  | Added, _, Some nv => add_line nv
  | Removed, Some ov, _ => rem_line ov
  | Upgraded, Some ov, Some nv => up_line nv (ver ov) (ver nv)
  | Downgraded, Some ov, Some nv => down_line nv (ver ov) (ver nv)
  | _, _, _ => EmptyString
  end.

Definition lines_of (c : change) (old new : PyDict.t (K := K) (V := V))
  : list string :=
  List.map (line_of c old new) (keys_of c old new).



End DiffByModel.

Definition swap_change (c : change) : change :=
  match c with
  | Added => Removed
  | Removed => Added
  | Upgraded => Downgraded
  | Downgraded => Upgraded
  | Unchanged => Unchanged
  end.

Definition rpm_add_line (nv : rpm) : string :=
  "+ " +++ rpm_label nv +++ rpm_version_str nv.
Definition rpm_rem_line (ov : rpm) : string :=
  "− " +++ rpm_label ov +++ rpm_version_str ov.
Definition rpm_up_line (nv : rpm) (o n : string) : string :=
  "↑ " +++ rpm_label nv +++ o +++ " → " +++ n.
Definition rpm_down_line (nv : rpm) (o n : string) : string :=
  "↓ " +++ rpm_label nv +++ o +++ " → " +++ n.

Definition pkg_add_line (nv : pkg string) : string :=
  "+ " +++ pkg_name nv +++ " " +++ pkg_version nv.
Definition pkg_rem_line (ov : pkg string) : string :=
  "− " +++ pkg_name ov +++ " " +++ pkg_version ov.
Definition pkg_up_line (nv : pkg string) (o n : string) : string :=
  "↑ " +++ pkg_name nv +++ " " +++ o +++ " → " +++ n.
Definition pkg_down_line (nv : pkg string) (o n : string) : string :=
  "↓ " +++ pkg_name nv +++ " " +++ o +++ " → " +++ n.

(** RPM records: identity key [(name, arch)], effective version
    [rpm_version_str]. *)
Definition rpm_style : DiffStyle (string * string) rpm :=
  {| key := rpm_key_name_arch; ver := rpm_version_str;
     add_line := rpm_add_line; rem_line := rpm_rem_line;
     up_line := rpm_up_line; down_line := rpm_down_line |}.

(** Simple records: identity key the lower-cased name, effective version
    the version string. *)
Definition pkg_style : DiffStyle string (pkg string) :=
  {| key := simple_key; ver := @pkg_version string;
     add_line := pkg_add_line; rem_line := pkg_rem_line;
     up_line := pkg_up_line; down_line := pkg_down_line |}.


(** What it is for the diffs of [(A, B)] and of [(B, A)] to mirror each
    other, for a style [S]: both write the entries of their classes of
    keys, the added keys of one are the removed keys of the other, and
    the upgraded keys of one are, as a set, the downgraded keys of the
    other; the comparison of unequal strings is anti-symmetric. *)
Definition mirrors {K V : Type} {E : EqKey K} (S : DiffStyle K V)
  (A B : list V) (forward backward : diff_result) : Prop :=
  let a := index_by A key in
  let b := index_by B key in
  forward = (lines_of Added a b, lines_of Removed a b,
             lines_of Upgraded a b, lines_of Downgraded a b)
  /\ backward = (lines_of Added b a, lines_of Removed b a,
                 lines_of Upgraded b a, lines_of Downgraded b a)
  /\ (forall c, List.length (lines_of c a b) = List.length (keys_of c a b)
                /\ List.length (lines_of c b a) = List.length (keys_of c b a))
  /\ keys_of Added b a = keys_of Removed a b
  /\ keys_of Removed b a = keys_of Added a b
  /\ Permutation (keys_of Upgraded b a) (keys_of Downgraded a b)
  /\ Permutation (keys_of Downgraded b a) (keys_of Upgraded a b)
  /\ forall x y : string, x <> y -> String.ltb y x = negb (String.ltb x y).

(** ** Tag derivation *)

(** The text after the last occurrence of [sep], the whole text when
    there is none. *)
Definition after_last (sep s : string) : string :=
  match PyStr.rpartition sep s with
  | Some (_, a) => a
  | None => s
  end.

(** The last [/]-separated segment of a reference. *)
Definition last_segment (ref : string) : string := after_last "/" ref.

(** The text between the first and the second colon of a segment (up to
    its end when it has one colon only), for a segment with a colon. *)
Definition second_field (seg : string) : option string :=
  match PyStr.partition ":" seg with
  | Some (_, rest) =>
      Some (match PyStr.partition ":" rest with
            | Some (t, _) => t
            | None => rest
            end)
  | None => None
  end.

(** The text after the last colon of a segment, for a segment with a
    colon. *)
Definition last_field (seg : string) : option string :=
  if PyStr.contains ":" seg then Some (after_last ":" seg) else None.

(** The stripped texts of the [repoTags] entries. *)
Definition repo_tag_texts (root : element string) : list string :=
  List.map
    (fun t => PyStr.strip (match el_text t with
                           | Some x => x
                           | None => EmptyString
                           end))
    (findall2 "repoTags" "tag" root).

(** The suffix after the last colon of the first entry with a colon. *)
Definition repo_tag_suffix (texts : list string) : option string :=
  match List.find (PyStr.contains ":") texts with
  | Some txt => Some (after_last ":" txt)
  | None => None
  end.

(** The first candidate that is a non-empty string, else the fallback. *)
Fixpoint first_nonempty (candidates : list (option string)) (fallback : string)
  : string :=
  match candidates with
  | [] => fallback
  | Some t :: rest => if str_truthy t then t else first_nonempty rest fallback
  | None :: rest => first_nonempty rest fallback
  end.

(** The tag as the specification derives it, with the text after the
    last colon of the segment as first rule. *)
Definition claimed_tag (path : string) (root : element string) : string :=
  first_nonempty
    [last_field (last_segment (attr (el_attrib root) "reference"));
     repo_tag_suffix (repo_tag_texts root);
     search_tag path]
    (path_stem path).

(** The tag as the loader derives it, with the second colon-separated
    field of the segment as first rule. *)
Definition derived_tag (path : string) (root : element string) : string :=
  first_nonempty
    [second_field (last_segment (attr (el_attrib root) "reference"));
     repo_tag_suffix (repo_tag_texts root);
     search_tag path]
    (path_stem path).

Ltac settle_truthy :=
  repeat (simpl;
          repeat match goal with
                 | H : str_truthy ?a = _ |- context [str_truthy ?a] => rewrite H
                 end).

(** What a match of the file-name pattern is: the path ends, up to a
    final line feed, in two underscores, a non-empty group without dot
    and slash, and [.xml]. *)
Definition tag_pattern (path g : string) : Prop :=
  exists prefix e,
    path = prefix +++ "__" +++ g +++ ".xml" +++ e
    /\ (e = EmptyString \/ e = NL)
    /\ str_truthy g = true
    /\ PyStr.contains "." g = false
    /\ PyStr.contains "/" g = false.

Definition digest_reference_doc : element string :=
  Element "image" [("reference", "quay.io/ns/ee:1.0@sha256:abc")] None [].

(** ** Timestamp derivation and the snapshot ordering *)

(** The text before the first occurrence of [sep], the whole text when
    there is none. *)
Definition before_first (sep s : string) : string :=
  match PyStr.partition sep s with
  | Some (b, _) => b
  | None => s
  end.

(** The [created] attribute without what follows its first [Z] and then
    its first dot. *)
Definition created_trim (created : string) : string :=
  before_first "." (before_first "Z" created).

(** The timestamp a document gets: the one [fromisoformat] reads in the
    trimmed attribute, the sentinel when the attribute is absent or empty
    or cannot be read. *)
Definition created_of `{PyRuntime} (root : element string) : datetime :=
  let created := attr (el_attrib root) "created" in
  if str_truthy created then
    match fromisoformat (created_trim created) with
    | Some dt => dt
    | None => datetime_min
    end
  else datetime_min.

Definition naive (d : datetime) : Prop := dt_utcoffset d = None.

(** [<] on [(created, tag)] for naive timestamps. *)
Definition naive_key_ltb (x y : entry_key) : bool :=
  if (dt_clock (fst x) =? dt_clock (fst y))%N then String.ltb (snd x) (snd y)
  else (dt_clock (fst x) <? dt_clock (fst y))%N.

Definition offset_doc : element string :=
  Element "image"
    [("reference", "quay.io/ns/ee:1.0"); ("created", "2024-01-15T10:30:00+00:00")]
    None [].

Definition undated_doc : element string :=
  Element "image" [("reference", "quay.io/ns/ee:1.1")] None [].

(** ** The document builder: what it stores *)

(** A value of the metadata that [make_xml] can take for a list: one
    that is false, or one that can be iterated. *)
Definition listable (j : json) : Prop :=
  match j with
  | JBool b => b = false
  | JInt z => z = 0%Z
  | JFloat nz _ => nz = false
  | _ => True
  end.

Definition has_str_name (p : pkg json) : Prop :=
  exists s, pkg_name p = JStr s.

(** The lower-cased name of an interpreted package. *)
Definition pip_name_lower (p : pkg json) : string :=
  match pkg_name p with
  | JStr s => PyStr.lower s
  | _ => EmptyString
  end.

(** The records a group of the document was written from. *)
Definition stored_as {A : Type} (to_element : A -> element json)
  (group : string) (root : element json) (l : list A) : Prop :=
  List.map (@el_children json) (find_children group root)
  = [List.map to_element l].

Definition sample_meta : list (string * json) :=
  [("Created", JStr "2024-01-15T10:30:00.5Z");
   ("RepoTags", JArr [JStr "quay.io/ns/ee:1.0"])].

Definition sample_rpms : list rpm :=
  [mk_rpm "zlib" "0" "1.2.11" "40.el9" "x86_64";
   mk_rpm "bash" "0" "5.1.8" "6.el9" "x86_64"].

Definition sample_pips : list (pkg json) :=
  [mk_pkg (JStr "PyYAML") (JStr "6.0"); mk_pkg (JStr "ansible-core") (JStr "2.15.0")].

Definition sample_cols : list (pkg string) :=
  [mk_pkg "community.general" "7.0.0"; mk_pkg "ansible.posix" "1.5.0"].

(** An attribute of a stored record, as a string. *)
Definition stored_attr (e : element json) (k : string) : string :=
  match PyDict.get k (el_attrib e) with
  | Some (JStr s) => s
  | _ => EmptyString
  end.

Definition stored_rpm_key (e : element json) : string * string :=
  (stored_attr e "name", stored_attr e "arch").

Definition stored_lower_name (e : element json) : string :=
  PyStr.lower (stored_attr e "name").

Definition dup_rpm_text : string :=
  "gpg-pubkey|0|fd431d51|4ae0493b|(none)" +++ NL
  +++ "gpg-pubkey|0|5a6340b3|6229229e|(none)" +++ NL.

Definition dup_pip_text : string :=
  "Foo==1.0" +++ NL +++ "foo==2.0" +++ NL.

Definition dup_col_text : string :=
  dq "{'ns.Coll':{'version':'1.0'}, 'ns.coll':{'version':'2.0'}}".

(** ** The report renderer: cells *)

Definition no_changes_marker : string := "<div class='empty'>No changes</div>".

(** The line [+added / ↑upgraded / ↓downgraded / −removed]. *)
Definition counts_line (d : diff_result) : string :=
  let '(added, removed, upgraded, downgraded) := d in
  "<div class='counts'>+" +++ str_of_Z (len added) +++ " / ↑"
  +++ str_of_Z (len upgraded) +++ " / ↓" +++ str_of_Z (len downgraded)
  +++ " / −" +++ str_of_Z (len removed) +++ "</div>".







(** ** The report renderer: escaping *)

(** What [html.escape] writes for one character. *)
Definition escape_char (c : ascii) : string :=
  if Ascii.eqb c "&"%char then "&amp;"
  else if Ascii.eqb c "<"%char then "&lt;"
  else if Ascii.eqb c ">"%char then "&gt;"
  else if Ascii.eqb c Mini.DQUOTE then "&quot;"
  else if Ascii.eqb c "'"%char then "&#x27;"
  else String c EmptyString.

Definition is_markup_char (c : ascii) : bool :=
  Ascii.eqb c "<"%char || Ascii.eqb c ">"%char || Ascii.eqb c Mini.DQUOTE
  || Ascii.eqb c "'"%char.

Definition starts_with (p s : string) : bool :=
  match PyStr.strip_prefix p s with
  | Some _ => true
  | None => false
  end.

(** A text that can stand between tags: it has none of [<], [>], the
    double quote and the single quote, and each of its ampersands opens
    one of the five character references that [html.escape] writes. *)
Fixpoint markup_free (s : string) : bool :=
  match s with
  | EmptyString => true
  | String c s' =>
      negb (is_markup_char c)
      && (if Ascii.eqb c "&"%char
          then starts_with "amp;" s' || starts_with "lt;" s'
               || starts_with "gt;" s' || starts_with "quot;" s'
               || starts_with "#x27;" s'
          else true)
      && markup_free s'
  end.

Definition li_raw (s : string) : string := "<li>" +++ s +++ "</li>".

Definition to_list_raw (title : string) (entries : list string) : string :=
  match entries with
  | [] => EmptyString
  | _ => "<h5>" +++ title +++ "</h5><ul>" +++ join (List.map li_raw entries)
         +++ "</ul>"
  end.

(** The markup of a cell around entries that are embedded as they are
    given. *)
Definition cell_markup (d : diff_result) (show_limit : Z) : string :=
  let '(added, removed, upgraded, downgraded) := d in
  let total := (len added + len removed + len upgraded + len downgraded)%Z in
  if (total =? 0)%Z then no_changes_marker
  else
    let sample :=
      py_slice_to added (show_limit / 2) ++ py_slice_to upgraded (show_limit / 2) in
    join
      ([counts_line d]
       ++ match sample with
          | [] => []
          | _ => ["<ul>" +++ join (List.map li_raw sample) +++ "</ul>"]
          end
       ++ (if (total - len sample >? 0)%Z
           then ["<details><summary>Show all (" +++ str_of_Z total
                 +++ ")</summary>"
                 +++ join [to_list_raw "Added" added;
                           to_list_raw "Upgraded" upgraded;
                           to_list_raw "Downgraded" downgraded;
                           to_list_raw "Removed" removed]
                 +++ "</details>"]
           else [])).

Definition escaped (d : diff_result) : diff_result :=
  let '(added, removed, upgraded, downgraded) := d in
  (List.map escape added, List.map escape removed,
   List.map escape upgraded, List.map escape downgraded).

(** The cells of the three rows, for snapshots in their order: nothing
    under the first snapshot, then the diff of each snapshot against the
    one before it. *)
Fixpoint cells_after (prev : snapshot) (rest : list snapshot) : cells :=
  match rest with
  | [] => ([], [], [])
  | e :: rest' =>
      let '(r, p, c) := cells_after e rest' in
      (cell_html (diff_rpms (snap_rpms prev) (snap_rpms e)) :: r,
       cell_html (diff_simple_pkgs (snap_pips prev) (snap_pips e)) :: p,
       cell_html (diff_simple_pkgs (snap_cols prev) (snap_cols e)) :: c)
  end.

Definition cells_of (entries : list snapshot) : cells :=
  match entries with
  | [] => ([], [], [])
  | e :: rest =>
      let '(r, p, c) := cells_after e rest in
      (EmptyString :: r, EmptyString :: p, EmptyString :: c)
  end.

Definition cells_app (x y : cells) : cells :=
  let '(r, p, c) := x in
  let '(r', p', c') := y in
  (r ++ r', p ++ p', c ++ c').

(** The markup of the report around tag headers that are embedded as
    they are given. *)
Definition report_markup (headers : list string) (cs : cells) : string :=
  let '(rpm_cells, pip_cells, col_cells) := cs in
  join
    ["<html><head><meta charset='utf-8'>"; css; "</head><body>";
     "<h1>EE Image Package Diffs</h1>";
     "<p>Columns are widened for readability (min width ~440px). Scroll horizontally to view all tags and vertically for full details.</p>";
     "<div class='table-wrap'>";
     "<table>";
     "<thead><tr><th class='rowlbl-hdr'>Type</th>"
     +++ join (List.map (fun h => "<th class='taghdr'>" +++ h +++ "</th>") headers)
     +++ "</tr></thead>";
     "<tbody>";
     "<tr><th class='rowlbl'>RPMs</th>"
     +++ join (List.map datacell rpm_cells) +++ "</tr>";
     "<tr><th class='rowlbl'>Python Packages</th>"
     +++ join (List.map datacell pip_cells) +++ "</tr>";
     "<tr><th class='rowlbl'>Ansible Collections</th>"
     +++ join (List.map datacell col_cells) +++ "</tr>";
     "</tbody></table></div>";
     "</body></html>"].

(** A cell of the report: nothing, or the cell of a diff. *)
Definition is_cell (c : string) : Prop :=
  c = EmptyString
  \/ exists d, c = cell_html d /\ c = cell_markup (escaped d) 30.

(** ** File names and image references *)

(** Every character of [s] satisfies [p]. *)
Fixpoint all_chars (p : ascii -> bool) (s : string) : bool :=
  match s with
  | EmptyString => true
  | String c s' => p c && all_chars p s'
  end.

(** A directory part of an image reference: empty, or ending in [/]. *)
Definition is_dir (dir : string) : Prop :=
  dir = EmptyString \/ exists p, dir = p +++ "/".

(** ** Captured sections and image references *)

(** [s] without the prefix [p], if it has it. *)
Definition strip_once (p s : string) : string :=
  match PyStr.strip_prefix p s with
  | Some r => r
  | None => s
  end.

(** The host the catalogue is asked about. *)
Definition pyxis_host (registry : string) : string :=
  if endswith "redhat.io" registry then "registry.access.redhat.com"
  else registry.

(** A list with every element at its first position only. *)
Fixpoint keep_first (l : list string) : list string :=
  match l with
  | [] => []
  | x :: l' => x :: List.filter (fun y => negb (String.eqb y x)) (keep_first l')
  end.

(** The elements of [l] that are not in [seen], each once. *)
Fixpoint dedupe_from (seen l : list string) : list string :=
  match l with
  | [] => []
  | x :: l' =>
      if List.existsb (String.eqb x) seen then dedupe_from seen l'
      else x :: dedupe_from (x :: seen) l'
  end.

(** The references the three options ask for. *)
Definition refs_of_images (args : cli_args) : list string :=
  match args_images args with
  | Some images => comma_items images
  | None => []
  end.

Definition asks_all_tags (args : cli_args) : bool :=
  match args_tags args with
  | Some tags => String.eqb (PyStr.lower (PyStr.strip tags)) "all"
  | None => false
  end.

Definition refs_of_tags (args : cli_args)
  (discover : string -> string -> exc (list string)) : list string :=
  List.map (fun t => args_repo args +++ ":" +++ t)
    (match args_tags args with
     | Some tags =>
         if asks_all_tags args then
           match discover (args_registry args) (args_repo args) with
           | Ok discovered => discovered
           | Raise _ => []
           end
         else comma_items tags
     | None => []
     end).

(** What a line of the tags file stands for: nothing when it is blank or
    a comment, itself when it has a [/], a [:] or an [@], a tag of the
    repository otherwise. *)
Definition file_entry (repo line : string) : list string :=
  let t := PyStr.strip line in
  if String.eqb t EmptyString then []
  else if startswith "#" t then []
  else if PyStr.contains "/" t || PyStr.contains ":" t || PyStr.contains "@" t
       then [t]
       else [repo +++ ":" +++ t].

Definition refs_of_file (args : cli_args) (read_text : string -> option string)
  : list string :=
  match args_tags_file args with
  | Some file =>
      if String.eqb file EmptyString then []
      else match read_text file with
           | Some text =>
               List.flat_map (file_entry (args_repo args)) (PyStr.splitlines text)
           | None => []
           end
  | None => []
  end.

(** The discovery gave no tag: it raised, or returned none. *)
Definition discovery_failed (args : cli_args)
  (discover : string -> string -> exc (list string)) : Prop :=
  discover (args_registry args) (args_repo args) = Ok []
  \/ exists e, discover (args_registry args) (args_repo args) = Raise e.

(** ** Interpreted packages *)

Definition is_obj (j : json) : bool :=
  match j with
  | JObj _ => true
  | _ => false
  end.

(** What an element of the JSON array contributes: a record when it has
    a name and a version that count as true, nothing otherwise. *)
Definition pip_record (o : json) : list (pkg json) :=
  match o with
  | JObj d =>
      let n := match PyDict.get "name" d with Some v => v | None => JNull end in
      let v := match PyDict.get "version" d with Some v => v | None => JNull end in
      if py_truthy n && py_truthy v then [mk_pkg n v] else []
  | _ => []
  end.

(** What a line contributes in the line-oriented mode: the stripped
    texts before and after its first [==]. *)
Definition pip_line_record (line : string) : list (pkg json) :=
  match PyStr.partition "==" (PyStr.strip line) with
  | Some (n, v) => [mk_pkg (JStr (PyStr.strip n)) (JStr (PyStr.strip v))]
  | None => []
  end.

Definition has_str_fields (p : pkg json) : Prop :=
  exists n v, p = mk_pkg (JStr n) (JStr v).

(** ** Documents as they are read back *)

(** All the values of a list of options, if none is missing. *)
Fixpoint all_some {A : Type} (l : list (option A)) : option (list A) :=
  match l with
  | [] => Some []
  | Some a :: l' =>
      match all_some l' with
      | Some r => Some (a :: r)
      | None => None
      end
  | None :: _ => None
  end.

Definition attrib_text (kv : string * json) : option (string * string) :=
  match snd kv with
  | JStr s => Some (fst kv, s)
  | _ => None
  end.

Definition text_text (x : option json) : option (option string) :=
  match x with
  | None => Some None
  | Some (JStr s) => Some (Some s)
  | Some _ => None
  end.

(** The tree of strings an element stands for, as the loader meets it:
    the same tags, attribute values and texts.  Only strings can be
    written out, so there is none when a value is not a string. *)
Fixpoint read_back (e : element json) : option (element string) :=
  match e with
  | Element tag attrib text children =>
      match all_some (List.map attrib_text attrib), text_text text,
            all_some (List.map read_back children) with
      | Some a, Some x, Some c => Some (Element tag a x c)
      | _, _, _ => None
      end
  end.

Definition json_text (j : json) : string :=
  match j with
  | JStr s => s
  | _ => EmptyString
  end.

Definition pkg_text (p : pkg json) : pkg string :=
  mk_pkg (json_text (pkg_name p)) (json_text (pkg_version p)).

(** ** The differ: equal contents, and nothing to compare with *)

(** The keys of a list, each at its first position. *)
Fixpoint first_occurrences {K : Type} `{EqKey K} (l : list K) : list K :=
  match l with
  | [] => []
  | x :: l' =>
      x :: List.filter (fun y => negb (key_eqb y x)) (first_occurrences l')
  end.

Definition no_diff : diff_result := ([], [], [], []).

(** Two collections show no change: they have the same identity keys,
    and the records kept for a key have the same effective version. *)
Definition same_content {K V : Type} {E : EqKey K} (S : DiffStyle K V)
  (a b : list V) : Prop :=
  (forall k, In k (List.map key a) <-> In k (List.map key b))
  /\ (forall k ov nv,
        PyDict.get k (index_by a key) = Some ov ->
        PyDict.get k (index_by b key) = Some nv -> ver ov = ver nv).

(** ** The report: timestamps of two kinds *)

Definition aware (d : datetime) : Prop := dt_utcoffset d <> None.

(** A naive and an aware timestamp are both among the snapshots. *)
Definition mixed (entries : list snapshot) : Prop :=
  exists a b, In a entries /\ In b entries
              /\ naive (snap_created a) /\ aware (snap_created b).

Definition entry_key_ltb (x y : entry_key) : bool :=
  match entry_key_lt x y with
  | Ok b => b
  | Raise _ => false
  end.

(** The same for snapshots that carry their sort key. *)
Definition keyed_mixed (l : list (entry_key * snapshot)) : Prop :=
  exists a b, In a l /\ In b l /\ naive (fst (fst a)) /\ aware (fst (fst b)).

(** ** The RPM parser: lines and records *)

(** What a line contributes: a record when it has five fields. *)
Definition rpm_line_record (line : string) : list rpm :=
  match List.map PyStr.strip (PyStr.split "|" (PyStr.strip line)) with
  | [name; epoch0; version; release; arch] =>
      [mk_rpm name
         (if str_truthy epoch0 && negb (String.eqb epoch0 "(none)")
          then epoch0 else "")
         version release arch]
  | _ => []
  end.

Definition rpm_fields (r : rpm) : list string :=
  [rpm_name r; rpm_epoch r; rpm_version r; rpm_release r; rpm_arch r].

(** A character of a field that the line format keeps apart: no white
    space and no [|]. *)
Definition rpm_field_char (c : ascii) : bool :=
  negb (PyStr.is_space c) && negb (Ascii.eqb c "|"%char).

Definition clean_rpm (r : rpm) : Prop :=
  Forall (fun f => all_chars rpm_field_char f = true) (rpm_fields r)
  /\ rpm_epoch r <> "(none)".

(** The line and the text that the query format
    [%{NAME}|%{EPOCHNUM}|%{VERSION}|%{RELEASE}|%{ARCH}\n] of the collector
    gives for records. *)
Definition rpm_line (r : rpm) : string :=
  rpm_name r +++ "|" +++ rpm_epoch r +++ "|" +++ rpm_version r +++ "|"
  +++ rpm_release r +++ "|" +++ rpm_arch r.

Definition rpm_text (rs : list rpm) : string :=
  join (List.map (fun r => rpm_line r +++ NL) rs).

(** ** The pipeline of [main] *)

(** [meta if isinstance(meta, dict) else {}] *)
Definition meta_dict (meta : json) : list (string * json) :=
  match meta with
  | JObj d => d
  | _ => []
  end.

(* ===================================================================== *)
(** * Facts about dictionaries *)
(* ===================================================================== *)

Section DictFacts.
Context {K V : Type} `{EqKey K}.
Implicit Types (d : PyDict.t (K := K) (V := V)) (k : K) (v : V).

Lemma key_eqb_refl k : key_eqb k k = true.
Proof. destruct (key_eqb_spec k k); congruence. Qed.

Lemma key_eqb_neq k k' : k <> k' -> key_eqb k k' = false.
Proof. intros Hn. destruct (key_eqb_spec k k'); congruence. Qed.

Lemma get_set_same k v d : PyDict.get k (PyDict.set k v d) = Some v.
Proof.
  induction d as [|[k' v'] d IH]; simpl.
  - now rewrite key_eqb_refl.
  - destruct (key_eqb_spec k k') as [->|Hn]; simpl.
    + now rewrite key_eqb_refl.
    + rewrite (key_eqb_neq Hn). exact IH.
Qed.

Lemma get_set_other k k' v d :
  k <> k' -> PyDict.get k' (PyDict.set k v d) = PyDict.get k' d.
Proof.
  intros Hn. induction d as [|[k0 v0] d IH]; simpl.
  - rewrite key_eqb_neq; auto.
  - destruct (key_eqb_spec k k0) as [->|Hk]; simpl.
    + rewrite key_eqb_neq; auto.
    + destruct (key_eqb k' k0); auto.
Qed.

Lemma get_set k k' v d :
  PyDict.get k' (PyDict.set k v d)
  = if key_eqb k' k then Some v else PyDict.get k' d.
Proof.
  destruct (key_eqb_spec k' k) as [->|Hn].
  - apply get_set_same.
  - apply get_set_other. congruence.
Qed.

Lemma get_none_iff k d : PyDict.get k d = None <-> ~ In k (PyDict.keys d).
Proof.
  induction d as [|[k' v'] d IH]; simpl.
  - tauto.
  - destruct (key_eqb_spec k k') as [->|Hn].
    + split; [discriminate | intros Hc; exfalso; apply Hc; now left].
    + rewrite IH. split.
      * intros Hc [He|Hi]; [congruence | tauto].
      * tauto.
Qed.

Lemma mem_iff k d : PyDict.mem k d = true <-> In k (PyDict.keys d).
Proof.
  unfold PyDict.mem. destruct (PyDict.get k d) eqn:E.
  - split; auto. intros _.
    destruct (in_dec key_eq_dec k (PyDict.keys d)) as [Hi|Hn]; auto.
    apply get_none_iff in Hn. congruence.
  - split; [discriminate|]. intros Hi. apply get_none_iff in E. tauto.
Qed.

Lemma mem_false_iff k d : PyDict.mem k d = false <-> ~ In k (PyDict.keys d).
Proof.
  rewrite <- mem_iff. destruct (PyDict.mem k d); split; congruence.
Qed.

Lemma keys_set k v d :
  PyDict.keys (PyDict.set k v d)
  = if PyDict.mem k d then PyDict.keys d else PyDict.keys d ++ [k].
Proof.
  unfold PyDict.mem. induction d as [|[k' v'] d IH]; simpl; auto.
  destruct (key_eqb_spec k k') as [->|Hn]; simpl; auto.
  rewrite IH. now destruct (PyDict.get k d).
Qed.

Lemma NoDup_keys_set k v d :
  NoDup (PyDict.keys d) -> NoDup (PyDict.keys (PyDict.set k v d)).
Proof.
  intros Hd. rewrite keys_set. destruct (PyDict.mem k d) eqn:E; auto.
  apply mem_false_iff in E.
  apply NoDup_rev in Hd. rewrite <- (rev_involutive (_ ++ _)).
  apply NoDup_rev. rewrite rev_app_distr. simpl. constructor; auto.
  now rewrite <- in_rev.
Qed.

Lemma In_keys_set k k' v d :
  In k' (PyDict.keys (PyDict.set k v d)) <-> k' = k \/ In k' (PyDict.keys d).
Proof.
  rewrite keys_set. destruct (PyDict.mem k d) eqn:E.
  - apply mem_iff in E. split; auto. intros [->|Hi]; auto.
  - rewrite in_app_iff. simpl. intuition.
Qed.

(** With unique keys, the items are the bindings. *)
Lemma In_items_get k v d :
  NoDup (PyDict.keys d) -> (In (k, v) d <-> PyDict.get k d = Some v).
Proof.
  induction d as [|[k' v'] d IH]; simpl; intros Hd.
  - split; [tauto | discriminate].
  - inversion Hd as [|? ? Hni Hd']; subst.
    destruct (key_eqb_spec k k') as [->|Hn].
    + split.
      * intros [He|Hi]; [congruence|].
        exfalso. apply Hni. change k' with (fst (k', v)). now apply in_map.
      * intros [= ->]. now left.
    + rewrite <- (IH Hd'). split.
      * intros [He|Hi]; [congruence | assumption].
      * now right.
Qed.

(** A fold of assignments over any list of bindings. *)
Lemma NoDup_keys_fold_set {A} (f : A -> K) (g : A -> V) (l : list A) d :
  NoDup (PyDict.keys d) ->
  NoDup (PyDict.keys (fold_left (fun m x => PyDict.set (f x) (g x) m) l d)).
Proof.
  revert d. induction l as [|x l IH]; simpl; intros d Hd; auto.
  apply IH. now apply NoDup_keys_set.
Qed.

Lemma In_keys_fold_set {A} (f : A -> K) (g : A -> V) (l : list A) d k :
  In k (PyDict.keys (fold_left (fun m x => PyDict.set (f x) (g x) m) l d))
  <-> In k (List.map f l) \/ In k (PyDict.keys d).
Proof.
  revert d. induction l as [|x l IH]; simpl; intros d.
  - tauto.
  - rewrite IH, In_keys_set. intuition.
Qed.

(** Overwriting [m] with the bindings of a dictionary [src]. *)
Lemma get_fold_set_items (src : PyDict.t (K := K) (V := V)) d k :
  NoDup (PyDict.keys src) ->
  PyDict.get k (fold_left (fun m nv => PyDict.set (fst nv) (snd nv) m) src d)
  = match PyDict.get k src with
    | Some v => Some v
    | None => PyDict.get k d
    end.
Proof.
  revert d. induction src as [|[k' v'] src IH]; simpl; intros d Hs; auto.
  inversion Hs as [|? ? Hni Hs']; subst.
  rewrite (IH _ Hs'). destruct (key_eqb_spec k k') as [->|Hn].
  - assert (E : PyDict.get k' src = None) by now apply get_none_iff.
    rewrite E. apply get_set_same.
  - destruct (PyDict.get k src); auto. apply get_set_other. congruence.
Qed.

End DictFacts.

Lemma NoDup_keys_index_by {A K : Type} `{EqKey K} (l : list A) (f : A -> K) :
  NoDup (PyDict.keys (index_by l f)).
Proof.
  unfold index_by.
  apply (NoDup_keys_fold_set f (fun x => x)). constructor.
Qed.

Lemma In_keys_index_by {A K : Type} `{EqKey K} (l : list A) (f : A -> K) k :
  In k (PyDict.keys (index_by l f)) <-> In k (List.map f l).
Proof.
  unfold index_by.
  rewrite (In_keys_fold_set f (fun x => x)). simpl. tauto.
Qed.

(* ===================================================================== *)
(** * Facts about the stable sort *)
(* ===================================================================== *)

Section SortFacts.
Context {K A : Type} (ltb : K -> K -> bool).
Hypothesis ltb_asym : forall a b, ltb a b = true -> ltb b a = false.
Implicit Types (x y : K * A) (l : list (K * A)).

Lemma insert_keyed_perm x l : Permutation (insert_keyed ltb x l) (x :: l).
Proof.
  induction l as [|y l IH]; simpl; auto.
  destruct (ltb (fst y) (fst x)); auto.
  rewrite IH. apply perm_swap.
Qed.

Lemma sort_keyed_perm l : Permutation (sort_keyed ltb l) l.
Proof.
  induction l as [|x l IH]; simpl; auto.
  rewrite insert_keyed_perm. now constructor.
Qed.

Lemma insert_keyed_hd x y l :
  key_le ltb y x -> HdRel (key_le ltb) y l -> HdRel (key_le ltb) y (insert_keyed ltb x l).
Proof.
  intros Hyx Hl. destruct l as [|z l]; simpl.
  - now constructor.
  - destruct (ltb (fst z) (fst x)); constructor; auto.
    now inversion Hl.
Qed.

Lemma insert_keyed_sorted x l :
  Sorted (key_le ltb) l -> Sorted (key_le ltb) (insert_keyed ltb x l).
Proof.
  induction 1 as [|y l Hs IH Hh]; simpl.
  - repeat constructor.
  - destruct (ltb (fst y) (fst x)) eqn:E.
    + constructor; auto. apply insert_keyed_hd; auto.
      unfold key_le. now apply ltb_asym.
    + constructor; [now constructor|]. now constructor.
Qed.

Lemma sort_keyed_sorted l : Sorted (key_le ltb) (sort_keyed ltb l).
Proof.
  induction l as [|x l IH]; simpl; [constructor|].
  now apply insert_keyed_sorted.
Qed.

Lemma sorted_by_perm (key : A -> K) (l : list A) :
  Permutation (sorted_by ltb key l) l.
Proof.
  unfold sorted_by. rewrite sort_keyed_perm, map_map. simpl.
  now rewrite map_id.
Qed.

(** The sort is stable: items none of which is below another keep
    their order. *)
Lemma insert_keyed_filter (q : K * A -> bool) x l :
  (forall y, In y l -> q y = true -> q x = true -> ltb (fst y) (fst x) = false) ->
  List.filter q (insert_keyed ltb x l) = List.filter q (x :: l).
Proof.
  induction l as [|y l IH]; intros Hq; [reflexivity|].
  cbn [insert_keyed]. destruct (ltb (fst y) (fst x)) eqn:E; [|reflexivity].
  cbn [List.filter]. rewrite IH by (intros z Hz; apply Hq; now right).
  cbn [List.filter]. destruct (q y) eqn:Ey; [|reflexivity].
  destruct (q x) eqn:Ex; [|reflexivity].
  rewrite (Hq y) in E by (auto; now left). discriminate.
Qed.

Lemma sort_keyed_stable (q : K * A -> bool) l :
  (forall x y, In x l -> In y l -> q x = true -> q y = true ->
               ltb (fst x) (fst y) = false) ->
  List.filter q (sort_keyed ltb l) = List.filter q l.
Proof.
  induction l as [|x l IH]; intros Hq; [reflexivity|].
  cbn [sort_keyed]. rewrite insert_keyed_filter.
  - cbn [List.filter]. rewrite IH; [reflexivity|].
    intros a b Ha Hb. apply Hq; now right.
  - intros y Hy Hqy Hqx. apply Hq; auto; [right | now left].
    exact (Permutation_in _ (sort_keyed_perm l) Hy).
Qed.

End SortFacts.

Lemma Sorted_map {A B : Type} (R : B -> B -> Prop) (f : A -> B) l :
  Sorted R (List.map f l) <-> Sorted (fun x y => R (f x) (f y)) l.
Proof.
  induction l as [|x l IH]; simpl.
  - split; constructor.
  - split; intros Hs; inversion Hs as [|? ? Hs' Hh]; subst;
      (constructor; [now apply IH|]);
      destruct l; simpl in *; constructor; now inversion Hh.
Qed.

Lemma decorated_fst {A K : Type} (ltb : K -> K -> bool) (key : A -> K) l :
  Forall (fun p => fst p = key (snd p))
         (sort_keyed ltb (List.map (fun x => (key x, x)) l)).
Proof.
  eapply Permutation_Forall.
  - symmetry. apply sort_keyed_perm.
  - rewrite Forall_map. apply Forall_forall. now intros.
Qed.

Lemma Sorted_weaken_in {A : Type} (R S : A -> A -> Prop) l :
  (forall x y, In x l -> In y l -> R x y -> S x y) -> Sorted R l -> Sorted S l.
Proof.
  induction l as [|x l IH]; intros Hrs Hs; [constructor|].
  inversion Hs as [|? ? Hs' Hh]; subst. constructor.
  - apply IH; auto. intros; apply Hrs; simpl; auto.
  - destruct l; constructor. inversion Hh; subst. apply Hrs; simpl; auto.
Qed.

Lemma sorted_by_sorted {A K : Type} (ltb : K -> K -> bool) (key : A -> K) l :
  (forall a b, ltb a b = true -> ltb b a = false) ->
  Sorted (le_on ltb key) (sorted_by ltb key l).
Proof.
  intros Hasym. unfold sorted_by. apply Sorted_map.
  pose proof (decorated_fst ltb key l) as Hf.
  rewrite Forall_forall in Hf.
  eapply Sorted_weaken_in; [|apply sort_keyed_sorted; exact Hasym].
  intros x y Hx Hy. unfold key_le, le_on.
  now rewrite (Hf _ Hx), (Hf _ Hy).
Qed.

Lemma string_ltb_asym (a b : string) : String.ltb a b = true -> String.ltb b a = false.
Proof.
  unfold String.ltb. rewrite (String.compare_antisym b a).
  destruct (String.compare a b); simpl; congruence.
Qed.

(* ===================================================================== *)
(** * The RPM parser *)
(* ===================================================================== *)

(** A line without five fields leaves the list as it is. *)
Lemma parse_rpm_line_skips (items : list rpm) (line : string) :
  List.length (PyStr.split "|" (PyStr.strip line)) <> 5 ->
  parse_rpm_line items line = items.
Proof.
  intros Hn. unfold parse_rpm_line.
  destruct (negb (str_truthy (PyStr.strip line))
            || negb (PyStr.contains "|" (PyStr.strip line))); auto.
  destruct (PyStr.split "|" (PyStr.strip line)) as [|a [|b [|c [|d [|e [|f l]]]]]];
    simpl in *; auto; congruence.
Qed.

(** C4, as the code has it: the scenario text yields exactly one record,
    the malformed line being skipped, and that record keeps the epoch
    [0]; it is the placeholder [(none)] that becomes the empty string. *)
Theorem rpm_scenario_parsed :
  parse_rpm_lines rpm_scenario_text
  = [mk_rpm "bash" "0" "5.1.8" "6.el9" "x86_64"]
  /\ parse_rpm_lines rpm_none_text
     = [mk_rpm "bash" EmptyString "5.1.8" "6.el9" "x86_64"].
Proof. split; vm_compute; reflexivity. Qed.

(** C4, as the specification states it, fails: the epoch of the record is
    not empty. *)
Lemma rpm_scenario_epoch_not_empty :
  parse_rpm_lines rpm_scenario_text
  <> [mk_rpm "bash" EmptyString "5.1.8" "6.el9" "x86_64"].
Proof. vm_compute. discriminate. Qed.

(* ===================================================================== *)
(** * Collection reconciliation *)
(* ===================================================================== *)

Section Reconciliation.
Context `{PyRuntime}.

Lemma colls_dict_step_nodup m kv :
  NoDup (PyDict.keys m) -> NoDup (PyDict.keys (colls_dict_step m kv)).
Proof.
  intros Hm. unfold colls_dict_step. destruct kv as [k v].
  destruct v; auto. destruct (PyDict.get "version" d); auto.
  destruct (PyStr.contains "." k); auto. now apply NoDup_keys_set.
Qed.

Lemma colls_list_step_nodup m e :
  NoDup (PyDict.keys m) -> NoDup (PyDict.keys (colls_list_step m e)).
Proof.
  intros Hm. unfold colls_list_step. destruct e; auto.
  destruct (PyDict.get "namespace" d); auto.
  destruct (PyDict.get "name" d); auto.
  destruct (PyDict.get "version" d); auto.
  now apply NoDup_keys_set.
Qed.

Lemma fold_left_invariant {S A : Type} (P : S -> Prop) (f : S -> A -> S) l s :
  (forall s x, P s -> P (f s x)) -> P s -> P (fold_left f l s).
Proof.
  intros Hf. revert s. induction l as [|x l IH]; simpl; auto.
Qed.

(** A normalised source is a dictionary: its names are unique. *)
Lemma colls_from_obj_nodup obj : NoDup (PyDict.keys (_colls_from_obj obj)).
Proof.
  unfold _colls_from_obj.
  match goal with |- context [match ?o with JObj _ => _ | _ => _ end] =>
    destruct o end; try constructor.
  - apply fold_left_invariant; [apply colls_list_step_nodup | constructor].
  - apply fold_left_invariant; [apply colls_dict_step_nodup | constructor].
Qed.

Lemma source_of_chunk_nodup text i :
  NoDup (PyDict.keys (source_of_chunk text i)).
Proof.
  unfold source_of_chunk.
  destruct (nth_error _ i); [apply colls_from_obj_nodup | constructor].
Qed.

(** The three maps of the function are the sources of the first three
    chunks, whatever the number of chunks. *)
Lemma collection_sources_chunks text :
  collection_sources text
  = (source_of_chunk text 0, source_of_chunk text 1, source_of_chunk text 2).
Proof.
  unfold collection_sources, source_of_chunk.
  destruct (PyStr.split COLL_SEP text) as [|a [|b [|c [|d l]]]];
    reflexivity.
Qed.

Lemma merged_get galaxy fs rpms name :
  NoDup (PyDict.keys galaxy) -> NoDup (PyDict.keys fs) ->
  NoDup (PyDict.keys rpms) ->
  PyDict.get name (merged_of galaxy fs rpms)
  = by_precedence galaxy fs rpms name.
Proof.
  intros Hg Hf Hr. unfold merged_of, by_precedence, merge_source. simpl.
  rewrite !get_fold_set_items by assumption. simpl.
  destruct (PyDict.get name galaxy); auto.
  destruct (PyDict.get name fs); auto.
  destruct (PyDict.get name rpms); auto.
Qed.

Lemma merged_nodup galaxy fs rpms :
  NoDup (PyDict.keys (merged_of galaxy fs rpms)).
Proof.
  unfold merged_of, merge_source. simpl.
  repeat apply (NoDup_keys_fold_set fst snd). constructor.
Qed.

Lemma parse_collections_merged_perm text :
  Permutation
    (parse_collections_merged text)
    (List.map (fun nv => mk_pkg (fst nv) (snd nv))
       (merged_of (source_of_chunk text 0) (source_of_chunk text 1)
          (source_of_chunk text 2))).
Proof.
  unfold parse_collections_merged. rewrite collection_sources_chunks.
  apply sorted_by_perm.
Qed.

Lemma parse_collections_merged_names_nodup text :
  NoDup (List.map (@pkg_name string) (parse_collections_merged text)).
Proof.
  eapply Permutation_NoDup.
  - symmetry. apply Permutation_map. apply parse_collections_merged_perm.
  - rewrite map_map. simpl. apply merged_nodup.
Qed.

End Reconciliation.

(** C1.  For any text, with the sources read from its first three chunks
    in the order galaxy, filesystem, rpm-derived (a missing chunk being
    an empty source, chunks after the third being ignored): a record
    [(name, version)] is in the merged result exactly when [version] is
    what the highest-precedence source defining [name] gives, so that no
    name absent from the three sources appears; every name appears once;
    the result is sorted on the lower-cased name.  The scenario of the
    specification yields [ansible.posix 1.5.0; community.general 7.0.0]. *)
Theorem collections_reconciled :
  (forall (R : PyRuntime) (text : string),
      let galaxy := source_of_chunk text 0 in
      let fs := source_of_chunk text 1 in
      let rpms := source_of_chunk text 2 in
      let result := parse_collections_merged text in
      (forall name version,
          In (mk_pkg name version) result
          <-> by_precedence galaxy fs rpms name = Some version)
      /\ NoDup (List.map (@pkg_name string) result)
      /\ Sorted (le_on String.ltb col_sort_key) result)
  /\ @parse_collections_merged Mini.runtime collection_scenario_text
     = [mk_pkg "ansible.posix" "1.5.0"; mk_pkg "community.general" "7.0.0"].
Proof.
  split; [|vm_compute; reflexivity].
  intros R text galaxy fs rpms result. repeat split.
  - intros Hin.
    apply (Permutation_in _ (parse_collections_merged_perm text)) in Hin.
    apply in_map_iff in Hin. destruct Hin as [[n v] [[= -> ->] Hin]].
    rewrite <- merged_get by apply source_of_chunk_nodup.
    apply In_items_get; [apply merged_nodup | exact Hin].
  - intros Hp.
    apply (Permutation_in _ (Permutation_sym (parse_collections_merged_perm text))).
    apply in_map_iff. exists (name, version). split; auto.
    apply In_items_get; [apply merged_nodup|].
    rewrite merged_get by apply source_of_chunk_nodup. exact Hp.
  - apply parse_collections_merged_names_nodup.
  - unfold result, parse_collections_merged.
    destruct (collection_sources text) as [[g f] r].
    apply sorted_by_sorted. exact string_ltb_asym.
Qed.

(* ===================================================================== *)
(** * The differ: classification of identity keys *)
(* ===================================================================== *)

Lemma change_eqb_eq a b : change_eqb a b = true <-> a = b.
Proof. destruct a, b; simpl; split; congruence. Qed.

Section DiffBy.
Context {K V : Type} {E : EqKey K} {S : DiffStyle K V}.

Lemma new_loop_lines (old new : PyDict.t (K := K) (V := V)) items a u d :
  Forall (fun kv => PyDict.get (fst kv) new = Some (snd kv)) items ->
  fold_left (new_step_by old) items (a, u, d)
  = (a ++ List.map (line_of Added old new)
            (List.filter (has_class old new Added) (List.map fst items)),
     u ++ List.map (line_of Upgraded old new)
            (List.filter (has_class old new Upgraded) (List.map fst items)),
     d ++ List.map (line_of Downgraded old new)
            (List.filter (has_class old new Downgraded) (List.map fst items))).
Proof.
  intros Hall. revert a u d.
  induction Hall as [|[k nv] items Hk _ IH]; intros a u d; simpl.
  - now rewrite !app_nil_r.
  - simpl in Hk. unfold has_class, classify, line_of. rewrite Hk.
    destruct (PyDict.get k old) as [ov|] eqn:Eo.
    + destruct (String.eqb (ver ov) (ver nv)) eqn:Ee; simpl.
      * apply IH.
      * destruct (String.ltb (ver ov) (ver nv)) eqn:El; simpl;
          rewrite IH; unfold has_class, classify, line_of; simpl;
          rewrite ?Eo, ?Hk; now rewrite <- app_assoc.
    + simpl. rewrite IH. unfold has_class, classify, line_of.
      simpl. rewrite ?Eo, ?Hk. now rewrite <- app_assoc.
Qed.

Lemma old_loop_lines (old new : PyDict.t (K := K) (V := V)) items r :
  Forall (fun kv => PyDict.get (fst kv) old = Some (snd kv)) items ->
  fold_left (old_step_by new) items r
  = r ++ List.map (line_of Removed old new)
           (List.filter (has_class old new Removed) (List.map fst items)).
Proof.
  intros Hall. revert r.
  induction Hall as [|[k ov] items Hk _ IH]; intros r; simpl.
  - now rewrite app_nil_r.
  - simpl in Hk. unfold has_class, classify, line_of, PyDict.mem.
    rewrite Hk. destruct (PyDict.get k new) as [nv|] eqn:En; simpl.
    + destruct (String.eqb (ver ov) (ver nv)); simpl; [apply IH|].
      destruct (String.ltb (ver ov) (ver nv)); simpl; apply IH.
    + rewrite IH. unfold has_class, classify, line_of. simpl.
      rewrite ?Hk, ?En. now rewrite <- app_assoc.
Qed.

Lemma items_bound (d : PyDict.t (K := K) (V := V)) :
  NoDup (PyDict.keys d) ->
  Forall (fun kv => PyDict.get (fst kv) d = Some (snd kv)) d.
Proof.
  intros Hd. apply Forall_forall. intros [k v] Hin. simpl.
  now apply In_items_get.
Qed.

(** The differ writes, class by class, the entries of the keys of the
    class. *)
Lemma diff_by_lines old_list new_list :
  let old := index_by old_list key in
  let new := index_by new_list key in
  diff_by old_list new_list
  = (lines_of Added old new, lines_of Removed old new,
     lines_of Upgraded old new, lines_of Downgraded old new).
Proof.
  intros old new. unfold diff_by. fold old new.
  rewrite (@new_loop_lines old new new)
    by (apply items_bound, NoDup_keys_index_by).
  rewrite (@old_loop_lines old new old)
    by (apply items_bound, NoDup_keys_index_by).
  reflexivity.
Qed.

(** ** What the classes hold *)


Lemma In_keys_of c (old new : PyDict.t (K := K) (V := V)) k :
  In k (keys_of c old new) <-> classify old new k = Some c.
Proof.
  assert (Hc : has_class old new c k = true <-> classify old new k = Some c).
  { unfold has_class. destruct (classify old new k) as [c'|].
    - rewrite change_eqb_eq. split; congruence.
    - split; discriminate. }
  assert (Hnew : classify old new k = Some c -> c <> Removed ->
                 In k (PyDict.keys new)).
  { unfold classify. intros Hk Hr.
    destruct (PyDict.get k new) eqn:En.
    - apply mem_iff. unfold PyDict.mem. now rewrite En.
    - destruct (PyDict.get k old); congruence. }
  assert (Hold : classify old new k = Some Removed -> In k (PyDict.keys old)).
  { unfold classify. intros Hk.
    destruct (PyDict.get k old) eqn:Eo.
    - apply mem_iff. unfold PyDict.mem. now rewrite Eo.
    - destruct (PyDict.get k new); congruence. }
  unfold keys_of.
  destruct c; rewrite filter_In, Hc; split; try tauto; intros Hk; split;
    auto; apply Hnew; auto; discriminate.
Qed.

Lemma NoDup_keys_of c (old new : PyDict.t (K := K) (V := V)) :
  NoDup (PyDict.keys old) -> NoDup (PyDict.keys new) ->
  NoDup (keys_of c old new).
Proof.
  intros Ho Hn. unfold keys_of. destruct c; now apply NoDup_filter.
Qed.

Lemma keys_of_disjoint c c' (old new : PyDict.t (K := K) (V := V)) k :
  c <> c' -> In k (keys_of c old new) -> ~ In k (keys_of c' old new).
Proof.
  rewrite !In_keys_of. congruence.
Qed.





End DiffBy.

Section IndexBy.
Context {K V : Type} `{EqKey K} (key : V -> K).



Lemma fold_index_get_other (l : list V) (d : PyDict.t (K := K) (V := V)) k :
  ~ In k (List.map key l) ->
  PyDict.get k (fold_left (fun d it => PyDict.set (key it) it d) l d)
  = PyDict.get k d.
Proof.
  revert d. induction l as [|x l IH]; simpl; intros d Hn; auto.
  rewrite IH by tauto. apply get_set_other. intros He. apply Hn. now left.
Qed.

(** With unique identity keys, every record is the binding of its key. *)
Lemma index_by_get_unique (l : list V) v :
  NoDup (List.map key l) -> In v l ->
  PyDict.get (key v) (index_by l key) = Some v.
Proof.
  unfold index_by. generalize (@nil (K * V)).
  induction l as [|x l IH]; simpl; intros d Hd Hin; [tauto|].
  inversion Hd as [|? ? Hni Hd']; subst. destruct Hin as [->|Hin].
  - rewrite fold_index_get_other by assumption. apply get_set_same.
  - now apply IH.
Qed.

End IndexBy.

Lemma string_ltb_flip (a b : string) :
  a <> b -> String.ltb b a = negb (String.ltb a b).
Proof.
  intros Hn. unfold String.ltb. rewrite (String.compare_antisym b a).
  destruct (String.compare a b) eqn:E; simpl; auto.
  apply String.compare_eq_iff in E. congruence.
Qed.

Section DiffSwap.
Context {K V : Type} {E : EqKey K} {S : DiffStyle K V}.
Implicit Types a b : PyDict.t (K := K) (V := V).

Lemma classify_swap a b k :
  classify b a k = option_map swap_change (classify a b k).
Proof.
  unfold classify.
  destruct (PyDict.get k a) as [x|], (PyDict.get k b) as [y|]; simpl; auto.
  rewrite (String.eqb_sym (ver y) (ver x)).
  destruct (String.eqb_spec (ver x) (ver y)) as [He|Hn]; simpl; auto.
  rewrite (string_ltb_flip Hn).
  destruct (String.ltb (ver x) (ver y)); reflexivity.
Qed.

Lemma classify_swap_iff a b k c :
  classify b a k = Some c <-> classify a b k = Some (swap_change c).
Proof.
  rewrite classify_swap.
  destruct (classify a b k) as [c'|]; simpl.
  - destruct c, c'; simpl; split; congruence.
  - split; discriminate.
Qed.

Lemma has_class_swap a b c k :
  has_class b a c k = has_class a b (swap_change c) k.
Proof.
  unfold has_class. rewrite classify_swap.
  destruct (classify a b k) as [c'|]; simpl; auto.
  destruct c, c'; reflexivity.
Qed.

Lemma keys_of_swap_added a b : keys_of Added b a = keys_of Removed a b.
Proof.
  unfold keys_of. apply filter_ext. intros k. apply has_class_swap.
Qed.

Lemma keys_of_swap_removed a b : keys_of Removed b a = keys_of Added a b.
Proof.
  unfold keys_of. apply filter_ext. intros k. apply has_class_swap.
Qed.

Lemma keys_of_swap_perm a b c :
  NoDup (PyDict.keys a) -> NoDup (PyDict.keys b) ->
  Permutation (keys_of c b a) (keys_of (swap_change c) a b).
Proof.
  intros Ha Hb. apply NoDup_Permutation; try now apply NoDup_keys_of.
  intros k. rewrite !In_keys_of. apply classify_swap_iff.
Qed.

End DiffSwap.

(** ** The two differs of the script *)

Lemma diff_rpms_by old_list new_list :
  diff_rpms old_list new_list = diff_by (S := rpm_style) old_list new_list.
Proof. reflexivity. Qed.

Lemma diff_simple_pkgs_by old_list new_list :
  diff_simple_pkgs old_list new_list
  = diff_by (S := pkg_style) old_list new_list.
Proof. reflexivity. Qed.

Section Partition.
Context {K V : Type} {E : EqKey K} {S : DiffStyle K V}.



End Partition.


Lemma diff_by_mirrors {K V : Type} {E : EqKey K} (S : DiffStyle K V)
  (A B : list V) :
  mirrors S A B (diff_by A B) (diff_by B A).
Proof.
  unfold mirrors.
  assert (Ha : NoDup (PyDict.keys (index_by A key))) by apply NoDup_keys_index_by.
  assert (Hb : NoDup (PyDict.keys (index_by B key))) by apply NoDup_keys_index_by.
  split; [apply diff_by_lines|]. split; [apply diff_by_lines|].
  split; [intros c; unfold lines_of; now rewrite !length_map|].
  split; [apply keys_of_swap_added|]. split; [apply keys_of_swap_removed|].
  split; [apply (keys_of_swap_perm _ _ Upgraded); assumption|].
  split; [apply (keys_of_swap_perm _ _ Downgraded); assumption|].
  intros x y. apply string_ltb_flip.
Qed.

(** C3.  Diffing [(A, B)] and then [(B, A)] swaps added with removed and
    upgraded with downgraded: the same identity keys, with the reversed
    classification.  The comparison of unequal version strings is
    anti-symmetric. *)
Theorem diff_symmetry :
  (forall A B : list rpm,
      mirrors rpm_style A B (diff_rpms A B) (diff_rpms B A))
  /\ (forall A B : list (pkg string),
      mirrors pkg_style A B (diff_simple_pkgs A B) (diff_simple_pkgs B A)).
Proof.
  split; intros A B.
  - rewrite !diff_rpms_by. apply diff_by_mirrors.
  - rewrite !diff_simple_pkgs_by. apply diff_by_mirrors.
Qed.

(* ===================================================================== *)
(** * Tag derivation *)
(* ===================================================================== *)

(** ** Cutting a string at a character *)

Lemma strip_prefix_length p s r :
  PyStr.strip_prefix p s = Some r ->
  String.length s = String.length p + String.length r.
Proof.
  revert s. induction p as [|a p IH]; simpl; intros s Hs.
  - now injection Hs as ->.
  - destruct s as [|b s]; [discriminate|].
    destruct (Ascii.eqb a b); [|discriminate].
    simpl. now rewrite (IH _ Hs).
Qed.

Lemma partition_length sep s b a :
  PyStr.partition sep s = Some (b, a) ->
  String.length s = String.length b + String.length sep + String.length a.
Proof.
  revert b a. induction s as [|c s IH]; intros b a Hp.
  - simpl in Hp. destruct (PyStr.strip_prefix sep EmptyString) eqn:E;
      [|discriminate].
    injection Hp as <- <-. now apply strip_prefix_length in E.
  - simpl in Hp. destruct (PyStr.strip_prefix sep (String c s)) eqn:E.
    + injection Hp as <- <-. now apply strip_prefix_length in E.
    + destruct (PyStr.partition sep s) as [[b0 a0]|] eqn:Ep; [|discriminate].
      injection Hp as <- <-. simpl. rewrite (IH _ _ eq_refl). lia.
Qed.

Section CutAtChar.
Variable c : ascii.
Let sep : string := String c EmptyString.

Lemma partition_char_cons d s :
  PyStr.partition sep (String d s)
  = if Ascii.eqb c d then Some (EmptyString, s)
    else match PyStr.partition sep s with
         | Some (b, a) => Some (String d b, a)
         | None => None
         end.
Proof. unfold sep. simpl. destruct (Ascii.eqb c d); reflexivity. Qed.

Lemma rpartition_char_cons d s :
  PyStr.rpartition sep (String d s)
  = match PyStr.rpartition sep s with
    | Some (b, a) => Some (String d b, a)
    | None => if Ascii.eqb c d then Some (EmptyString, s) else None
    end.
Proof.
  unfold sep. simpl. destruct (PyStr.rpartition _ s) as [[b a]|]; auto.
  destruct (Ascii.eqb c d); reflexivity.
Qed.

Lemma partition_char_nil : PyStr.partition sep EmptyString = None.
Proof. reflexivity. Qed.

Lemma rpartition_char_nil : PyStr.rpartition sep EmptyString = None.
Proof. reflexivity. Qed.

(** There is a first occurrence exactly when there is a last one. *)
Lemma partition_none_rpartition s :
  PyStr.partition sep s = None <-> PyStr.rpartition sep s = None.
Proof.
  induction s as [|d s IH]; [split; reflexivity|].
  rewrite partition_char_cons, rpartition_char_cons.
  destruct (Ascii.eqb c d).
  - split; [discriminate|].
    destruct (PyStr.rpartition sep s) as [[b a]|]; discriminate.
  - destruct (PyStr.partition sep s) as [[b a]|],
             (PyStr.rpartition sep s) as [[b' a']|];
      split; try discriminate; auto; intros _.
    + destruct IH as [_ IH]. specialize (IH eq_refl). discriminate.
    + destruct IH as [IH _]. specialize (IH eq_refl). discriminate.
Qed.

Lemma after_last_partition s b a :
  PyStr.partition sep s = Some (b, a) ->
  after_last sep s = after_last sep a.
Proof.
  revert b. induction s as [|d s IH]; intros b Hp; [discriminate|].
  rewrite partition_char_cons in Hp. unfold after_last.
  rewrite rpartition_char_cons. destruct (Ascii.eqb c d).
  - injection Hp as <- <-.
    now destruct (PyStr.rpartition sep s) as [[b' a']|].
  - destruct (PyStr.partition sep s) as [[b0 a0]|] eqn:Ep; [|discriminate].
    injection Hp as <- <-. specialize (IH _ eq_refl). unfold after_last in IH.
    destruct (PyStr.rpartition sep s) as [[b' a']|] eqn:Er; auto.
    apply partition_none_rpartition in Er. congruence.
Qed.

Lemma after_last_none s :
  PyStr.partition sep s = None -> after_last sep s = s.
Proof.
  intros Hp. apply partition_none_rpartition in Hp. unfold after_last.
  now rewrite Hp.
Qed.

Lemma split_fuel_nonempty n s : PyStr.split_fuel n sep s <> [].
Proof.
  destruct n; simpl; [discriminate|].
  destruct (PyStr.partition sep s) as [[b a]|]; discriminate.
Qed.

(** The last field of [s.split(sep)] is the text after the last
    occurrence. *)
Lemma split_fuel_last n s d :
  String.length s <= n ->
  List.last (PyStr.split_fuel n sep s) d = after_last sep s.
Proof.
  revert s. induction n as [|n IH]; intros s Hl.
  - destruct s; [reflexivity | simpl in Hl; lia].
  - simpl. destruct (PyStr.partition sep s) as [[b a]|] eqn:Ep.
    + pose proof (partition_length _ _ Ep) as Hlen. simpl in Hlen.
      rewrite (after_last_partition _ Ep), <- (IH a) by lia.
      pose proof (split_fuel_nonempty n a).
      destruct (PyStr.split_fuel n sep a); [congruence | reflexivity].
    + simpl. symmetry. now apply after_last_none.
Qed.

(** The second field of [s.split(sep)], when [s] has an occurrence of
    [sep]: the text from the first occurrence to the next. *)
Lemma split_second s b a :
  PyStr.partition sep s = Some (b, a) ->
  exists l,
    PyStr.split sep s
    = b :: match PyStr.partition sep a with
           | Some (t, _) => t
           | None => a
           end :: l.
Proof.
  intros Ep. unfold PyStr.split.
  pose proof (partition_length _ _ Ep) as Hlen. simpl in Hlen.
  destruct (String.length s) as [|n] eqn:En; [lia|].
  simpl. rewrite Ep. destruct n as [|n].
  - assert (a = EmptyString) as -> by (destruct a; simpl in *; [auto | lia]).
    now exists [].
  - simpl. destruct (PyStr.partition sep a) as [[t r]|]; eauto.
Qed.

End CutAtChar.

Lemma nth_error_last {A : Type} (l : list A) (d : A) :
  l <> [] -> nth_error l (List.length l - 1) = Some (List.last l d).
Proof.
  induction l as [|x l IH]; [congruence|]. intros _.
  destruct l as [|y l]; [reflexivity|].
  specialize (IH ltac:(discriminate)).
  change (List.last (x :: y :: l) d) with (List.last (y :: l) d).
  rewrite <- IH. simpl. now rewrite Nat.sub_0_r.
Qed.

Lemma py_index_last {A : Type} (l : list A) (d : A) :
  l <> [] -> py_index l (-1) = Ok (List.last l d).
Proof.
  intros Hl. unfold py_index. cbn [Z.ltb Z.compare].
  assert (Hn : (0 < List.length l)%nat)
    by (destruct l; simpl; [congruence | lia]).
  destruct (-1 + Z.of_nat (List.length l) <? 0)%Z eqn:E; [lia|].
  replace (Z.to_nat (-1 + Z.of_nat (List.length l)))
    with (List.length l - 1)%nat by lia.
  now rewrite (nth_error_last d Hl).
Qed.

(** ** The rules of the derivation *)

Lemma rsplit1_last ref :
  py_index (PyStr.rsplit1 "/" ref) (-1) = Ok (last_segment ref).
Proof.
  unfold PyStr.rsplit1, last_segment, after_last.
  destruct (PyStr.rpartition "/" ref) as [[b a]|]; reflexivity.
Qed.

Lemma tag_from_reference_field ref :
  tag_from_reference ref = Ok (second_field (last_segment ref)).
Proof.
  unfold tag_from_reference. rewrite rsplit1_last. simpl.
  unfold PyStr.contains, second_field.
  destruct (PyStr.partition ":" (last_segment ref)) as [[b a]|] eqn:Ep; auto.
  destruct (split_second ":" _ Ep) as [l ->]. reflexivity.
Qed.

Lemma tag_from_repo_tags_suffix ts tag :
  tag_from_repo_tags ts tag
  = Ok (match repo_tag_suffix
                (List.map
                   (fun t => PyStr.strip (match el_text t with
                                          | Some x => x
                                          | None => EmptyString
                                          end)) ts) with
        | Some t => Some t
        | None => tag
        end).
Proof.
  unfold repo_tag_suffix. induction ts as [|t ts IH]; simpl; auto.
  assert (Ht : (match el_text t with
                | Some x => if str_truthy x then x else EmptyString
                | None => EmptyString
                end)
               = match el_text t with Some x => x | None => EmptyString end).
  { destruct (el_text t) as [x|]; auto. unfold str_truthy.
    destruct (String.eqb_spec x EmptyString); simpl; congruence. }
  rewrite Ht. clear Ht.
  destruct (PyStr.contains ":" _) eqn:Ec.
  - rewrite (@py_index_last _ _ EmptyString) by apply split_fuel_nonempty.
    unfold PyStr.split. now rewrite split_fuel_last.
  - exact IH.
Qed.

(** The derivation of the tag never raises, and gives what the rules
    give. *)
Lemma derive_tag_total (path : string) (root : element string) :
  derive_tag path root = Ok (derived_tag path root).
Proof.
  unfold derive_tag, derived_tag, repo_tag_texts.
  rewrite tag_from_reference_field. simpl.
  set (t1 := second_field _).
  set (ts := findall2 "repoTags" "tag" root).
  destruct t1 as [x|]; unfold no_tag; simpl.
  - destruct (str_truthy x) eqn:Ex; settle_truthy; [reflexivity|].
    rewrite tag_from_repo_tags_suffix; settle_truthy.
    destruct (repo_tag_suffix _) as [y|]; settle_truthy.
    + destruct (str_truthy y) eqn:Ey; settle_truthy; [reflexivity|].
      destruct (search_tag path) as [z|]; settle_truthy; reflexivity.
    + destruct (search_tag path) as [z|]; settle_truthy; reflexivity.
  - rewrite tag_from_repo_tags_suffix; settle_truthy.
    destruct (repo_tag_suffix _) as [y|]; settle_truthy.
    + destruct (str_truthy y) eqn:Ey; settle_truthy; [reflexivity|].
      destruct (search_tag path) as [z|]; settle_truthy; reflexivity.
    + destruct (search_tag path) as [z|]; reflexivity.
Qed.

Lemma partition_first (c : ascii) (a b : string) :
  PyStr.partition (String c EmptyString) a = None ->
  PyStr.partition (String c EmptyString) (a +++ String c b) = Some (a, b).
Proof.
  induction a as [|d a IH]; intros Ha.
  - simpl. now rewrite Ascii.eqb_refl.
  - rewrite partition_char_cons in Ha.
    change ((String d a) +++ String c b) with (String d (a +++ String c b)).
    rewrite partition_char_cons.
    destruct (Ascii.eqb c d); [discriminate|].
    destruct (PyStr.partition (String c EmptyString) a) as [[x y]|];
      [discriminate|].
    now rewrite IH.
Qed.

Lemma contains_false (sub s : string) :
  PyStr.contains sub s = false <-> PyStr.partition sub s = None.
Proof.
  unfold PyStr.contains. destruct (PyStr.partition sub s); split; congruence.
Qed.

(** A segment with one colon: its second field is the text after its
    last colon. *)
Lemma one_colon_fields (a b : string) :
  PyStr.contains ":" a = false -> PyStr.contains ":" b = false ->
  second_field (a +++ ":" +++ b) = Some b
  /\ last_field (a +++ ":" +++ b) = Some b.
Proof.
  intros Ha Hb. apply contains_false in Ha. apply contains_false in Hb.
  pose proof (partition_first ":" a b Ha) as Hp.
  change (String ":" EmptyString) with ":" in Hp.
  change (String ":" b) with (":" +++ b) in Hp.
  unfold second_field, last_field, PyStr.contains. rewrite Hp, Hb.
  split; [reflexivity|].
  rewrite (after_last_partition ":" _ Hp).
  now rewrite (after_last_none ":" b Hb).
Qed.

Lemma strip_prefix_sound (p s r : string) :
  PyStr.strip_prefix p s = Some r -> s = p +++ r.
Proof.
  revert s. induction p as [|a p IH]; simpl; intros s Hs.
  - congruence.
  - destruct s as [|b s]; [discriminate|].
    destruct (Ascii.eqb_spec a b) as [->|]; [|discriminate].
    now rewrite (IH _ Hs).
Qed.

Lemma span_tag_sound (s g r : string) :
  span_tag s = (g, r) ->
  s = g +++ r /\ PyStr.contains "." g = false /\ PyStr.contains "/" g = false.
Proof.
  revert g r. induction s as [|c s IH]; simpl; intros g r Hs.
  - injection Hs as <- <-. repeat split.
  - destruct (Ascii.eqb c "."%char || Ascii.eqb c "/"%char) eqn:Ec.
    + injection Hs as <- <-. repeat split.
    + destruct (span_tag s) as [g' r'] eqn:Es. injection Hs as <- <-.
      destruct (IH _ _ eq_refl) as (-> & Hd & Hsl).
      apply orb_false_iff in Ec. destruct Ec as [Ed Esl].
      rewrite Ascii.eqb_sym in Ed. rewrite Ascii.eqb_sym in Esl.
      apply contains_false in Hd. apply contains_false in Hsl.
      repeat split; apply contains_false.
      * change "." with (String "."%char EmptyString) in *.
        rewrite partition_char_cons, Ed. now rewrite Hd.
      * change "/" with (String "/"%char EmptyString) in *.
        rewrite partition_char_cons, Esl. now rewrite Hsl.
Qed.

Lemma match_tag_here_sound (s g : string) :
  match_tag_here s = Some g -> tag_pattern s g.
Proof.
  unfold match_tag_here. intros Hm.
  destruct (PyStr.strip_prefix "__" s) as [r|] eqn:Ep; [|discriminate].
  destruct (span_tag r) as [g' r'] eqn:Es.
  destruct (str_truthy g') eqn:Eg; [|discriminate].
  destruct (PyStr.strip_prefix ".xml" r') as [e|] eqn:Ex; [|discriminate].
  destruct (String.eqb e EmptyString || String.eqb e NL) eqn:Ee;
    [|discriminate].
  injection Hm as <-.
  apply strip_prefix_sound in Ep. apply strip_prefix_sound in Ex.
  destruct (span_tag_sound _ Es) as (Hr & Hd & Hsl).
  exists EmptyString, e. subst s r r'. repeat split; auto.
  apply orb_true_iff in Ee.
  destruct Ee as [Ee|Ee]; apply String.eqb_eq in Ee; auto.
Qed.

Lemma search_tag_sound (path g : string) :
  search_tag path = Some g -> tag_pattern path g.
Proof.
  induction path as [|c path IH]; [discriminate|].
  cbn [search_tag].
  - destruct (match_tag_here (String c path)) as [x|] eqn:Em.
    + intros [= <-]. now apply match_tag_here_sound.
    + intros Hs. destruct (IH Hs) as (prefix & e & -> & He).
      exists (String c prefix), e. split; [reflexivity | exact He].
Qed.

(** C5, as the code has it: the derivation of the tag never raises, and
    gives the first non-empty string among (1) the second colon-separated
    field of the last [/]-separated segment of the reference, for a
    segment with a colon; (2) the suffix after the last colon of the
    first [repoTags] entry with a colon; (3) the group of the file-name
    pattern; falling back on (4) the stem of the file name.  For a
    segment with a single colon, rule (1) gives the text after that
    colon. *)
Theorem tag_derivation (path : string) (root : element string) :
  derive_tag path root = Ok (derived_tag path root)
  /\ (forall a b,
         PyStr.contains ":" a = false -> PyStr.contains ":" b = false ->
         second_field (a +++ ":" +++ b) = Some b
         /\ last_field (a +++ ":" +++ b) = Some b)
  /\ (forall g, search_tag path = Some g -> tag_pattern path g).
Proof.
  split; [apply derive_tag_total|].
  split; [apply one_colon_fields | apply search_tag_sound].
Qed.

(** C5, as the specification states it, fails: for a reference whose last
    segment has two colons the loader takes the text between them, not
    the text after the last. *)
Lemma tag_not_after_last_colon :
  derive_tag "xml-out/ee__x.xml" digest_reference_doc
  = Ok "1.0@sha256"
  /\ claimed_tag "xml-out/ee__x.xml" digest_reference_doc = "abc"
  /\ derive_tag "xml-out/ee__x.xml" digest_reference_doc
     <> Ok (claimed_tag "xml-out/ee__x.xml" digest_reference_doc).
Proof. vm_compute. repeat split; discriminate. Qed.

(* ===================================================================== *)
(** * Timestamp derivation and the snapshot ordering *)
(* ===================================================================== *)

Lemma split_head sep s :
  py_index (PyStr.split sep s) 0 = Ok (before_first sep s).
Proof.
  unfold PyStr.split, before_first.
  destruct (String.length s) as [|n] eqn:En.
  - destruct s; [|discriminate]. simpl.
    destruct (PyStr.strip_prefix sep EmptyString); reflexivity.
  - simpl. destruct (PyStr.partition sep s) as [[b a]|]; reflexivity.
Qed.

Section Timestamps.
Context `{PyRuntime}.

(** The derivation of the timestamp never raises. *)
Lemma derive_created_total (root : element string) :
  derive_created root = Ok (created_of root).
Proof.
  unfold derive_created, derive_created_dt, created_of, created_trim.
  destruct (str_truthy (attr (el_attrib root) "created")); [|reflexivity].
  rewrite split_head. simpl. rewrite split_head. simpl.
  destruct (fromisoformat _); reflexivity.
Qed.

Lemma created_of_absent (root : element string) :
  PyDict.get "created" (el_attrib root) = None ->
  created_of root = datetime_min.
Proof. unfold created_of, attr. now intros ->. Qed.

Lemma created_of_unreadable (root : element string) :
  fromisoformat (created_trim (attr (el_attrib root) "created")) = None ->
  created_of root = datetime_min.
Proof.
  unfold created_of. intros ->. now destruct (str_truthy _).
Qed.

(** The loader as a whole never raises. *)
Lemma parse_image_xml_total (path : string) (root : element string) :
  exists s, parse_image_xml path root = Ok s
            /\ snap_tag s = derived_tag path root
            /\ snap_created s = created_of root.
Proof.
  unfold parse_image_xml.
  rewrite derive_tag_total, derive_created_total. simpl. eauto.
Qed.

End Timestamps.

(** ** Ordering snapshots whose timestamps are all naive *)

Lemma string_ltb_irrefl (s : string) : String.ltb s s = false.
Proof.
  destruct (String.ltb s s) eqn:E; auto.
  pose proof (string_ltb_asym _ _ E). congruence.
Qed.

Lemma entry_key_lt_naive (x y : entry_key) :
  naive (fst x) -> naive (fst y) -> entry_key_lt x y = Ok (naive_key_ltb x y).
Proof.
  unfold naive, entry_key_lt, naive_key_ltb, dt_eqb, dt_lt.
  intros -> ->. destruct (dt_clock (fst x) =? dt_clock (fst y))%N; auto.
  destruct (String.eqb_spec (snd x) (snd y)) as [->|]; auto.
  now rewrite string_ltb_irrefl.
Qed.

Lemma naive_key_ltb_asym (x y : entry_key) :
  naive_key_ltb x y = true -> naive_key_ltb y x = false.
Proof.
  unfold naive_key_ltb. rewrite (N.eqb_sym (dt_clock (fst y))).
  destruct (N.eqb_spec (dt_clock (fst x)) (dt_clock (fst y))).
  - apply string_ltb_asym.
  - rewrite !N.ltb_lt, N.ltb_ge. lia.
Qed.

Section SortExcFacts.
Context {K A : Type} (lt : K -> K -> exc bool) (ltb : K -> K -> bool).
Variable P : K -> Prop.
Hypothesis lt_pure : forall a b, P a -> P b -> lt a b = Ok (ltb a b).

Lemma insert_keyed_exc_pure (x : K * A) (l : list (K * A)) :
  P (fst x) -> Forall (fun y => P (fst y)) l ->
  insert_keyed_exc lt x l = Ok (insert_keyed ltb x l).
Proof.
  intros Hx Hl. induction Hl as [|y l Hy Hl IH]; simpl; auto.
  rewrite (lt_pure Hy Hx). simpl.
  destruct (ltb (fst y) (fst x)); auto. now rewrite IH.
Qed.

(** Where [<] raises on no pair of keys, the sort is the stable sort. *)
Lemma sort_keyed_exc_pure (l : list (K * A)) :
  Forall (fun y => P (fst y)) l ->
  sort_keyed_exc lt l = Ok (sort_keyed ltb l).
Proof.
  induction 1 as [|x l Hx Hl IH]; simpl; auto.
  rewrite IH. simpl. apply insert_keyed_exc_pure; auto.
  eapply Permutation_Forall; [|exact Hl].
  symmetry. apply sort_keyed_perm.
Qed.

End SortExcFacts.

(** With naive timestamps only, the snapshots are ordered without
    failure: the result is the input rearranged, sorted on
    [(created, tag)], and a snapshot never stands after one of a later
    time, so that the snapshots with the sentinel stand first. *)
Lemma sort_entries_naive (entries : list snapshot) :
  Forall (fun e => naive (snap_created e)) entries ->
  exists sorted,
    sort_entries entries = Ok sorted
    /\ Permutation sorted entries
    /\ Sorted (le_on naive_key_ltb entry_sort_key) sorted
    /\ StronglySorted
         (fun x y => (dt_clock (snap_created x) <= dt_clock (snap_created y))%N)
         sorted.
Proof.
  intros Hn. exists (sorted_by naive_key_ltb entry_sort_key entries).
  assert (Hs : Sorted (le_on naive_key_ltb entry_sort_key)
                 (sorted_by naive_key_ltb entry_sort_key entries))
    by (apply sorted_by_sorted; exact naive_key_ltb_asym).
  repeat split.
  - unfold sort_entries, sorted_by.
    rewrite (@sort_keyed_exc_pure _ _ entry_key_lt naive_key_ltb
               (fun k => naive (fst k))).
    + reflexivity.
    + intros a b. apply entry_key_lt_naive.
    + rewrite Forall_map. exact Hn.
  - apply sorted_by_perm.
  - exact Hs.
  - apply Sorted_StronglySorted.
    + intros x y z. apply N.le_trans.
    + eapply Sorted_weaken_in; [|exact Hs].
      intros x y _ _. unfold le_on, naive_key_ltb, entry_sort_key. simpl.
      destruct (N.eqb_spec (dt_clock (snap_created y)) (dt_clock (snap_created x))).
      * lia.
      * rewrite N.ltb_ge. lia.
Qed.

(** ** A timestamp with an offset from UTC *)

(** C6, where the code departs from it.  When [fromisoformat] reads the
    offset of [2024-01-15T10:30:00+00:00], as the library does, the
    loader accepts both documents, the one gets an aware timestamp and
    the other the sentinel, and the report raises [TypeError] when it
    orders them. *)
Theorem created_offset_breaks_report (R : PyRuntime) (clock : N) :
  fromisoformat "2024-01-15T10:30:00+00:00"
  = Some (mk_datetime clock (Some 0%Z)) ->
  exists a b,
    parse_image_xml "xml-out/ee__1.0.xml" offset_doc = Ok a
    /\ parse_image_xml "xml-out/ee__1.1.xml" undated_doc = Ok b
    /\ snap_created a = mk_datetime clock (Some 0%Z)
    /\ snap_created b = datetime_min
    /\ build_report [a; b] = Raise TypeError.
Proof.
  intros Hiso.
  destruct (parse_image_xml_total "xml-out/ee__1.0.xml" offset_doc)
    as (a & Ha & _ & Hca).
  destruct (parse_image_xml_total "xml-out/ee__1.1.xml" undated_doc)
    as (b & Hb & _ & Hcb).
  assert (Ea : snap_created a = mk_datetime clock (Some 0%Z)).
  { rewrite Hca. unfold created_of.
    replace (created_trim (attr (el_attrib offset_doc) "created"))
      with "2024-01-15T10:30:00+00:00" by (vm_compute; reflexivity).
    rewrite Hiso. reflexivity. }
  assert (Eb : snap_created b = datetime_min) by (rewrite Hcb; reflexivity).
  exists a, b.
  split; [exact Ha|]. split; [exact Hb|]. split; [exact Ea|].
  split; [exact Eb|].
  unfold build_report, sort_entries. simpl.
  unfold entry_key_lt, entry_sort_key. simpl. rewrite Ea, Eb. reflexivity.
Qed.

(** The same on the small runtime, whose [fromisoformat] reads the
    offset. *)
Lemma created_offset_breaks_report_witness :
  @fromisoformat Mini.runtime "2024-01-15T10:30:00+00:00"
  = Some (mk_datetime 63840911400000000 (Some 0%Z))
  /\ exists a b,
    @parse_image_xml Mini.runtime "xml-out/ee__1.0.xml" offset_doc = Ok a
    /\ @parse_image_xml Mini.runtime "xml-out/ee__1.1.xml" undated_doc = Ok b
    /\ snap_created a = mk_datetime 63840911400000000 (Some 0%Z)
    /\ snap_created b = datetime_min
    /\ build_report [a; b] = Raise TypeError.
Proof.
  split; [vm_compute; reflexivity|].
  apply (@created_offset_breaks_report Mini.runtime). vm_compute. reflexivity.
Defined.

(* ===================================================================== *)
(** * The document builder: what it stores *)
(* ===================================================================== *)

Lemma lex_step_asym a b r r' :
  (r = true -> r' = false) ->
  lex_step a b r = true -> lex_step b a r' = false.
Proof.
  unfold lex_step. intros Hr. rewrite (String.eqb_sym b a).
  destruct (String.eqb a b); auto. apply string_ltb_asym.
Qed.

Lemma tuple4_ltb_asym (x y : tuple4) :
  tuple4_ltb x y = true -> tuple4_ltb y x = false.
Proof.
  destruct x as [[[a1 b1] c1] d1], y as [[[a2 b2] c2] d2]. unfold tuple4_ltb.
  repeat apply lex_step_asym. discriminate.
Qed.

Lemma decorate_str_names (pips : list (pkg json)) :
  Forall has_str_name pips ->
  decorate pip_sort_key pips
  = Ok (List.map (fun p => (pip_name_lower p, p)) pips).
Proof.
  induction 1 as [|p pips [s Hs] _ IH]; simpl; auto.
  unfold pip_sort_key at 1, pip_name_lower at 1. rewrite Hs, IH. reflexivity.
Qed.

Lemma sorted_exc_str_names (pips : list (pkg json)) :
  Forall has_str_name pips ->
  sorted_exc String.ltb pip_sort_key pips
  = Ok (sorted_by String.ltb pip_name_lower pips).
Proof.
  intros Hp. unfold sorted_exc. now rewrite decorate_str_names.
Qed.

Section BuilderFacts.
Context `{PyRuntime}.

Lemma list_group_listable (group item : string) (j : json) :
  listable (py_or j (JArr [])) ->
  exists g,
    list_group group item (py_or j (JArr [])) = Ok g
    /\ Forall (fun e => el_tag e = group) g.
Proof.
  unfold list_group. intros Hl.
  destruct (py_truthy (py_or j (JArr []))) eqn:Et; [|eauto].
  destruct (py_or j (JArr [])) as [|b|z|nz ds|s|l|d]; simpl in *;
    try discriminate; subst; try discriminate;
    eexists; (split; [reflexivity | repeat constructor]).
Qed.

Lemma find_children_skip {T : Type} (name : string) (g : list (element T))
  (tag : string) attrib text rest :
  Forall (fun e => el_tag e = tag) g -> String.eqb tag name = false ->
  find_children name (Element "image" attrib text (g ++ rest))
  = find_children name (Element "image" attrib text rest).
Proof.
  intros Hg Hn. unfold find_children. simpl. rewrite filter_app.
  replace (List.filter _ g) with (@nil (element T)); auto.
  symmetry. induction Hg as [|e g He _ IH]; simpl; auto.
  now rewrite He, Hn.
Qed.

(** The three groups of the document: the sorted lists, record by
    record. *)
Lemma make_xml_groups image_ref meta rpms pips cols :
  listable (py_or (meta_get meta "RepoDigests") (JArr [])) ->
  listable (py_or (meta_get meta "RepoTags") (JArr [])) ->
  Forall has_str_name pips ->
  exists root,
    make_xml image_ref meta rpms pips cols = Ok root
    /\ List.map (@el_children json) (find_children "rpms" root)
       = [List.map rpm_element (sorted_by tuple4_ltb rpm_sort_key rpms)]
    /\ List.map (@el_children json) (find_children "python" root)
       = [List.map package_element (sorted_by String.ltb pip_name_lower pips)]
    /\ List.map (@el_children json) (find_children "collections" root)
       = [List.map collection_element (sorted_by String.ltb col_sort_key cols)].
Proof.
  intros Hd Ht Hp. unfold make_xml.
  destruct (list_group_listable "repoDigests" "digest" _ Hd) as (rd & -> & Hrd).
  destruct (list_group_listable "repoTags" "tag" _ Ht) as (rt & -> & Hrt).
  rewrite (sorted_exc_str_names Hp). simpl. eexists. split; [reflexivity|].
  repeat split;
    rewrite (find_children_skip _ _ _ _ Hrd) by reflexivity;
    rewrite (find_children_skip _ _ _ _ Hrt) by reflexivity;
    reflexivity.
Qed.

End BuilderFacts.



(** ** Identity keys in the document *)

Lemma not_NoDup_pair {A : Type} (x : A) (l : list A) : ~ NoDup (x :: x :: l).
Proof.
  intros Hn. inversion Hn as [|? ? Hni _]. apply Hni. now left.
Qed.

(** C8, as the specification states it, fails: two installed keys of
    the same name and architecture, two interpreted packages and two
    collections whose names differ in case only, all reach the
    document. *)
Lemma document_keys_repeat :
  exists root,
    @make_xml Mini.runtime "quay.io/ns/ee:1.0" []
      (parse_rpm_lines dup_rpm_text)
      (@parse_pip_json Mini.runtime dup_pip_text)
      (@parse_collections_merged Mini.runtime dup_col_text) = Ok root
    /\ ~ NoDup (List.map stored_rpm_key (findall2 "rpms" "rpm" root))
    /\ ~ NoDup (List.map stored_lower_name (findall2 "python" "package" root))
    /\ ~ NoDup (List.map stored_lower_name
                  (findall2 "collections" "collection" root)).
Proof.
  eexists. split; [vm_compute; reflexivity|].
  repeat split; vm_compute; apply not_NoDup_pair.
Qed.

Lemma NoDup_map_perm {A B : Type} (f : A -> B) (l l' : list A) :
  Permutation l l' -> (NoDup (List.map f l) <-> NoDup (List.map f l')).
Proof.
  intros Hp. split; apply Permutation_NoDup; apply Permutation_map; auto.
  now symmetry.
Qed.

(** C8, as the code has it.  The builder stores, group by group, the
    records it is given, rearranged and none dropped: identity keys are
    unique in the document exactly when they are unique in its input.
    What the code ensures by itself is that the collections of the
    reconciler have pairwise different names as written. *)
Theorem document_keys_as_given (R : PyRuntime) (image_ref : string)
  (meta : list (string * json)) (rpms : list rpm) (pips : list (pkg json))
  (text : string) :
  listable (py_or (meta_get meta "RepoDigests") (JArr [])) ->
  listable (py_or (meta_get meta "RepoTags") (JArr [])) ->
  Forall has_str_name pips ->
  exists root rpm_list pip_list col_list,
    make_xml image_ref meta rpms pips (parse_collections_merged text) = Ok root
    /\ stored_as rpm_element "rpms" root rpm_list
    /\ stored_as package_element "python" root pip_list
    /\ stored_as collection_element "collections" root col_list
    /\ Permutation rpm_list rpms
    /\ Permutation pip_list pips
    /\ Permutation col_list (parse_collections_merged text)
    /\ NoDup (List.map (@pkg_name string) col_list)
    /\ (NoDup (List.map rpm_key_name_arch rpm_list)
        <-> NoDup (List.map rpm_key_name_arch rpms))
    /\ (NoDup (List.map pip_name_lower pip_list)
        <-> NoDup (List.map pip_name_lower pips))
    /\ (NoDup (List.map simple_key col_list)
        <-> NoDup (List.map simple_key (parse_collections_merged text))).
Proof.
  intros Hd Ht Hp.
  destruct (@make_xml_groups R image_ref meta rpms pips
              (parse_collections_merged text) Hd Ht Hp)
    as (root & Hm & Hr & Hpy & Hc).
  exists root, (sorted_by tuple4_ltb rpm_sort_key rpms),
    (sorted_by String.ltb pip_name_lower pips),
    (sorted_by String.ltb col_sort_key (parse_collections_merged text)).
  split; [exact Hm|]. split; [exact Hr|]. split; [exact Hpy|].
  split; [exact Hc|].
  split; [apply sorted_by_perm|]. split; [apply sorted_by_perm|].
  split; [apply sorted_by_perm|].
  split.
  { rewrite (NoDup_map_perm _ (sorted_by_perm String.ltb col_sort_key _)).
    apply parse_collections_merged_names_nodup. }
  split; [apply NoDup_map_perm, sorted_by_perm|].
  split; apply NoDup_map_perm, sorted_by_perm.
Qed.

(** The same for a sample image and the collections of the scenario, on
    the small runtime. *)
Lemma document_keys_as_given_witness :
  exists root rpm_list pip_list col_list,
    @make_xml Mini.runtime "quay.io/ns/ee:1.0" sample_meta sample_rpms
      sample_pips (@parse_collections_merged Mini.runtime collection_scenario_text)
    = Ok root
    /\ stored_as rpm_element "rpms" root rpm_list
    /\ stored_as package_element "python" root pip_list
    /\ stored_as collection_element "collections" root col_list
    /\ Permutation rpm_list sample_rpms
    /\ Permutation pip_list sample_pips
    /\ Permutation col_list
         (@parse_collections_merged Mini.runtime collection_scenario_text)
    /\ NoDup (List.map (@pkg_name string) col_list)
    /\ (NoDup (List.map rpm_key_name_arch rpm_list)
        <-> NoDup (List.map rpm_key_name_arch sample_rpms))
    /\ (NoDup (List.map pip_name_lower pip_list)
        <-> NoDup (List.map pip_name_lower sample_pips))
    /\ (NoDup (List.map simple_key col_list)
        <-> NoDup (List.map simple_key
                     (@parse_collections_merged Mini.runtime
                        collection_scenario_text))).
Proof.
  apply (@document_keys_as_given Mini.runtime).
  - simpl. exact I.
  - simpl. exact I.
  - repeat constructor; eexists; reflexivity.
Defined.

(* ===================================================================== *)
(** * The report renderer: cells *)
(* ===================================================================== *)

Lemma append_empty_r (s : string) : s +++ EmptyString = s.
Proof. induction s as [|c s IH]; simpl; congruence. Qed.

Lemma append_assoc (a b c : string) : (a +++ b) +++ c = a +++ b +++ c.
Proof. induction a as [|x a IH]; simpl; congruence. Qed.






(* ===================================================================== *)
(** * The report renderer: escaping *)
(* ===================================================================== *)

Lemma replace_char_app (c : ascii) (by_ a b : string) :
  replace_char c by_ (a +++ b) = replace_char c by_ a +++ replace_char c by_ b.
Proof.
  induction a as [|x a IH]; simpl; auto.
  destruct (Ascii.eqb x c); rewrite IH; [now rewrite append_assoc | reflexivity].
Qed.

Lemma replace_char_cons (x : ascii) (by_ : string) (c : ascii) (s : string) :
  replace_char x by_ (String c s)
  = replace_char x by_ (String c EmptyString) +++ replace_char x by_ s.
Proof.
  simpl. destruct (Ascii.eqb c x); [now rewrite append_empty_r | reflexivity].
Qed.

(** The five passes amount to one pass, character by character: no pass
    touches what an earlier one wrote. *)
Lemma escape_cons (c : ascii) (s : string) :
  escape (String c s) = escape_char c +++ escape s.
Proof.
  unfold escape. rewrite (replace_char_cons "&"%char).
  rewrite !replace_char_app. f_equal. unfold escape_char.
  cbn [replace_char].
  destruct (Ascii.eqb c "&"%char) eqn:E1; [reflexivity|].
  cbn [replace_char].
  destruct (Ascii.eqb c "<"%char) eqn:E2; [reflexivity|].
  cbn [replace_char].
  destruct (Ascii.eqb c ">"%char) eqn:E3; [reflexivity|].
  cbn [replace_char].
  destruct (Ascii.eqb c Mini.DQUOTE) eqn:E4; [reflexivity|].
  cbn [replace_char].
  destruct (Ascii.eqb c "'"%char) eqn:E5; reflexivity.
Qed.

Lemma markup_free_escape_char (c : ascii) (s : string) :
  markup_free s = true -> markup_free (escape_char c +++ s) = true.
Proof.
  intros Hs. unfold escape_char.
  destruct (Ascii.eqb_spec c "&"%char) as [->|H1]; [simpl; exact Hs|].
  destruct (Ascii.eqb_spec c "<"%char) as [->|H2]; [simpl; exact Hs|].
  destruct (Ascii.eqb_spec c ">"%char) as [->|H3]; [simpl; exact Hs|].
  destruct (Ascii.eqb_spec c Mini.DQUOTE) as [->|H4]; [simpl; exact Hs|].
  destruct (Ascii.eqb_spec c "'"%char) as [->|H5]; [simpl; exact Hs|].
  simpl. unfold is_markup_char.
  rewrite (proj2 (Ascii.eqb_neq _ _) H1), (proj2 (Ascii.eqb_neq _ _) H2),
    (proj2 (Ascii.eqb_neq _ _) H3), (proj2 (Ascii.eqb_neq _ _) H4),
    (proj2 (Ascii.eqb_neq _ _) H5).
  exact Hs.
Qed.

Lemma markup_free_escape (s : string) : markup_free (escape s) = true.
Proof.
  induction s as [|c s IH]; [reflexivity|].
  rewrite escape_cons. now apply markup_free_escape_char.
Qed.

(** ** Cells and reports over escaped texts *)

Lemma py_slice_to_map {A B : Type} (f : A -> B) (l : list A) (n : Z) :
  py_slice_to (List.map f l) n = List.map f (py_slice_to l n).
Proof.
  unfold py_slice_to. rewrite length_map.
  destruct (n <? 0)%Z; apply firstn_map.
Qed.

Lemma to_list_escaped (title : string) (entries : list string) :
  to_list title entries = to_list_raw title (List.map escape entries).
Proof.
  destruct entries as [|x entries]; [reflexivity|].
  unfold to_list, to_list_raw. cbn [List.map]. now rewrite map_map.
Qed.

Lemma cell_html_limit_escaped (d : diff_result) (show_limit : Z) :
  cell_html_limit d show_limit = cell_markup (escaped d) show_limit.
Proof.
  destruct d as [[[added removed] upgraded] downgraded].
  unfold cell_html_limit, cell_markup, escaped, counts_line, len.
  rewrite !length_map, !py_slice_to_map, <- map_app, !length_map.
  destruct (_ =? 0)%Z; [reflexivity|].
  rewrite <- !to_list_escaped.
  set (sample := py_slice_to added (show_limit / 2)
                 ++ py_slice_to upgraded (show_limit / 2)).
  destruct (_ >? 0)%Z; destruct sample as [|x sample];
    cbn [List.map app]; rewrite ?map_map; reflexivity.
Qed.

Lemma py_index_app_last {A : Type} (pre : list A) (x : A) (suf : list A) :
  py_index (pre ++ x :: suf) (Z.of_nat (S (List.length pre)) - 1) = Ok x.
Proof.
  unfold py_index. cbv zeta.
  assert (E : (Z.of_nat (S (List.length pre)) - 1 <? 0)%Z = false)
    by (apply Z.ltb_ge; lia).
  rewrite !E.
  replace (Z.to_nat (Z.of_nat (S (List.length pre)) - 1))
    with (List.length pre) by lia.
  rewrite nth_error_app2 by lia. now rewrite Nat.sub_diag.
Qed.

Lemma cells_loop_after (entries pre : list snapshot) (prev : snapshot)
  (suf : list snapshot) (acc : cells) :
  entries = pre ++ prev :: suf ->
  for_each (cells_step entries)
    (List.combine
       (List.map Z.of_nat (seq (S (List.length pre)) (List.length suf))) suf)
    acc
  = Ok (cells_app acc (cells_after prev suf)).
Proof.
  revert pre prev acc. induction suf as [|e suf IH]; intros pre prev acc He.
  - destruct acc as [[r p] c]. cbn. now rewrite !app_nil_r.
  - cbn [List.length seq List.map List.combine for_each].
    unfold cells_step at 1. destruct acc as [[r p] c].
    destruct (Z.of_nat (S (List.length pre)) =? 0)%Z eqn:E;
      [apply Z.eqb_eq in E; lia|].
    rewrite He, py_index_app_last. cbn [bind].
    rewrite <- He.
    assert (Hlen : S (List.length pre) = List.length (pre ++ [prev]))
      by (rewrite length_app; simpl; lia).
    rewrite Hlen, (IH (pre ++ [prev]) e).
    + cbn [cells_after]. destruct (cells_after e suf) as [[r' p'] c'].
      simpl. now rewrite <- !app_assoc.
    + rewrite He, <- app_assoc. reflexivity.
Qed.

(** The loop over the snapshots never raises. *)
Lemma cells_loop_total (entries : list snapshot) :
  for_each (cells_step entries) (enumerate entries) ([], [], [])
  = Ok (cells_of entries).
Proof.
  unfold enumerate. destruct entries as [|e rest]; [reflexivity|].
  cbn [List.length seq List.map List.combine for_each].
  unfold cells_step at 1. cbn [Z.of_nat Z.eqb bind app].
  rewrite (@cells_loop_after (e :: rest) [] e rest) by reflexivity.
  unfold cells_of. destruct (cells_after e rest) as [[r p] c]. reflexivity.
Qed.

Lemma build_report_escaped (entries : list snapshot) :
  build_report entries
  = bind (sort_entries entries)
      (fun sorted =>
         Ok (report_markup (List.map escape (List.map snap_tag sorted))
               (cells_of sorted))).
Proof.
  unfold build_report. destruct (sort_entries entries) as [sorted|e];
    [|reflexivity].
  cbn [bind]. rewrite cells_loop_total. cbn [bind].
  destruct (cells_of sorted) as [[r p] c].
  unfold report_markup, taghdr. rewrite !map_map. reflexivity.
Qed.

Lemma cells_after_are_cells (prev : snapshot) (rest : list snapshot) :
  let '(r, p, c) := cells_after prev rest in
  Forall is_cell r /\ Forall is_cell p /\ Forall is_cell c.
Proof.
  revert prev. induction rest as [|e rest IH]; intros prev; simpl.
  - repeat constructor.
  - specialize (IH e). destruct (cells_after e rest) as [[r p] c].
    destruct IH as (Hr & Hp & Hc).
    repeat split; constructor; auto; right; eexists;
      (split; [reflexivity | apply cell_html_limit_escaped]).
Qed.

(** C10.  What [html.escape] returns can stand between tags; every entry
    of a diff reaches its cell through [html.escape], once per list item
    where it is shown; every tag reaches its column header through
    [html.escape]; and the cells of the report are such cells. *)
Theorem report_escapes_untrusted :
  (forall s, markup_free (escape s) = true)
  /\ (forall d show_limit,
         cell_html_limit d show_limit = cell_markup (escaped d) show_limit)
  /\ (forall entries,
         build_report entries
         = bind (sort_entries entries)
             (fun sorted =>
                Ok (report_markup (List.map escape (List.map snap_tag sorted))
                      (cells_of sorted))))
  /\ (forall entries,
         let '(r, p, c) := cells_of entries in
         Forall is_cell r /\ Forall is_cell p /\ Forall is_cell c).
Proof.
  split; [exact markup_free_escape|].
  split; [exact cell_html_limit_escaped|].
  split; [exact build_report_escaped|].
  intros [|e rest]; [repeat constructor|].
  unfold cells_of. pose proof (cells_after_are_cells e rest) as Hc.
  destruct (cells_after e rest) as [[r p] c]. destruct Hc as (Hr & Hp & Hc).
  repeat split; constructor; auto; now left.
Qed.

(* ===================================================================== *)
(** * Cutting strings at a separator *)
(* ===================================================================== *)

Lemma length_append (a b : string) :
  String.length (a +++ b) = String.length a + String.length b.
Proof. induction a as [|c a IH]; simpl; auto. Qed.

Lemma strip_prefix_app (p x y r : string) :
  PyStr.strip_prefix p x = Some r ->
  PyStr.strip_prefix p (x +++ y) = Some (r +++ y).
Proof.
  revert x; induction p as [|a p IH]; intros x; simpl.
  - now intros [= ->].
  - destruct x as [|b x]; [discriminate|]. simpl.
    destruct (Ascii.eqb a b); [apply IH | discriminate].
Qed.

Lemma strip_prefix_self (p r : string) :
  PyStr.strip_prefix p (p +++ r) = Some r.
Proof.
  induction p as [|a p IH]; simpl; [reflexivity|].
  now rewrite Ascii.eqb_refl.
Qed.

(** A prefix test that fails on a text at least as long as the prefix
    fails on every extension of the text. *)
Lemma strip_prefix_none_app (p x y : string) :
  String.length p <= String.length x ->
  PyStr.strip_prefix p x = None ->
  PyStr.strip_prefix p (x +++ y) = None.
Proof.
  revert x; induction p as [|a p IH]; intros x Hlen; simpl.
  - discriminate.
  - destruct x as [|b x]; simpl in *; [lia|].
    destruct (Ascii.eqb a b); [apply IH; lia | reflexivity].
Qed.

Lemma partition_sound (sep s b a : string) :
  PyStr.partition sep s = Some (b, a) -> s = b +++ sep +++ a.
Proof.
  revert b; induction s as [|c s IH]; intros b; simpl.
  - destruct (PyStr.strip_prefix sep EmptyString) as [r|] eqn:E; [|discriminate].
    intros [= <- <-]. simpl. now apply strip_prefix_sound.
  - destruct (PyStr.strip_prefix sep (String c s)) as [r|] eqn:E.
    + intros [= <- <-]. simpl. now apply strip_prefix_sound.
    + destruct (PyStr.partition sep s) as [[b' a']|]; [|discriminate].
      intros [= <- <-]. simpl. f_equal. now apply IH.
Qed.

(** The cut is at the first occurrence: the separator does not occur in
    what is before it. *)
Lemma partition_before (sep s b a : string) :
  sep <> EmptyString ->
  PyStr.partition sep s = Some (b, a) -> PyStr.partition sep b = None.
Proof.
  intros Hsep. revert b; induction s as [|c s IH]; intros b; simpl.
  - destruct sep; [congruence | simpl; discriminate].
  - destruct (PyStr.strip_prefix sep (String c s)) as [r|] eqn:E.
    + intros [= <- <-]. destruct sep; [congruence | reflexivity].
    + destruct (PyStr.partition sep s) as [[b' a']|] eqn:Ep; [|discriminate].
      intros [= <- <-]. simpl.
      destruct (PyStr.strip_prefix sep (String c b')) as [r|] eqn:E'.
      * pose proof (partition_sound _ _ Ep) as ->.
        apply (strip_prefix_app _ _ (sep +++ a')) in E'.
        simpl in E'. simpl in E. congruence.
      * now rewrite (IH b' eq_refl).
Qed.

(** When the first occurrence of the separator in [a +++ sep] is its
    last part, [a +++ sep +++ b] is cut there. *)
Lemma partition_app_first (sep a b : string) :
  PyStr.partition sep (a +++ sep) = Some (a, EmptyString) ->
  PyStr.partition sep (a +++ sep +++ b) = Some (a, b).
Proof.
  induction a as [|c a IH].
  - intros _. cbn [String.append].
    pose proof (strip_prefix_self sep b) as E.
    destruct (sep +++ b) as [|d r] eqn:Er; simpl; now rewrite E.
  - cbn [String.append]. simpl.
    destruct (PyStr.strip_prefix sep (String c (a +++ sep))) as [r|] eqn:E;
      [discriminate|].
    destruct (PyStr.partition sep (a +++ sep)) as [[b' a']|] eqn:Ep;
      [|discriminate].
    intros [= Hb Ha]. subst b' a'.
    assert (E' : PyStr.strip_prefix sep (String c (a +++ sep +++ b)) = None).
    { change (String c (a +++ sep +++ b)) with ((String c a) +++ sep +++ b).
      rewrite <- append_assoc. apply strip_prefix_none_app.
      - cbn [String.append String.length]. rewrite length_append. lia.
      - exact E. }
    rewrite E'. now rewrite IH.
Qed.

Lemma partition_app_some (sep a s : string) :
  PyStr.partition sep s <> None -> PyStr.partition sep (a +++ s) <> None.
Proof.
  intros Hs. induction a as [|c a IH]; [exact Hs|].
  cbn [String.append]. simpl.
  destruct (PyStr.strip_prefix sep (String c (a +++ s))); [discriminate|].
  destruct (PyStr.partition sep (a +++ s)) as [[b' a']|]; [discriminate|].
  exact IH.
Qed.

Lemma partition_some_app (sep s t : string) :
  PyStr.partition sep s <> None -> PyStr.partition sep (s +++ t) <> None.
Proof.
  induction s as [|c s IH]; simpl.
  - destruct (PyStr.strip_prefix sep EmptyString) as [r|] eqn:E; [|congruence].
    intros _. apply (strip_prefix_app _ _ t) in E. simpl in E.
    destruct t; simpl; rewrite E; discriminate.
  - destruct (PyStr.strip_prefix sep (String c s)) as [r|] eqn:E.
    + intros _. apply (strip_prefix_app _ _ t) in E. simpl in E.
      rewrite E. discriminate.
    + destruct (PyStr.partition sep s) as [[b' a']|] eqn:Ep; [|congruence].
      intros _.
      destruct (PyStr.strip_prefix sep (String c (s +++ t))); [discriminate|].
      destruct (PyStr.partition sep (s +++ t)) as [[b2 a2]|] eqn:E2;
        [discriminate|].
      exfalso. apply IH; [discriminate | reflexivity].
Qed.

Lemma contains_true (sub s : string) :
  PyStr.contains sub s = true <-> PyStr.partition sub s <> None.
Proof.
  unfold PyStr.contains. destruct (PyStr.partition sub s); split; congruence.
Qed.

(** A text that contains [sub] still does with more text around it. *)
Lemma contains_app (sub a s b : string) :
  PyStr.contains sub s = true -> PyStr.contains sub (a +++ s +++ b) = true.
Proof.
  rewrite !contains_true. intros Hs.
  apply partition_app_some. now apply partition_some_app.
Qed.

Lemma substring_prefix (a b : string) :
  String.substring 0 (String.length a) (a +++ b) = a.
Proof.
  induction a as [|c a IH]; simpl.
  - now destruct b.
  - now rewrite IH.
Qed.

Lemma substring_all (s : string) :
  String.substring 0 (String.length s) s = s.
Proof. induction s as [|c s IH]; simpl; [reflexivity | now rewrite IH]. Qed.

Lemma str_slice_from_app (a b : string) :
  str_slice_from (a +++ b) (String.length a) = b.
Proof.
  unfold str_slice_from. rewrite length_append.
  replace (String.length a + String.length b - String.length a)
    with (String.length b) by lia.
  induction a as [|c a IH]; simpl; [apply substring_all | exact IH].
Qed.

Lemma str_slice_to_suffix (a b : string) :
  b <> EmptyString ->
  str_slice_to (a +++ b) (- str_len b) = a.
Proof.
  intros Hb. unfold str_slice_to, str_len.
  assert (0 < String.length b) by (destruct b; [congruence | simpl; lia]).
  destruct (Z.ltb_spec (- Z.of_nat (String.length b)) 0); [|lia].
  rewrite length_append.
  replace (Z.to_nat (Z.of_nat (String.length a + String.length b)
                     + - Z.of_nat (String.length b)))
    with (String.length a) by lia.
  apply substring_prefix.
Qed.

Section CutAtOneChar.
Variable c : ascii.
Let sep : string := String c EmptyString.

Lemma after_last_app (p x : string) :
  after_last sep (p +++ String c x) = after_last sep x.
Proof.
  unfold after_last. induction p as [|d p IH].
  - cbn [String.append]. unfold sep. rewrite (rpartition_char_cons c).
    fold sep. destruct (PyStr.rpartition sep x) as [[b a]|] eqn:E; [reflexivity|].
    now rewrite Ascii.eqb_refl.
  - cbn [String.append]. unfold sep. rewrite (rpartition_char_cons c).
    fold sep.
    destruct (PyStr.rpartition sep (p +++ String c x)) as [[b a]|] eqn:E.
    + exact IH.
    + exfalso. apply (partition_none_rpartition c) in E.
      revert E. apply partition_app_some. unfold sep. simpl.
      now rewrite Ascii.eqb_refl.
Qed.

Lemma split_last (s : string) :
  py_index (PyStr.split sep s) (-1) = Ok (after_last sep s).
Proof.
  unfold PyStr.split.
  rewrite (py_index_last EmptyString) by apply split_fuel_nonempty.
  f_equal. apply split_fuel_last. lia.
Qed.

End CutAtOneChar.

(* ===================================================================== *)
(** * Output file names *)
(* ===================================================================== *)

Lemma sanitize_go_chars (s : string) (b : bool) :
  all_chars is_name_char (sanitize_go s b) = true.
Proof.
  revert b; induction s as [|c s IH]; intros b; simpl; [reflexivity|].
  destruct (is_name_char c) eqn:E; simpl.
  - now rewrite E, IH.
  - destruct b; [apply IH|]. simpl. apply IH.
Qed.

Lemma sanitize_go_clean (s : string) (b : bool) :
  all_chars is_name_char s = true -> sanitize_go s b = s.
Proof.
  revert b; induction s as [|c s IH]; intros b; simpl; [reflexivity|].
  destruct (is_name_char c); simpl; [|discriminate].
  intros Hs. now rewrite IH.
Qed.

Lemma sanitize_go_length (s : string) (b : bool) :
  String.length (sanitize_go s b) <= String.length s.
Proof.
  revert b; induction s as [|c s IH]; intros b; simpl; [lia|].
  destruct (is_name_char c); simpl.
  - specialize (IH false). lia.
  - destruct b; simpl; specialize (IH true); lia.
Qed.

Lemma all_chars_app (p : ascii -> bool) (a b : string) :
  all_chars p (a +++ b) = all_chars p a && all_chars p b.
Proof.
  induction a as [|c a IH]; simpl; [reflexivity|].
  now rewrite IH, andb_assoc.
Qed.

(** X1.  [sanitize_filename] returns a text made of the characters
    [A-Za-z0-9._-] only and no longer than its argument; it leaves a text
    made of these characters as it is, and so applying it twice is
    applying it once. *)
Theorem sanitize_filename_safe (s : string) :
  all_chars is_name_char (sanitize_filename s) = true
  /\ String.length (sanitize_filename s) <= String.length s
  /\ (all_chars is_name_char s = true -> sanitize_filename s = s)
  /\ sanitize_filename (sanitize_filename s) = sanitize_filename s.
Proof.
  unfold sanitize_filename. repeat split.
  - apply sanitize_go_chars.
  - apply sanitize_go_length.
  - apply sanitize_go_clean.
  - apply sanitize_go_clean, sanitize_go_chars.
Qed.

Lemma partition_char_app_none (c : ascii) (a b : string) :
  PyStr.partition (String c EmptyString) a = None ->
  PyStr.partition (String c EmptyString) b = None ->
  PyStr.partition (String c EmptyString) (a +++ b) = None.
Proof.
  intros Ha Hb. induction a as [|d a IH]; [exact Hb|].
  cbn [String.append]. rewrite partition_char_cons in *.
  destruct (Ascii.eqb c d); [discriminate|].
  destruct (PyStr.partition (String c EmptyString) a) as [[x y]|];
    [discriminate|].
  now rewrite IH.
Qed.

Lemma split1_partition (sep s b a : string) :
  PyStr.partition sep s = Some (b, a) ->
  PyStr.contains sep s = true /\ PyStr.split1 sep s = [b; a].
Proof.
  intros E. unfold PyStr.contains, PyStr.split1. now rewrite E.
Qed.

Lemma last_segment_dir (dir seg : string) :
  is_dir dir -> PyStr.contains "/" seg = false ->
  last_segment (dir +++ seg) = seg.
Proof.
  intros Hd Hs. apply contains_false in Hs. unfold last_segment.
  destruct Hd as [-> | [p ->]].
  - now apply after_last_none.
  - rewrite append_assoc. cbn [String.append].
    rewrite after_last_app. now apply after_last_none.
Qed.

Lemma segment_no_slash (base tag : string) :
  PyStr.contains "/" base = false -> PyStr.contains "/" tag = false ->
  PyStr.contains "/" (base +++ ":" +++ tag) = false.
Proof.
  intros Hb Ht. apply contains_false. apply partition_char_app_none.
  - now apply contains_false.
  - cbn [String.append]. rewrite partition_char_cons.
    change (Ascii.eqb "/" ":") with false. cbv iota.
    apply contains_false in Ht. now rewrite Ht.
Qed.

Lemma image_display_name_and_tag_total (image_ref : string) :
  exists stem, image_display_name_and_tag image_ref = Ok stem.
Proof.
  unfold image_display_name_and_tag.
  destruct (PyStr.contains "@" image_ref) eqn:Eat.
  - apply contains_true in Eat.
    destruct (PyStr.partition "@" image_ref) as [[n d]|] eqn:Ep; [|congruence].
    destruct (split1_partition _ _ Ep) as [_ ->]. cbn [unpack2 bind].
    rewrite split_last. cbn [bind]. eauto.
  - rewrite rsplit1_last. cbn [bind].
    destruct (PyStr.contains ":" (last_segment image_ref)) eqn:Ec.
    + apply contains_true in Ec.
      destruct (PyStr.partition ":" (last_segment image_ref)) as [[b t]|] eqn:Ep;
        [|congruence].
      destruct (split1_partition _ _ Ep) as [_ ->]. cbn [unpack2 bind].
      rewrite split_last. cbn [bind]. eauto.
    + cbn [bind]. rewrite split_last. cbn [bind]. eauto.
Qed.

(** X2.  For a reference [dir/base:tag] without [@], whose last segment
    has one colon and a tag that is not empty, the file stem is
    [base__tag]: the registry and the namespace do not enter it, so two
    images of different namespaces with the same name and tag are given
    the same stem. *)
Theorem stem_of_tagged_reference (dir base tag : string) :
  is_dir dir ->
  PyStr.contains "@" (dir +++ base +++ ":" +++ tag) = false ->
  PyStr.contains "/" base = false ->
  PyStr.contains ":" base = false ->
  PyStr.contains "/" tag = false ->
  tag <> EmptyString ->
  image_display_name_and_tag (dir +++ base +++ ":" +++ tag)
  = Ok (base +++ "__" +++ tag).
Proof.
  intros Hd Hat Hb Hbc Ht Hne.
  pose proof (segment_no_slash _ _ Hb Ht) as Hseg.
  assert (Hp : PyStr.partition ":" (base +++ ":" +++ tag) = Some (base, tag)).
  { apply (partition_first ":" base tag). now apply contains_false. }
  unfold image_display_name_and_tag. rewrite Hat.
  rewrite rsplit1_last. cbn [bind].
  rewrite (last_segment_dir _ Hd Hseg).
  destruct (split1_partition _ _ Hp) as [-> ->]. cbn [unpack2 bind].
  rewrite str_slice_to_suffix by (destruct base; discriminate).
  rewrite split_last. cbn [bind].
  fold (last_segment (dir +++ base)). rewrite (last_segment_dir _ Hd Hb).
  cbn [opt_truthy]. unfold str_truthy.
  destruct (String.eqb_spec tag EmptyString); [contradiction | reflexivity].
Qed.

Lemma stem_of_tagged_reference_witness :
  image_display_name_and_tag "registry.redhat.io/ns-a/ee-minimal:2.4"
  = Ok "ee-minimal__2.4"
  /\ image_display_name_and_tag "quay.io/ns-b/ee-minimal:2.4"
     = Ok "ee-minimal__2.4".
Proof.
  split.
  - apply (@stem_of_tagged_reference "registry.redhat.io/ns-a/" "ee-minimal" "2.4");
      [right; exists "registry.redhat.io/ns-a"; reflexivity
      | reflexivity | reflexivity | reflexivity | reflexivity | discriminate].
  - apply (@stem_of_tagged_reference "quay.io/ns-b/" "ee-minimal" "2.4");
      [right; exists "quay.io/ns-b"; reflexivity
      | reflexivity | reflexivity | reflexivity | reflexivity | discriminate].
Defined.

(** X3.  For a digest reference [name@digest] the file stem is the last
    [/]-separated segment of [name], a tag included, followed by [__] and
    the sanitised digest. *)
Theorem stem_of_digest_reference (name digest : string) :
  PyStr.contains "@" name = false ->
  digest <> EmptyString ->
  image_display_name_and_tag (name +++ "@" +++ digest)
  = Ok (last_segment name +++ "__" +++ sanitize_filename digest).
Proof.
  intros Hn Hd.
  assert (Hp : PyStr.partition "@" (name +++ "@" +++ digest)
               = Some (name, digest)).
  { apply (partition_first "@" name digest). now apply contains_false. }
  unfold image_display_name_and_tag.
  destruct (split1_partition _ _ Hp) as [-> ->]. cbn [unpack2 bind].
  rewrite split_last. cbn [bind opt_truthy]. unfold str_truthy.
  destruct (String.eqb_spec digest EmptyString); [contradiction | reflexivity].
Qed.

Lemma stem_of_digest_reference_witness :
  image_display_name_and_tag "quay.io/ns/ee:1.0@sha256:ab12"
  = Ok "ee:1.0__sha256_ab12".
Proof.
  apply (@stem_of_digest_reference "quay.io/ns/ee:1.0" "sha256:ab12");
    [reflexivity | discriminate].
Defined.

(** X4.  The name of the file [main] writes a document to is always
    defined and made of the characters [A-Za-z0-9._-] only. *)
Theorem main_xml_name_safe (image : string) :
  exists name,
    main_xml_name image = Ok name
    /\ all_chars is_name_char name = true
    /\ endswith ".xml" name = true.
Proof.
  unfold main_xml_name.
  destruct (image_display_name_and_tag_total image) as [stem ->].
  cbn [bind]. eexists. split; [reflexivity|]. split.
  - rewrite all_chars_app. unfold sanitize_filename.
    now rewrite sanitize_go_chars.
  - unfold endswith. rewrite length_append.
    replace (String.length (sanitize_filename stem) + String.length ".xml"
             - String.length ".xml")
      with (String.length (sanitize_filename stem)) by lia.
    rewrite str_slice_from_app.
    apply andb_true_intro. split; [apply Nat.leb_le; lia | reflexivity].
Qed.

(* ===================================================================== *)
(** * The sections of the captured text *)
(* ===================================================================== *)

(** X5.  When [start] first occurs in the text right after [pre], and
    [end_] first occurs after it right after [body], the section
    extracted between the two markers is [body]. *)
Theorem extract_between (pre body post start end_ : string) :
  PyStr.partition start (pre +++ start) = Some (pre, EmptyString) ->
  PyStr.partition end_ (body +++ end_) = Some (body, EmptyString) ->
  extract (pre +++ start +++ body +++ end_ +++ post) start end_ = Ok body.
Proof.
  intros Hs He. unfold extract.
  pose proof (@partition_app_first _ _ (body +++ end_ +++ post) Hs) as Hs'.
  pose proof (@partition_app_first _ _ post He) as He'.
  destruct (split1_partition _ _ Hs') as [_ ->].
  cbn [List.length Nat.ltb Nat.leb].
  replace (py_index [pre; body +++ end_ +++ post] 1)
    with (Ok (body +++ end_ +++ post)) by reflexivity.
  cbn [bind]. destruct (split1_partition _ _ He') as [_ ->]. reflexivity.
Qed.

Lemma extract_between_witness :
  extract ("podman noise" +++ NL +++ RPM_START +++ "bash|0|5.1.8|6.el9|x86_64"
           +++ NL +++ RPM_END +++ NL +++ PIP_START +++ "[]" +++ NL +++ PIP_END)
    RPM_START RPM_END
  = Ok ("bash|0|5.1.8|6.el9|x86_64" +++ NL).
Proof.
  apply (@extract_between ("podman noise" +++ NL)
           ("bash|0|5.1.8|6.el9|x86_64" +++ NL)
           (NL +++ PIP_START +++ "[]" +++ NL +++ PIP_END) RPM_START RPM_END);
    vm_compute; reflexivity.
Defined.

Lemma extract_total (raw start end_ : string) :
  exists body,
    extract raw start end_ = Ok body
    /\ (PyStr.contains start raw = false -> body = EmptyString)
    /\ (forall pre rest,
          PyStr.partition start raw = Some (pre, rest) ->
          PyStr.contains end_ rest = false -> body = rest)
    /\ exists a b, raw = a +++ body +++ b.
Proof.
  unfold extract, PyStr.split1, PyStr.contains.
  destruct (PyStr.partition start raw) as [[pre rest]|] eqn:Es.
  - cbn [List.length Nat.ltb Nat.leb].
    replace (py_index [pre; rest] 1) with (Ok rest) by reflexivity.
    cbn [bind].
    destruct (PyStr.partition end_ rest) as [[body post]|] eqn:Ee.
    + exists body. split; [reflexivity|]. split; [cbn; discriminate|].
      split; [intros ? ? [= <- <-]; rewrite Ee; discriminate|].
      exists (pre +++ start), (end_ +++ post).
      rewrite (partition_sound _ _ Es), (partition_sound _ _ Ee).
      now rewrite !append_assoc.
    + exists rest. split; [reflexivity|]. split; [cbn; discriminate|].
      split; [now intros ? ? [= _ ->] _|].
      exists (pre +++ start), EmptyString.
      rewrite (partition_sound _ _ Es).
      now rewrite append_empty_r, append_assoc.
  - exists EmptyString. split; [reflexivity|]. split; [reflexivity|].
    split; [discriminate|]. now exists EmptyString, raw.
Qed.

(** X6.  [split_sections] never raises, whatever was captured.  Each of
    the three texts is a piece of the captured text, stripped; it is
    empty when its start marker is missing, and runs to the end of the
    captured text when its end marker is missing. *)
Theorem split_sections_tolerant (raw : string) :
  exists r p c,
    split_sections raw = Ok (PyStr.strip r, PyStr.strip p, PyStr.strip c)
    /\ Forall2
         (fun body markers =>
            (PyStr.contains (fst markers) raw = false -> body = EmptyString)
            /\ (forall pre rest,
                  PyStr.partition (fst markers) raw = Some (pre, rest) ->
                  PyStr.contains (snd markers) rest = false -> body = rest)
            /\ exists a b, raw = a +++ body +++ b)
         [r; p; c]
         [(RPM_START, RPM_END); (PIP_START, PIP_END); (COLL_START, COLL_END)].
Proof.
  unfold split_sections.
  destruct (extract_total raw RPM_START RPM_END) as (r & -> & Hr).
  destruct (extract_total raw PIP_START PIP_END) as (p & -> & Hp).
  destruct (extract_total raw COLL_START COLL_END) as (c & -> & Hc).
  exists r, p, c. split; [reflexivity|].
  repeat constructor; cbn [fst snd]; first [apply Hr | apply Hp | apply Hc].
Qed.

(* ===================================================================== *)
(** * The repository path of the catalogue lookup *)
(* ===================================================================== *)

Lemma slice_if_startswith (p s : string) (n : nat) :
  n = String.length p ->
  (if startswith p s then str_slice_from s n else s) = strip_once p s.
Proof.
  intros ->. unfold startswith, strip_once.
  destruct (PyStr.strip_prefix p s) as [r|] eqn:E; [|reflexivity].
  rewrite (strip_prefix_sound _ _ E). apply str_slice_from_app.
Qed.

Lemma strip_once_suffix (p s : string) :
  exists pre, s = pre +++ strip_once p s.
Proof.
  unfold strip_once. destruct (PyStr.strip_prefix p s) as [r|] eqn:E.
  - exists p. now apply strip_prefix_sound.
  - now exists EmptyString.
Qed.

Lemma split_repo_strip_once (registry repo : string) :
  split_repo_into_registry_and_path registry repo
  = (pyxis_host registry,
     strip_once (pyxis_host registry +++ "/") (strip_once (registry +++ "/") repo)).
Proof.
  unfold split_repo_into_registry_and_path. fold (pyxis_host registry).
  cbv zeta. f_equal.
  rewrite (@slice_if_startswith (registry +++ "/") repo)
    by (rewrite length_append; reflexivity).
  apply slice_if_startswith. rewrite length_append. reflexivity.
Qed.

(** X7.  [split_repo_into_registry_and_path] names the host
    [registry.access.redhat.com] for a registry ending in [redhat.io] and
    the registry itself otherwise.  The path it returns is an end of the
    repository given; for a repository [registry/path] it is [path],
    without a further leading [host/] if [path] starts with the host
    named; a repository that starts with neither is returned whole. *)
Theorem split_repo_path (registry : string) :
  (forall repo,
     fst (split_repo_into_registry_and_path registry repo) = pyxis_host registry
     /\ exists pre,
          repo = pre +++ snd (split_repo_into_registry_and_path registry repo))
  /\ (forall path,
        split_repo_into_registry_and_path registry (registry +++ "/" +++ path)
        = (pyxis_host registry, strip_once (pyxis_host registry +++ "/") path))
  /\ (forall repo,
        startswith (registry +++ "/") repo = false ->
        startswith (pyxis_host registry +++ "/") repo = false ->
        split_repo_into_registry_and_path registry repo
        = (pyxis_host registry, repo))
  /\ (endswith "redhat.io" registry = true ->
      pyxis_host registry = "registry.access.redhat.com")
  /\ (endswith "redhat.io" registry = false -> pyxis_host registry = registry).
Proof.
  split; [|split; [|split; [|split]]]; [intros repo; split| | | |].
  - rewrite split_repo_strip_once. reflexivity.
  - rewrite split_repo_strip_once. cbn [snd].
    destruct (strip_once_suffix (registry +++ "/") repo) as [a Ha].
    destruct (strip_once_suffix (pyxis_host registry +++ "/")
                (strip_once (registry +++ "/") repo)) as [b Hb].
    exists (a +++ b). rewrite append_assoc, <- Hb. exact Ha.
  - intros path. rewrite split_repo_strip_once. f_equal. f_equal.
    unfold strip_once at 1. rewrite <- append_assoc.
    now rewrite strip_prefix_self.
  - intros repo H1 H2. rewrite split_repo_strip_once. f_equal.
    unfold startswith in H1, H2. unfold strip_once.
    destruct (PyStr.strip_prefix (registry +++ "/") repo); [discriminate|].
    destruct (PyStr.strip_prefix (pyxis_host registry +++ "/") repo);
      [discriminate | reflexivity].
  - unfold pyxis_host. now intros ->.
  - unfold pyxis_host. now intros ->.
Qed.

(* ===================================================================== *)
(** * The image references of a run *)
(* ===================================================================== *)

Lemma existsb_eqb_In (r : string) (l : list string) :
  List.existsb (String.eqb r) l = true <-> In r l.
Proof.
  rewrite existsb_exists. split.
  - intros (x & Hx & E). apply String.eqb_eq in E. now subst.
  - intros H. exists r. split; [exact H | apply String.eqb_refl].
Qed.

Lemma dedupe_loop (l seen uniq : list string) :
  snd (fold_left dedupe_step l (seen, uniq)) = uniq ++ dedupe_from seen l.
Proof.
  revert seen uniq; induction l as [|x l IH]; intros seen uniq; cbn [fold_left].
  - cbn. now rewrite app_nil_r.
  - cbn [dedupe_step dedupe_from].
    destruct (List.existsb (String.eqb x) seen); [apply IH|].
    rewrite IH. now rewrite <- app_assoc.
Qed.

Lemma dedupe_from_ext (s1 s2 l : list string) :
  (forall r, In r s1 <-> In r s2) -> dedupe_from s1 l = dedupe_from s2 l.
Proof.
  revert s1 s2; induction l as [|x l IH]; intros s1 s2 H; cbn; [reflexivity|].
  assert (E : List.existsb (String.eqb x) s1 = List.existsb (String.eqb x) s2).
  { destruct (List.existsb (String.eqb x) s1) eqn:E1;
      destruct (List.existsb (String.eqb x) s2) eqn:E2; try reflexivity.
    - apply existsb_eqb_In, H, existsb_eqb_In in E1. congruence.
    - apply existsb_eqb_In, H, existsb_eqb_In in E2. congruence. }
  rewrite E. destruct (List.existsb (String.eqb x) s2).
  - now apply IH.
  - f_equal. apply IH. intros r. cbn. now rewrite H.
Qed.

Lemma filter_idem {A : Type} (p : A -> bool) (l : list A) :
  List.filter p (List.filter p l) = List.filter p l.
Proof.
  induction l as [|x l IH]; cbn; [reflexivity|].
  destruct (p x) eqn:E; cbn; [rewrite E; now f_equal | exact IH].
Qed.

Lemma dedupe_from_cons (x : string) (seen l : list string) :
  dedupe_from (x :: seen) l
  = List.filter (fun y => negb (String.eqb y x)) (dedupe_from seen l).
Proof.
  revert seen; induction l as [|y l IH]; intros seen; [reflexivity|].
  cbn [dedupe_from List.existsb].
  destruct (String.eqb_spec y x) as [->|Hne]; cbn [orb].
  - destruct (List.existsb (String.eqb x) seen) eqn:E; [apply IH|].
    cbn [List.filter]. rewrite String.eqb_refl. cbn [negb].
    rewrite IH. now rewrite filter_idem.
  - destruct (List.existsb (String.eqb y) seen) eqn:E; [apply IH|].
    cbn [List.filter].
    destruct (String.eqb_spec y x) as [|_]; [contradiction|]. cbn [negb].
    f_equal. rewrite <- IH. apply dedupe_from_ext.
    intros r. cbn. tauto.
Qed.

Lemma dedupe_from_nil (l : list string) : dedupe_from [] l = keep_first l.
Proof.
  induction l as [|x l IH]; [reflexivity|].
  cbn [dedupe_from List.existsb keep_first]. f_equal.
  now rewrite dedupe_from_cons, IH.
Qed.

Lemma keep_first_In (l : list string) (r : string) :
  In r (keep_first l) <-> In r l.
Proof.
  induction l as [|x l IH]; [reflexivity|].
  cbn [keep_first In]. rewrite filter_In, IH.
  destruct (String.eqb_spec r x) as [->|Hne]; cbn [negb]; split.
  - now left.
  - now left.
  - intros [->|[H _]]; [now left | now right].
  - intros [->|H]; [contradiction | now right].
Qed.

Lemma keep_first_NoDup (l : list string) : NoDup (keep_first l).
Proof.
  induction l as [|x l IH]; [constructor|].
  cbn [keep_first]. constructor.
  - rewrite filter_In. intros [_ H]. now rewrite String.eqb_refl in H.
  - now apply NoDup_filter.
Qed.

(** X8.  The last loop of [iter_image_refs] keeps every reference at its
    first position and drops its repetitions: the list it builds has no
    repetition and the members of the list it reads. *)
Theorem dedupe_keeps_first (refs : list string) :
  snd (fold_left dedupe_step refs ([], [])) = keep_first refs
  /\ NoDup (keep_first refs)
  /\ (forall r, In r (keep_first refs) <-> In r refs).
Proof.
  split; [|split].
  - rewrite dedupe_loop. apply dedupe_from_nil.
  - apply keep_first_NoDup.
  - apply keep_first_In.
Qed.

Lemma comma_items_empty : comma_items EmptyString = [].
Proof. reflexivity. Qed.

Lemma fold_append_map {A : Type} (f : A -> string) (l : list A)
  (refs : list string) :
  fold_left (fun refs t => refs ++ [f t]) l refs = refs ++ List.map f l.
Proof.
  revert refs; induction l as [|x l IH]; intros refs; cbn.
  - now rewrite app_nil_r.
  - rewrite IH. now rewrite <- app_assoc.
Qed.

Lemma tags_file_loop (repo : string) (lines refs : list string) :
  fold_left (tags_file_step repo) lines refs
  = refs ++ List.flat_map (file_entry repo) lines.
Proof.
  revert refs; induction lines as [|x l IH]; intros refs; cbn [fold_left flat_map].
  - now rewrite app_nil_r.
  - rewrite IH. unfold tags_file_step, file_entry, str_truthy.
    destruct (String.eqb (PyStr.strip x) EmptyString); cbn [negb orb];
      [reflexivity|].
    destruct (startswith "#" (PyStr.strip x)); [reflexivity|].
    destruct (PyStr.contains "/" (PyStr.strip x) || PyStr.contains ":" (PyStr.strip x)
              || PyStr.contains "@" (PyStr.strip x));
      now rewrite <- app_assoc.
Qed.

(** X9.  When the tags asked for are not [all], or the discovery returned
    tags, and the tags file (if one is named) can be read,
    [iter_image_refs] returns the references of [--images], then those of
    [--tags] as [repo:tag], then those of the tags file, every reference
    at its first position only. *)
Theorem iter_image_refs_order (args : cli_args)
  (discover : string -> string -> exc (list string))
  (read_text : string -> option string) :
  (asks_all_tags args = true -> ~ discovery_failed args discover) ->
  (forall file, args_tags_file args = Some file -> file <> EmptyString ->
                read_text file <> None) ->
  iter_image_refs args discover read_text
  = Return (keep_first (refs_of_images args ++ refs_of_tags args discover
                        ++ refs_of_file args read_text)).
Proof.
  intros Hall Hfile.
  unfold iter_image_refs, refs_of_images, refs_of_tags, refs_of_file,
    asks_all_tags, discovery_failed in *.
  destruct args as [images tags file repo registry]; cbn [args_images args_tags
    args_tags_file args_repo args_registry] in *.
  assert (Himg : (match images with
                  | Some images0 =>
                      if str_truthy images0 then [] ++ comma_items images0 else []
                  | None => []
                  end)
                 = match images with
                   | Some images0 => comma_items images0
                   | None => []
                   end).
  { destruct images as [i|]; [|reflexivity]. unfold str_truthy.
    destruct (String.eqb_spec i EmptyString) as [->|]; reflexivity. }
  rewrite Himg. clear Himg.
  set (imgs := match images with Some i => comma_items i | None => [] end).
  assert (Hfinish : forall refs,
    match
      match file with
      | Some file0 =>
          if str_truthy file0 then
            match read_text file0 with
            | Some text =>
                Return (fold_left (tags_file_step repo) (PyStr.splitlines text) refs)
            | None => Uncaught
            end
          else Return refs
      | None => Return refs
      end
    with
    | Return refs0 => Return (snd (fold_left dedupe_step refs0 ([], [])))
    | Exit status => Exit status
    | Uncaught => Uncaught
    end
    = Return (keep_first
                (refs ++ match file with
                         | Some file0 =>
                             if String.eqb file0 EmptyString then []
                             else match read_text file0 with
                                  | Some text =>
                                      List.flat_map (file_entry repo)
                                        (PyStr.splitlines text)
                                  | None => []
                                  end
                         | None => []
                         end))).
  { intros refs. destruct file as [f|].
    - unfold str_truthy. destruct (String.eqb_spec f EmptyString) as [->|Hf];
        cbn [negb].
      + rewrite app_nil_r, dedupe_loop. cbn [app]. now rewrite dedupe_from_nil.
      + specialize (Hfile f eq_refl Hf).
        destruct (read_text f) as [text|]; [|congruence].
        rewrite tags_file_loop, dedupe_loop. cbn [app].
        now rewrite dedupe_from_nil.
    - rewrite app_nil_r, dedupe_loop. cbn [app]. now rewrite dedupe_from_nil. }
  destruct tags as [t|].
  - unfold str_truthy.
    destruct (String.eqb_spec t EmptyString) as [->|Ht]; cbn [negb].
    + change (String.eqb (PyStr.lower (PyStr.strip EmptyString)) "all") with false.
      cbv iota. rewrite comma_items_empty. cbn [List.map app].
      rewrite Hfinish. reflexivity.
    + destruct (String.eqb (PyStr.lower (PyStr.strip t)) "all") eqn:Eall.
      * specialize (Hall eq_refl).
        destruct (discover registry repo) as [[|d ds]|e].
        -- exfalso. apply Hall. now left.
        -- rewrite Hfinish. now rewrite <- app_assoc.
        -- exfalso. apply Hall. right. now exists e.
      * rewrite fold_append_map, Hfinish. now rewrite <- app_assoc.
  - cbn [List.map app]. rewrite Hfinish. reflexivity.
Qed.

Lemma iter_image_refs_order_witness :
  iter_image_refs
    (mk_cli_args (Some "quay.io/a/b:1, r/x:2.5") (Some " ALL ")
       (Some "tags.txt") "r/x" "r")
    (fun _ _ => Ok ["2.4"; "2.5"])
    (fun _ => Some ("# pinned" +++ NL +++ "2.4" +++ NL +++ "q/y@sha256:ab" +++ NL))
  = Return ["quay.io/a/b:1"; "r/x:2.5"; "r/x:2.4"; "q/y@sha256:ab"].
Proof.
  apply (@iter_image_refs_order
           (mk_cli_args (Some "quay.io/a/b:1, r/x:2.5") (Some " ALL ")
              (Some "tags.txt") "r/x" "r")
           (fun _ _ => Ok ["2.4"; "2.5"])
           (fun _ => Some ("# pinned" +++ NL +++ "2.4" +++ NL +++ "q/y@sha256:ab"
                           +++ NL))).
  - intros _ [Hd|[e Hd]]; discriminate Hd.
  - intros file _ _. discriminate.
Defined.

(** X10.  [iter_image_refs] leaves with [sys.exit] exactly when the tags
    asked for are [all] (in any case, with surrounding white space) and
    the discovery raised or returned no tag; the status is 2, whatever
    the other options name. *)
Theorem iter_image_refs_exit (args : cli_args)
  (discover : string -> string -> exc (list string))
  (read_text : string -> option string) (status : Z) :
  iter_image_refs args discover read_text = Exit status
  <-> status = 2%Z /\ asks_all_tags args = true
      /\ discovery_failed args discover.
Proof.
  unfold iter_image_refs, asks_all_tags, discovery_failed.
  destruct args as [images tags file repo registry]; cbn [args_images args_tags
    args_tags_file args_repo args_registry].
  set (imgs := match images with
               | Some i => if str_truthy i then [] ++ comma_items i else []
               | None => []
               end).
  assert (Hfinish : forall refs,
    match
      match file with
      | Some file0 =>
          if str_truthy file0 then
            match read_text file0 with
            | Some text =>
                Return (fold_left (tags_file_step repo) (PyStr.splitlines text) refs)
            | None => Uncaught
            end
          else Return refs
      | None => Return refs
      end
    with
    | Return refs0 => Return (snd (fold_left dedupe_step refs0 ([], [])))
    | Exit status => Exit status
    | Uncaught => Uncaught
    end <> Exit status).
  { intros refs. destruct file as [f|]; [|discriminate].
    destruct (str_truthy f); [|discriminate].
    destruct (read_text f); discriminate. }
  destruct tags as [t|].
  - unfold str_truthy.
    destruct (String.eqb_spec t EmptyString) as [->|Ht]; cbn [negb].
    + change (String.eqb (PyStr.lower (PyStr.strip EmptyString)) "all") with false.
      split; [intros H; now apply Hfinish in H | intros (_ & H & _); discriminate].
    + destruct (String.eqb (PyStr.lower (PyStr.strip t)) "all") eqn:Eall.
      * destruct (discover registry repo) as [[|d ds]|e].
        -- split; [intros [= <-]; repeat split; now left | now intros (-> & _)].
        -- split; [intros H; now apply Hfinish in H|].
           intros (_ & _ & [H|[e H]]); discriminate.
        -- split; [intros [= <-]; repeat split; right; now exists e
                  | now intros (-> & _)].
      * split; [intros H; now apply Hfinish in H | intros (_ & H & _); discriminate].
  - split; [intros H; now apply Hfinish in H | intros (_ & H & _); discriminate].
Qed.

(* ===================================================================== *)
(** * The two modes of the interpreted-package parser *)
(* ===================================================================== *)

Section PipModes.
Context `{PyRuntime}.

Lemma pip_array_loop (os : list json) (acc : list (pkg json)) :
  forallb is_obj os = true ->
  for_each
    (fun items o =>
       n <- py_get o "name" ;;
       v <- py_get o "version" ;;
       Ok (if py_truthy n && py_truthy v
           then items ++ [mk_pkg n v] else items))%exc
    os acc
  = Ok (acc ++ List.flat_map pip_record os).
Proof.
  revert acc; induction os as [|o os IH]; intros acc; cbn [forallb for_each flat_map].
  - intros _. now rewrite app_nil_r.
  - intros Ho. apply andb_prop in Ho as [Ho Hos].
    destruct o; try discriminate. cbn [py_get bind pip_record].
    rewrite (IH _ Hos).
    destruct (py_truthy _ && py_truthy _); [now rewrite <- app_assoc | reflexivity].
Qed.

Lemma pip_array_loop_raises (os : list json) (acc : list (pkg json)) :
  forallb is_obj os = false ->
  exists e,
    for_each
      (fun items o =>
         n <- py_get o "name" ;;
         v <- py_get o "version" ;;
         Ok (if py_truthy n && py_truthy v
             then items ++ [mk_pkg n v] else items))%exc
      os acc
    = Raise e.
Proof.
  revert acc; induction os as [|o os IH]; intros acc; cbn [forallb for_each];
    [discriminate|].
  intros Ho. destruct o; cbn [is_obj andb] in Ho;
    try (exists AttributeError; reflexivity).
  cbn [py_get bind]. apply IH. exact Ho.
Qed.

Lemma pip_lines_loop (lines : list string) (pkgs : list (pkg json)) :
  fold_left parse_pip_line lines pkgs
  = pkgs ++ List.flat_map pip_line_record lines.
Proof.
  revert pkgs; induction lines as [|l lines IH]; intros pkgs;
    cbn [fold_left flat_map].
  - now rewrite app_nil_r.
  - rewrite IH. unfold parse_pip_line, pip_line_record, PyStr.contains,
      PyStr.split1.
    destruct (PyStr.partition "==" (PyStr.strip l)) as [[n v]|];
      [now rewrite <- app_assoc | reflexivity].
Qed.

(** X11.  [parse_pip_json] reads the text as JSON exactly when it loads,
    the value loaded can be iterated and every element met is an object:
    the records are then the elements that have a name and a version
    counting as true, in order.  In every other case, also when an
    element that is not an object follows good ones, the records are
    those of the lines with [==], which are made of strings. *)
Theorem parse_pip_json_modes (text : string) :
  parse_pip_json text
  = match json_loads text with
    | Some arr =>
        match py_iter arr with
        | Ok os =>
            if forallb is_obj os then List.flat_map pip_record os
            else List.flat_map pip_line_record (PyStr.splitlines text)
        | Raise _ => List.flat_map pip_line_record (PyStr.splitlines text)
        end
    | None => List.flat_map pip_line_record (PyStr.splitlines text)
    end
  /\ Forall has_str_fields
       (List.flat_map pip_line_record (PyStr.splitlines text)).
Proof.
  split.
  - unfold parse_pip_json, parse_pip_array.
    destruct (json_loads text) as [arr|]; cbn [bind];
      [|now rewrite pip_lines_loop].
    destruct (py_iter arr) as [os|e]; cbn [bind];
      [|now rewrite pip_lines_loop].
    destruct (forallb is_obj os) eqn:Eos.
    + now rewrite pip_array_loop.
    + destruct (@pip_array_loop_raises os [] Eos) as [e ->].
      now rewrite pip_lines_loop.
  - apply Forall_flat_map, Forall_forall. intros l _.
    unfold pip_line_record.
    destruct (PyStr.partition "==" (PyStr.strip l)) as [[n v]|];
      repeat constructor. now exists (PyStr.strip n), (PyStr.strip v).
Qed.

End PipModes.

(* ===================================================================== *)
(** * When the builder returns a document *)
(* ===================================================================== *)

Section BuilderReturns.
Context `{PyRuntime}.

Lemma list_group_ok (group item : string) (j : json) g :
  list_group group item (py_or j (JArr [])) = Ok g ->
  listable (py_or j (JArr [])).
Proof.
  unfold list_group, py_or.
  destruct j as [|b|z|nz ds|s|l|d]; cbn [py_truthy];
    try exact (fun _ => I).
  - destruct b; cbn; [discriminate | exact (fun _ => I)].
  - destruct z; cbn; [exact (fun _ => I) | discriminate | discriminate].
  - destruct nz; cbn; [discriminate | exact (fun _ => I)].
  - destruct (str_truthy s); cbn; exact (fun _ => I).
  - destruct l; cbn; exact (fun _ => I).
  - destruct d; cbn; exact (fun _ => I).
Qed.

Lemma list_group_raises (group item : string) (j : json) e :
  list_group group item (py_or j (JArr [])) = Raise e -> e = TypeError.
Proof.
  unfold list_group, py_or.
  destruct j as [|b|z|nz ds|s|l|d]; cbn [py_truthy]; try discriminate.
  - destruct b; cbn; [now intros [= <-] | discriminate].
  - destruct z; cbn; [discriminate | now intros [= <-] | now intros [= <-]].
  - destruct nz; cbn; [now intros [= <-] | discriminate].
  - destruct (str_truthy s) eqn:Es; cbn; rewrite ?Es; cbn; discriminate.
  - destruct l; cbn; discriminate.
  - destruct d; cbn; discriminate.
Qed.

Lemma decorate_ok (pips : list (pkg json)) d :
  decorate pip_sort_key pips = Ok d -> Forall has_str_name pips.
Proof.
  revert d; induction pips as [|p pips IH]; intros d; [constructor|].
  cbn [decorate]. unfold pip_sort_key at 1.
  destruct (pkg_name p) as [| | | |s| |] eqn:En; cbn [bind]; try discriminate.
  destruct (decorate pip_sort_key pips) as [r|]; cbn [bind]; [|discriminate].
  intros _. constructor; [exists s; exact En | now apply (IH r)].
Qed.

Lemma decorate_raises (pips : list (pkg json)) e :
  decorate pip_sort_key pips = Raise e -> e = AttributeError.
Proof.
  induction pips as [|p pips IH]; [discriminate|].
  cbn [decorate]. unfold pip_sort_key at 1.
  destruct (pkg_name p) eqn:En; cbn [bind]; try (now intros [= <-]).
  destruct (decorate pip_sort_key pips) as [r|e']; cbn [bind]; [discriminate|].
  intros [= <-]. now apply IH.
Qed.

Lemma make_xml_returns_groups image_ref meta rpms pips cols :
  (exists root, make_xml image_ref meta rpms pips cols = Ok root)
  <-> listable (py_or (meta_get meta "RepoDigests") (JArr []))
      /\ listable (py_or (meta_get meta "RepoTags") (JArr []))
      /\ Forall has_str_name pips.
Proof.
  split.
  - intros [root Hroot]. unfold make_xml in Hroot. cbv zeta in Hroot.
    destruct (list_group "repoDigests" "digest" _) as [rd|] eqn:Erd;
      cbn [bind] in Hroot; [|discriminate].
    destruct (list_group "repoTags" "tag" _) as [rt|] eqn:Ert;
      cbn [bind] in Hroot; [|discriminate].
    unfold sorted_exc in Hroot.
    destruct (decorate pip_sort_key pips) as [d|] eqn:Ed;
      cbn [bind] in Hroot; [|discriminate].
    split; [now apply list_group_ok in Erd|].
    split; [now apply list_group_ok in Ert | now apply decorate_ok in Ed].
  - intros (Hd & Ht & Hp).
    destruct (make_xml_groups image_ref meta rpms cols Hd Ht Hp)
      as (root & Hroot & _).
    now exists root.
Qed.

(** X12.  [make_xml] returns a document exactly when the [RepoDigests]
    and [RepoTags] of the metadata are false or can be iterated and the
    name of every interpreted package is a string; otherwise it raises
    [TypeError] (for the metadata) or [AttributeError] (for a name), and
    nothing else. *)
Theorem make_xml_returns_iff image_ref meta rpms pips cols :
  ((exists root, make_xml image_ref meta rpms pips cols = Ok root)
   <-> listable (py_or (meta_get meta "RepoDigests") (JArr []))
       /\ listable (py_or (meta_get meta "RepoTags") (JArr []))
       /\ Forall has_str_name pips)
  /\ (forall e, make_xml image_ref meta rpms pips cols = Raise e ->
                e = TypeError \/ e = AttributeError).
Proof.
  split; [apply make_xml_returns_groups|].
  intros e. unfold make_xml. cbv zeta.
  destruct (list_group "repoDigests" "digest" _) as [rd|e1] eqn:Erd;
    cbn [bind].
  - destruct (list_group "repoTags" "tag" _) as [rt|e2] eqn:Ert; cbn [bind].
    + unfold sorted_exc.
      destruct (decorate pip_sort_key pips) as [d|e3] eqn:Ed; cbn [bind];
        [discriminate|].
      intros [= <-]. right. now apply decorate_raises in Ed.
    + intros [= <-]. left. now apply list_group_raises in Ert.
  - intros [= <-]. left. now apply list_group_raises in Erd.
Qed.

End BuilderReturns.

(* ===================================================================== *)
(** * From the builder to the loader *)
(* ===================================================================== *)

Lemma rpm_read_back (r : rpm) :
  option_map rpm_of_element (read_back (rpm_element r)) = Some r.
Proof.
  destruct r as [n e v rl a]. unfold rpm_element. cbn [rpm_name rpm_epoch
    rpm_version rpm_release rpm_arch]. unfold str_truthy.
  destruct (String.eqb_spec e EmptyString) as [->|He]; cbn.
  - reflexivity.
  - unfold rpm_of_element, attr, str_truthy. cbn.
    destruct (String.eqb_spec e EmptyString); [contradiction | reflexivity].
Qed.

Lemma collection_read_back (c : pkg string) :
  option_map pkg_of_element (read_back (collection_element c)) = Some c.
Proof. now destruct c. Qed.

Lemma package_read_back (p : pkg json) :
  option_map pkg_of_element (read_back (package_element p))
  = match pkg_name p, pkg_version p with
    | JStr n, JStr v => Some (mk_pkg n v)
    | _, _ => None
    end.
Proof.
  destruct p as [n v]. cbn [pkg_name pkg_version].
  destruct n; try reflexivity. destruct v; reflexivity.
Qed.

(** X13.  The loader reads from the element the builder writes for a
    record the record itself: an rpm with its five fields (the epoch
    attribute is left out when the epoch is empty and read as empty), a
    collection with its name and version; an interpreted package gives
    its name and version when both are strings, and cannot be written
    out otherwise. *)
Theorem records_read_back :
  (forall r, option_map rpm_of_element (read_back (rpm_element r)) = Some r)
  /\ (forall c,
        option_map pkg_of_element (read_back (collection_element c)) = Some c)
  /\ (forall p,
        option_map pkg_of_element (read_back (package_element p))
        = match pkg_name p, pkg_version p with
          | JStr n, JStr v => Some (mk_pkg n v)
          | _, _ => None
          end).
Proof.
  split; [|split].
  - exact rpm_read_back.
  - exact collection_read_back.
  - exact package_read_back.
Qed.

Lemma all_some_cons {A : Type} (o : option A) (l : list (option A)) r :
  all_some (o :: l) = Some r ->
  exists a r', o = Some a /\ all_some l = Some r' /\ r = a :: r'.
Proof.
  cbn. destruct o as [a|]; [|discriminate].
  destruct (all_some l) as [r'|]; [|discriminate].
  intros [= <-]. now exists a, r'.
Qed.

Lemma all_some_app {A : Type} (l1 l2 : list (option A)) r :
  all_some (l1 ++ l2) = Some r ->
  exists r1 r2, all_some l1 = Some r1 /\ all_some l2 = Some r2 /\ r = r1 ++ r2.
Proof.
  revert r; induction l1 as [|o l1 IH]; intros r; cbn [app].
  - intros Hr. now exists [], r.
  - intros Hr. apply all_some_cons in Hr as (a & r' & -> & Hr' & ->).
    destruct (IH _ Hr') as (r1 & r2 & H1 & H2 & ->).
    exists (a :: r1), r2. cbn. now rewrite H1.
Qed.

Lemma read_back_tag (e : element json) (d : element string) :
  read_back e = Some d -> el_tag d = el_tag e.
Proof.
  destruct e as [t a x c]. cbn [read_back].
  destruct (all_some (List.map attrib_text a)); [|discriminate].
  destruct (text_text x); [|discriminate].
  destruct (all_some _); [|discriminate].
  now intros [= <-].
Qed.

Lemma read_back_filter (name : string) (c : list (element json))
  (c' : list (element string)) :
  all_some (List.map read_back c) = Some c' ->
  all_some
    (List.map read_back (List.filter (fun e => String.eqb (el_tag e) name) c))
  = Some (List.filter (fun e => String.eqb (el_tag e) name) c').
Proof.
  revert c'; induction c as [|e c IH]; intros c'.
  - now intros [= <-].
  - cbn [List.map]. intros Hc.
    apply all_some_cons in Hc as (d & r & Hd & Hr & ->).
    cbn [List.filter]. rewrite (read_back_tag _ Hd).
    destruct (String.eqb (el_tag e) name); [|now apply IH].
    cbn [List.map all_some]. now rewrite Hd, (IH _ Hr).
Qed.

Lemma read_back_children (e : element json) (d : element string) :
  read_back e = Some d ->
  all_some (List.map read_back (el_children e)) = Some (el_children d).
Proof.
  destruct e as [t a x c]. cbn [read_back el_children].
  destruct (all_some (List.map attrib_text a)); [|discriminate].
  destruct (text_text x); [|discriminate].
  destruct (all_some _); [|discriminate].
  now intros [= <-].
Qed.

Lemma read_back_find_children (name : string) (e : element json)
  (d : element string) :
  read_back e = Some d ->
  all_some (List.map read_back (find_children name e))
  = Some (find_children name d).
Proof.
  intros H. apply read_back_filter. now apply read_back_children.
Qed.

Lemma read_back_attr (a : list (string * json)) (a' : list (string * string))
  (k s : string) :
  all_some (List.map attrib_text a) = Some a' ->
  PyDict.get k a = Some (JStr s) -> attr a' k = s.
Proof.
  unfold attr. revert a'; induction a as [|[k0 v0] a IH]; intros a';
    [discriminate|].
  cbn [List.map]. intros Ha.
  apply all_some_cons in Ha as (kv & r & Hkv & Hr & ->).
  unfold attrib_text in Hkv. cbn [fst snd] in Hkv.
  destruct v0; try discriminate. injection Hkv as <-.
  cbn [PyDict.get]. destruct (key_eqb k k0); [now intros [= ->]|].
  now apply IH.
Qed.

(** The records read from the elements written for a list of records. *)
Lemma read_back_records {A B : Type} (to_element : A -> element json)
  (of_element : element string -> B) (h : A -> B) (name : string)
  (g : element json) (g' : element string) (l : list A) :
  (forall x, el_tag (to_element x) = name) ->
  (forall x e, read_back (to_element x) = Some e -> of_element e = h x) ->
  el_children g = List.map to_element l ->
  read_back g = Some g' ->
  List.map of_element (find_children name g') = List.map h l.
Proof.
  intros Htag Hrec Hg Hg'.
  pose proof (read_back_find_children name _ Hg') as Hc.
  unfold find_children at 1 in Hc. rewrite Hg in Hc.
  assert (Hf : List.filter (fun e => String.eqb (el_tag e) name)
                 (List.map to_element l) = List.map to_element l).
  { clear - Htag. induction l as [|x l IH]; [reflexivity|]. cbn.
    rewrite Htag, String.eqb_refl. now f_equal. }
  rewrite Hf in Hc. clear Hf Hg Hg'.
  revert Hc. generalize (find_children name g'). clear g g'.
  induction l as [|x l IH]; intros es.
  - now intros [= <-].
  - cbn [List.map]. intros Hc.
    apply all_some_cons in Hc as (e & r & He & Hr & ->).
    cbn [List.map]. f_equal; [now apply Hrec | now apply IH].
Qed.

Section BuilderToLoader.
Context `{PyRuntime}.

Lemma group_of_document (name : string) (root : element json) (doc : element string)
  (children : list (element json)) :
  List.map (@el_children json) (find_children name root) = [children] ->
  read_back root = Some doc ->
  exists g g',
    el_children g = children /\ read_back g = Some g'
    /\ find_children name doc = [g'].
Proof.
  intros Hst Hdoc.
  pose proof (read_back_find_children name _ Hdoc) as Hc.
  destruct (find_children name root) as [|g [|g2 rest]]; try discriminate.
  injection Hst as Hg.
  cbn [List.map] in Hc.
  apply all_some_cons in Hc as (g' & r & Hg' & Hr & Hfc).
  injection Hr as <-.
  now exists g, g'.
Qed.

Lemma make_xml_reference image_ref meta rpms pips cols root :
  make_xml image_ref meta rpms pips cols = Ok root ->
  PyDict.get "reference" (el_attrib root) = Some (JStr image_ref).
Proof.
  unfold make_xml. cbv zeta.
  destruct (list_group "repoDigests" "digest" _) as [rd|]; cbn [bind];
    [|discriminate].
  destruct (list_group "repoTags" "tag" _) as [rt|]; cbn [bind];
    [|discriminate].
  destruct (sorted_exc String.ltb pip_sort_key pips) as [ps|]; cbn [bind];
    [|discriminate].
  intros [= <-]. cbn [el_attrib].
  destruct (py_truthy (py_or (meta_get meta "Digest") (meta_get meta "digest")));
    destruct (py_truthy (py_or (meta_get meta "Created") (meta_get meta "created")));
    reflexivity.
Qed.

Lemma document_reference image_ref meta rpms pips cols root doc :
  make_xml image_ref meta rpms pips cols = Ok root ->
  read_back root = Some doc ->
  attr (el_attrib doc) "reference" = image_ref.
Proof.
  intros Hroot Hdoc.
  pose proof (make_xml_reference _ _ _ _ _ Hroot) as Href.
  clear - Hdoc Href. destruct root as [t a x c]. cbn [el_attrib] in Href.
  revert Hdoc. cbn [read_back].
  destruct (all_some (List.map attrib_text a)) as [a'|] eqn:Ea;
    [|discriminate].
  destruct (text_text x) as [x'|]; [|discriminate].
  destruct (all_some (List.map read_back c)) as [c'|]; [|discriminate].
  intros Hdoc. injection Hdoc as Hdoc. subst doc. cbn [el_attrib].
  now apply (@read_back_attr a a' "reference" image_ref).
Qed.

(** X14.  From a document that [make_xml] returned and that can be
    written out, the loader reads, whatever the path: the rpm records
    given to the builder in ascending order on (name, arch, version,
    release), the interpreted packages and the collections given in
    ascending order on the lower-cased name, and the reference given. *)
Theorem loader_reads_builder image_ref meta rpms pips cols root doc path :
  make_xml image_ref meta rpms pips cols = Ok root ->
  read_back root = Some doc ->
  exists snap,
    parse_image_xml path doc = Ok snap
    /\ snap_rpms snap = sorted_by tuple4_ltb rpm_sort_key rpms
    /\ snap_pips snap
       = List.map pkg_text (sorted_by String.ltb pip_name_lower pips)
    /\ snap_cols snap = sorted_by String.ltb col_sort_key cols
    /\ attr (el_attrib doc) "reference" = image_ref.
Proof.
  intros Hroot Hdoc.
  assert (Hok : exists r, make_xml image_ref meta rpms pips cols = Ok r)
    by now exists root.
  apply (proj1 (make_xml_returns_groups image_ref meta rpms pips cols)) in Hok.
  destruct Hok as (Hd & Ht & Hp).
  destruct (make_xml_groups image_ref meta rpms cols Hd Ht Hp)
    as (root' & Hroot' & Hr & Hpy & Hc).
  rewrite Hroot in Hroot'. injection Hroot' as <-.
  destruct (@group_of_document "rpms" root doc _ Hr Hdoc)
    as (gr & gr' & Hgr & Hgr' & Hfr).
  destruct (@group_of_document "python" root doc _ Hpy Hdoc)
    as (gp & gp' & Hgp & Hgp' & Hfp).
  destruct (@group_of_document "collections" root doc _ Hc Hdoc)
    as (gc & gc' & Hgc & Hgc' & Hfc).
  unfold parse_image_xml. rewrite derive_tag_total, derive_created_total.
  cbn [bind]. eexists. split; [reflexivity|].
  cbn [snap_rpms snap_pips snap_cols]. unfold findall2.
  rewrite Hfr, Hfp, Hfc. cbn [flat_map]. rewrite !app_nil_r.
  split; [|split; [|split]].
  - rewrite (@read_back_records _ _ rpm_element rpm_of_element (fun r => r)
               "rpm" gr gr' (sorted_by tuple4_ltb rpm_sort_key rpms)); auto.
    + apply map_id.
    + intros x e He. pose proof (rpm_read_back x) as Hx.
      rewrite He in Hx. now injection Hx.
  - apply (@read_back_records _ _ package_element pkg_of_element pkg_text
             "package" gp gp'); auto.
    intros x e He. pose proof (package_read_back x) as Hx.
    rewrite He in Hx. cbn [option_map] in Hx. unfold pkg_text.
    destruct (pkg_name x); try discriminate.
    destruct (pkg_version x); try discriminate.
    cbn [json_text]. congruence.
  - rewrite (@read_back_records _ _ collection_element pkg_of_element
               (fun c => c) "collection" gc gc'
               (sorted_by String.ltb col_sort_key cols)); auto.
    + apply map_id.
    + intros x e He. pose proof (collection_read_back x) as Hx.
      rewrite He in Hx. now injection Hx.
  - now apply (document_reference _ _ _ _ _ Hroot).
Qed.

(** X15.  The tag the loader derives from a document built for the
    reference [dir/base:tag] (one colon in the last segment, a tag that is
    not empty) is [tag], whatever the path of the file and the rest of the
    document. *)
Theorem tag_of_built_document dir base tag meta rpms pips cols root doc path :
  make_xml (dir +++ base +++ ":" +++ tag) meta rpms pips cols = Ok root ->
  read_back root = Some doc ->
  is_dir dir ->
  PyStr.contains "/" base = false -> PyStr.contains ":" base = false ->
  PyStr.contains "/" tag = false -> PyStr.contains ":" tag = false ->
  tag <> EmptyString ->
  exists snap, parse_image_xml path doc = Ok snap /\ snap_tag snap = tag.
Proof.
  intros Hroot Hdoc Hd Hb Hbc Ht Htc Hne.
  destruct (parse_image_xml_total path doc) as (snap & Hsnap & Htag & _).
  exists snap. split; [exact Hsnap|]. rewrite Htag. unfold derived_tag.
  rewrite (document_reference _ _ _ _ _ Hroot Hdoc).
  rewrite (last_segment_dir _ Hd (segment_no_slash _ _ Hb Ht)).
  destruct (one_colon_fields _ _ Hbc Htc) as [-> _].
  cbn [first_nonempty]. unfold str_truthy.
  destruct (String.eqb_spec tag EmptyString); [contradiction | reflexivity].
Qed.

End BuilderToLoader.

Lemma loader_reads_builder_witness :
  exists root doc,
    @make_xml Mini.runtime "quay.io/ns/ee:1.0" sample_meta sample_rpms
      sample_pips sample_cols = Ok root
    /\ read_back root = Some doc
    /\ exists snap,
         @parse_image_xml Mini.runtime "xml-out/ee__1.0.xml" doc = Ok snap
         /\ snap_rpms snap = sorted_by tuple4_ltb rpm_sort_key sample_rpms
         /\ snap_pips snap
            = List.map pkg_text (sorted_by String.ltb pip_name_lower sample_pips)
         /\ snap_cols snap = sorted_by String.ltb col_sort_key sample_cols
         /\ attr (el_attrib doc) "reference" = "quay.io/ns/ee:1.0".
Proof.
  eexists. eexists.
  split; [vm_compute; reflexivity|]. split; [vm_compute; reflexivity|].
  eapply (@loader_reads_builder Mini.runtime "quay.io/ns/ee:1.0" sample_meta).
  - vm_compute; reflexivity.
  - vm_compute; reflexivity.
Defined.

Lemma tag_of_built_document_witness :
  exists root doc,
    @make_xml Mini.runtime "quay.io/ns/ee:1.0" sample_meta sample_rpms
      sample_pips sample_cols = Ok root
    /\ read_back root = Some doc
    /\ exists snap,
         @parse_image_xml Mini.runtime "renamed.xml" doc = Ok snap
         /\ snap_tag snap = "1.0".
Proof.
  eexists. eexists.
  split; [vm_compute; reflexivity|]. split; [vm_compute; reflexivity|].
  eapply (@tag_of_built_document Mini.runtime "quay.io/ns/" "ee" "1.0"
            sample_meta sample_rpms sample_pips sample_cols).
  - vm_compute; reflexivity.
  - vm_compute; reflexivity.
  - right. exists "quay.io/ns". reflexivity.
  - reflexivity.
  - reflexivity.
  - reflexivity.
  - reflexivity.
  - discriminate.
Defined.


(* ===================================================================== *)
(** * The differ: the index, equal contents, empty collections *)
(* ===================================================================== *)

Lemma find_app {A : Type} (p : A -> bool) (l1 l2 : list A) :
  List.find p (l1 ++ l2)
  = match List.find p l1 with
    | Some v => Some v
    | None => List.find p l2
    end.
Proof.
  induction l1 as [|x l1 IH]; cbn; [reflexivity|].
  destruct (p x); [reflexivity | exact IH].
Qed.

Lemma filter_filter_and {A : Type} (p q : A -> bool) (l : list A) :
  List.filter p (List.filter q l) = List.filter (fun x => q x && p x) l.
Proof.
  induction l as [|x l IH]; cbn; [reflexivity|].
  destruct (q x); cbn; [|exact IH].
  destruct (p x); [now f_equal | exact IH].
Qed.

Lemma filter_none {A : Type} (p : A -> bool) (l : list A) :
  (forall x, In x l -> p x = false) <-> List.filter p l = [].
Proof.
  induction l as [|x l IH]; cbn.
  - split; [reflexivity | now intros _ ? []].
  - split.
    + intros Hf. rewrite (Hf x) by now left. apply IH. intros y Hy.
      apply Hf. now right.
    + destruct (p x) eqn:E; [discriminate|]. intros Hf y [<-|Hy]; [exact E|].
      now apply IH.
Qed.

Section IndexOrder.
Context {K V : Type} `{EqKey K} (key : V -> K).

Lemma fold_index_get (l : list V) (d : PyDict.t (K := K) (V := V)) k :
  PyDict.get k (fold_left (fun d it => PyDict.set (key it) it d) l d)
  = match List.find (fun x => key_eqb k (key x)) (rev l) with
    | Some v => Some v
    | None => PyDict.get k d
    end.
Proof.
  revert d; induction l as [|x l IH]; intros d; [reflexivity|].
  cbn [fold_left rev]. rewrite IH, find_app.
  destruct (List.find _ (rev l)); [reflexivity|].
  cbn [List.find]. rewrite get_set.
  destruct (key_eqb k (key x)); reflexivity.
Qed.

Lemma existsb_key_In (k : K) (l : list K) :
  List.existsb (key_eqb k) l = true <-> In k l.
Proof.
  rewrite existsb_exists. split.
  - intros (x & Hx & E). destruct (key_eqb_spec k x); [now subst | discriminate].
  - intros Hk. exists k. split; [exact Hk|].
    destruct (key_eqb_spec k k); [reflexivity | contradiction].
Qed.

Lemma mem_existsb (k : K) (d : PyDict.t (K := K) (V := V)) :
  PyDict.mem k d = List.existsb (key_eqb k) (PyDict.keys d).
Proof.
  destruct (PyDict.mem k d) eqn:E1;
    destruct (List.existsb (key_eqb k) (PyDict.keys d)) eqn:E2; try reflexivity.
  - apply mem_iff, existsb_key_In in E1. congruence.
  - apply existsb_key_In, mem_iff in E2. congruence.
Qed.

Lemma fold_index_keys (l : list V) (d : PyDict.t (K := K) (V := V)) :
  PyDict.keys (fold_left (fun d it => PyDict.set (key it) it d) l d)
  = PyDict.keys d
    ++ List.filter (fun k => negb (List.existsb (key_eqb k) (PyDict.keys d)))
         (first_occurrences (List.map key l)).
Proof.
  revert d; induction l as [|x l IH]; intros d.
  - cbn. now rewrite app_nil_r.
  - cbn [fold_left List.map first_occurrences List.filter].
    rewrite IH, keys_set, filter_filter_and, mem_existsb.
    destruct (List.existsb (key_eqb (key x)) (PyDict.keys d)) eqn:Ex; cbn [negb].
    + f_equal. apply filter_ext. intros k.
      destruct (key_eqb_spec k (key x)) as [->|Hne]; cbn [negb andb];
        [now rewrite Ex | reflexivity].
    + rewrite <- app_assoc. cbn [app]. f_equal. f_equal.
      apply filter_ext. intros k. rewrite existsb_app. cbn [List.existsb].
      rewrite orb_false_r, negb_orb. apply andb_comm.
Qed.

End IndexOrder.

(** X16.  In the dictionary [index_by] builds, the record of a key is the
    last record of the list with that key, and the keys stand in the
    order of their first records. *)
Theorem index_by_last_wins {A K : Type} `{EqKey K} (items : list A)
  (keyfunc : A -> K) :
  (forall k, PyDict.get k (index_by items keyfunc)
             = List.find (fun x => key_eqb k (keyfunc x)) (rev items))
  /\ PyDict.keys (index_by items keyfunc)
     = first_occurrences (List.map keyfunc items).
Proof.
  unfold index_by. split.
  - intros k. rewrite fold_index_get.
    now destruct (List.find _ (rev items)).
  - rewrite fold_index_keys. cbn [PyDict.keys List.map app List.existsb negb].
    clear. induction (first_occurrences (List.map keyfunc items)) as [|x l IH];
      [reflexivity|]. cbn. now f_equal.
Qed.

Section DiffContents.
Context {K V : Type} {E : EqKey K} {S : DiffStyle K V}.

Lemma lines_of_nil c (old new : PyDict.t (K := K) (V := V)) :
  lines_of c old new = [] <-> forall k, classify old new k <> Some c.
Proof.
  unfold lines_of. split.
  - intros Hl k Hk. apply In_keys_of in Hk.
    destruct (keys_of c old new); [contradiction | discriminate].
  - intros Hc. destruct (keys_of c old new) as [|k ks] eqn:Ek; [reflexivity|].
    exfalso. apply (Hc k). apply In_keys_of. rewrite Ek. now left.
Qed.

Lemma diff_by_no_diff (old_list new_list : list V) :
  diff_by old_list new_list = no_diff
  <-> forall k c, c <> Unchanged ->
        classify (index_by old_list key) (index_by new_list key) k <> Some c.
Proof.
  rewrite diff_by_lines. cbv zeta. unfold no_diff. split.
  - intros [= Ha Hr Hu Hd] k c Hc.
    destruct c; [| | | |contradiction]; now apply lines_of_nil.
  - intros Hc.
    assert (Hn : forall c, c <> Unchanged ->
              lines_of c (index_by old_list key) (index_by new_list key) = []).
    { intros c Hne. apply lines_of_nil. intros k. now apply Hc. }
    rewrite !Hn by discriminate. reflexivity.
Qed.

Lemma get_index_some (l : list V) k :
  PyDict.get k (index_by l key) <> None <-> In k (List.map key l).
Proof.
  rewrite <- In_keys_index_by. split.
  - intros Hg. destruct (in_dec key_eq_dec k (PyDict.keys (index_by l key)))
      as [Hi|Hn]; [exact Hi|]. now apply get_none_iff in Hn.
  - intros Hi Hg. now apply get_none_iff in Hg.
Qed.

Lemma diff_by_same_content (a b : list V) :
  diff_by a b = no_diff <-> same_content S a b.
Proof.
  rewrite diff_by_no_diff. unfold same_content, classify. split.
  - intros Hc. split.
    + intros k. rewrite <- !get_index_some. split; intros Hk Hn.
      * destruct (PyDict.get k (index_by a key)) as [ov|] eqn:Ea; [|congruence].
        apply (Hc k Removed); [discriminate|]. now rewrite Ea, Hn.
      * destruct (PyDict.get k (index_by b key)) as [nv|] eqn:Eb; [|congruence].
        apply (Hc k Added); [discriminate|]. now rewrite Eb, Hn.
    + intros k ov nv Ha Hb.
      destruct (String.eqb_spec (ver ov) (ver nv)) as [Heq|Hne]; [exact Heq|].
      exfalso. destruct (String.ltb (ver ov) (ver nv)) eqn:El.
      * apply (Hc k Upgraded); [discriminate|]. rewrite Ha, Hb.
        destruct (String.eqb_spec (ver ov) (ver nv)); [contradiction|].
        now rewrite El.
      * apply (Hc k Downgraded); [discriminate|]. rewrite Ha, Hb.
        destruct (String.eqb_spec (ver ov) (ver nv)); [contradiction|].
        now rewrite El.
  - intros [Hk Hv] k c Hc.
    destruct (PyDict.get k (index_by a key)) as [ov|] eqn:Ea;
      destruct (PyDict.get k (index_by b key)) as [nv|] eqn:Eb.
    + rewrite (Hv k ov nv Ea Eb), String.eqb_refl. congruence.
    + exfalso. assert (Hin : In k (List.map key a))
        by (apply get_index_some; congruence).
      apply Hk, get_index_some in Hin. contradiction.
    + exfalso. assert (Hin : In k (List.map key b))
        by (apply get_index_some; congruence).
      apply Hk, get_index_some in Hin. contradiction.
    + discriminate.
Qed.

Lemma same_content_refl (l : list V) : same_content S l l.
Proof.
  split; [reflexivity|]. intros k ov nv Ha Hb. congruence.
Qed.

Lemma new_loop_from_nothing (items : list (K * V)) a u d :
  fold_left (new_step_by []) items (a, u, d)
  = (a ++ List.map add_line (List.map snd items), u, d).
Proof.
  revert a; induction items as [|[k v] items IH]; intros a; cbn [fold_left].
  - cbn. now rewrite app_nil_r.
  - cbn [new_step_by PyDict.get]. rewrite IH. cbn. now rewrite <- app_assoc.
Qed.

Lemma old_loop_to_nothing (items : list (K * V)) r :
  fold_left (old_step_by []) items r
  = r ++ List.map rem_line (List.map snd items).
Proof.
  revert r; induction items as [|[k v] items IH]; intros r; cbn [fold_left].
  - cbn. now rewrite app_nil_r.
  - cbn [old_step_by]. unfold PyDict.mem. cbn [PyDict.get]. rewrite IH.
    cbn. now rewrite <- app_assoc.
Qed.

Lemma diff_by_nothing (l : list V) :
  diff_by [] l = (List.map add_line (List.map snd (index_by l key)), [], [], [])
  /\ diff_by l []
     = ([], List.map rem_line (List.map snd (index_by l key)), [], []).
Proof.
  unfold diff_by. split.
  - change (index_by [] key) with (@nil (K * V)).
    rewrite new_loop_from_nothing. reflexivity.
  - change (index_by [] key) with (@nil (K * V)).
    rewrite old_loop_to_nothing. reflexivity.
Qed.

End DiffContents.

(** X17.  Each differ returns four empty lists exactly when the two
    collections have the same identity keys and, key by key, the same
    effective version; so it does for a collection and itself, and the
    cell is then the [No changes] marker. *)
Theorem no_changes_iff :
  (forall a b, diff_rpms a b = no_diff <-> same_content rpm_style a b)
  /\ (forall a b, diff_simple_pkgs a b = no_diff <-> same_content pkg_style a b)
  /\ (forall l, diff_rpms l l = no_diff)
  /\ (forall l, diff_simple_pkgs l l = no_diff)
  /\ cell_html no_diff = no_changes_marker.
Proof.
  split; [|split; [|split; [|split]]].
  - intros a b. rewrite diff_rpms_by. apply diff_by_same_content.
  - intros a b. rewrite diff_simple_pkgs_by. apply diff_by_same_content.
  - intros l. rewrite diff_rpms_by. apply diff_by_same_content.
    apply same_content_refl.
  - intros l. rewrite diff_simple_pkgs_by. apply diff_by_same_content.
    apply same_content_refl.
  - reflexivity.
Qed.

(** X18.  Against an empty collection each differ lists every identity
    key once, with the last record of the key, in the order the keys
    first appear: as added when the old collection is empty, as removed
    when the new one is; the other three lists are empty. *)
Theorem diff_against_nothing :
  (forall l,
     diff_rpms [] l
     = (List.map rpm_add_line (List.map snd (index_by l rpm_key_name_arch)),
        [], [], [])
     /\ diff_rpms l []
        = ([], List.map rpm_rem_line
                 (List.map snd (index_by l rpm_key_name_arch)), [], []))
  /\ (forall l,
        diff_simple_pkgs [] l
        = (List.map pkg_add_line (List.map snd (index_by l simple_key)),
           [], [], [])
        /\ diff_simple_pkgs l []
           = ([], List.map pkg_rem_line (List.map snd (index_by l simple_key)),
              [], [])).
Proof.
  split; intros l.
  - rewrite !diff_rpms_by. exact (diff_by_nothing (S := rpm_style) l).
  - rewrite !diff_simple_pkgs_by. exact (diff_by_nothing (S := pkg_style) l).
Qed.

(* ===================================================================== *)
(** * The report: which snapshots can be ordered *)
(* ===================================================================== *)

Lemma naive_or_aware (d : datetime) : naive d \/ aware d.
Proof.
  unfold naive, aware. destruct (dt_utcoffset d); [right; discriminate | now left].
Qed.

Lemma entry_key_lt_aware (x y : entry_key) :
  aware (fst x) -> aware (fst y) -> entry_key_lt x y = Ok (entry_key_ltb x y).
Proof.
  unfold aware, entry_key_ltb, entry_key_lt, dt_eqb, dt_lt.
  destruct (dt_utcoffset (fst x)); [|congruence].
  destruct (dt_utcoffset (fst y)); [|congruence]. intros _ _.
  destruct (_ =? _)%Z; [|reflexivity].
  destruct (String.eqb (snd x) (snd y)); reflexivity.
Qed.

Lemma entry_key_lt_naive_total (x y : entry_key) :
  naive (fst x) -> naive (fst y) -> entry_key_lt x y = Ok (entry_key_ltb x y).
Proof.
  unfold naive, entry_key_ltb, entry_key_lt, dt_eqb, dt_lt.
  intros -> ->.
  destruct (_ =? _)%N; [|reflexivity].
  destruct (String.eqb (snd x) (snd y)); reflexivity.
Qed.

Lemma entry_key_lt_mixed (x y : entry_key) :
  naive (fst x) -> aware (fst y) ->
  entry_key_lt x y = Raise TypeError /\ entry_key_lt y x = Raise TypeError.
Proof.
  unfold naive, aware, entry_key_lt, dt_eqb, dt_lt. intros ->.
  destruct (dt_utcoffset (fst y)); [|congruence]. now intros _.
Qed.

Section KeyedSnapshots.
Implicit Types (l : list (entry_key * snapshot)).

Lemma kinds_of_keys l :
  Forall (fun y => naive (fst (fst y))) l
  \/ Forall (fun y => aware (fst (fst y))) l
  \/ keyed_mixed l.
Proof.
  induction l as [|x l IH]; [left; constructor|].
  destruct (naive_or_aware (fst (fst x))) as [Hx|Hx];
    destruct IH as [Hn|[Ha|Hm]].
  - left. now constructor.
  - destruct l as [|y l]; [left; repeat constructor; exact Hx|].
    right. right. exists x, y. repeat split; [now left | right; now left | exact Hx|].
    now inversion Ha.
  - right. right. destruct Hm as (a & b & Ha & Hb & Hna & Hab).
    exists a, b. repeat split; auto; now right.
  - destruct l as [|y l]; [right; left; repeat constructor; exact Hx|].
    right. right. exists y, x. repeat split; [right; now left | now left | | exact Hx].
    now inversion Hn.
  - right. left. now constructor.
  - right. right. destruct Hm as (a & b & Ha & Hb & Hna & Hab).
    exists a, b. repeat split; auto; now right.
Qed.

Lemma sort_keys_one_kind l :
  Forall (fun y => naive (fst (fst y))) l
  \/ Forall (fun y => aware (fst (fst y))) l ->
  sort_keyed_exc entry_key_lt l = Ok (sort_keyed entry_key_ltb l).
Proof.
  intros [Hn|Ha].
  - apply (sort_keyed_exc_pure entry_key_lt entry_key_ltb
             (fun k => naive (fst k))); [|exact Hn].
    intros a b. apply entry_key_lt_naive_total.
  - apply (sort_keyed_exc_pure entry_key_lt entry_key_ltb
             (fun k => aware (fst k))); [|exact Ha].
    intros a b. apply entry_key_lt_aware.
Qed.

Lemma insert_other_kind (x : entry_key * snapshot) l :
  l <> [] ->
  (naive (fst (fst x)) /\ Forall (fun y => aware (fst (fst y))) l)
  \/ (aware (fst (fst x)) /\ Forall (fun y => naive (fst (fst y))) l) ->
  insert_keyed_exc entry_key_lt x l = Raise TypeError.
Proof.
  destruct l as [|y l]; [congruence|]. intros _ Hk. cbn [insert_keyed_exc].
  destruct Hk as [[Hx Hl]|[Hx Hl]]; inversion Hl; subst.
  - now rewrite (proj2 (entry_key_lt_mixed (fst x) (fst y) Hx H1)).
  - now rewrite (proj1 (entry_key_lt_mixed (fst y) (fst x) H1 Hx)).
Qed.

Lemma sort_keys_mixed l :
  keyed_mixed l -> sort_keyed_exc entry_key_lt l = Raise TypeError.
Proof.
  induction l as [|x l IH]; [now intros (a & b & [] & _)|].
  intros Hm. cbn [sort_keyed_exc].
  destruct (kinds_of_keys l) as [Hn|[Ha|Hl]].
  - rewrite (sort_keys_one_kind (or_introl Hn)). cbn [bind].
    destruct Hm as (a & b & Ha & Hb & Hna & Hab).
    assert (Hbx : b = x).
    { destruct Hb as [Hb|Hb]; [now subst|]. exfalso.
      rewrite Forall_forall in Hn. now apply Hab, Hn. }
    subst b. apply insert_other_kind.
    + intros Hnil. apply (f_equal (@List.length _)) in Hnil.
      rewrite (Permutation_length (sort_keyed_perm entry_key_ltb l)) in Hnil.
      destruct Ha as [->|Ha]; [now apply Hab|]. now destruct l.
    + right. split; [exact Hab|].
      rewrite Forall_forall in *. intros y Hy. apply Hn.
      now apply (Permutation_in _ (sort_keyed_perm entry_key_ltb l)).
  - rewrite (sort_keys_one_kind (or_intror Ha)). cbn [bind].
    destruct Hm as (a & b & Hina & Hinb & Hna & Hab).
    assert (Hax : a = x).
    { destruct Hina as [Hi|Hi]; [now subst|]. exfalso.
      rewrite Forall_forall in Ha. now apply (Ha a Hi). }
    subst a. apply insert_other_kind.
    + intros Hnil. apply (f_equal (@List.length _)) in Hnil.
      rewrite (Permutation_length (sort_keyed_perm entry_key_ltb l)) in Hnil.
      destruct Hinb as [->|Hinb]; [now apply Hab|]. now destruct l.
    + left. split; [exact Hna|].
      rewrite Forall_forall in *. intros y Hy. apply Ha.
      now apply (Permutation_in _ (sort_keyed_perm entry_key_ltb l)).
  - now rewrite (IH Hl).
Qed.

End KeyedSnapshots.

Lemma mixed_keyed (entries : list snapshot) :
  mixed entries
  <-> keyed_mixed (List.map (fun e => (entry_sort_key e, e)) entries).
Proof.
  unfold mixed, keyed_mixed. split.
  - intros (a & b & Ha & Hb & Hna & Hab).
    exists (entry_sort_key a, a), (entry_sort_key b, b).
    repeat split; try (apply in_map_iff; eauto); assumption.
  - intros (a & b & Ha & Hb & Hna & Hab).
    apply in_map_iff in Ha as (a' & <- & Ha).
    apply in_map_iff in Hb as (b' & <- & Hb).
    now exists a', b'.
Qed.

Lemma sort_entries_cases (entries : list snapshot) :
  (mixed entries /\ sort_entries entries = Raise TypeError)
  \/ (~ mixed entries
      /\ exists sorted, sort_entries entries = Ok sorted
                        /\ Permutation sorted entries).
Proof.
  unfold sort_entries.
  destruct (kinds_of_keys (List.map (fun e => (entry_sort_key e, e)) entries))
    as [Hn|[Ha|Hm]].
  - right. split.
    + intros Hm. apply mixed_keyed in Hm as (a & b & _ & Hb & _ & Hab).
      rewrite Forall_forall in Hn. now apply Hab, Hn.
    + rewrite (sort_keys_one_kind (or_introl Hn)). cbn [bind].
      eexists. split; [reflexivity|].
      rewrite (Permutation_map snd (sort_keyed_perm entry_key_ltb _)).
      rewrite map_map. cbn [snd]. now rewrite map_id.
  - right. split.
    + intros Hm. apply mixed_keyed in Hm as (a & b & Hina & _ & Hna & _).
      rewrite Forall_forall in Ha. now apply (Ha a Hina).
    + rewrite (sort_keys_one_kind (or_intror Ha)). cbn [bind].
      eexists. split; [reflexivity|].
      rewrite (Permutation_map snd (sort_keyed_perm entry_key_ltb _)).
      rewrite map_map. cbn [snd]. now rewrite map_id.
  - left. split; [now apply mixed_keyed|].
    now rewrite (sort_keys_mixed Hm).
Qed.

(** X19.  [build_report] raises exactly when a naive and an aware
    timestamp are both among the snapshots, and what it raises is
    [TypeError]; in every other case, the empty list included, it returns
    the report. *)
Theorem build_report_raises_iff (entries : list snapshot) :
  (forall e, build_report entries = Raise e <-> e = TypeError /\ mixed entries)
  /\ ((exists html, build_report entries = Ok html) <-> ~ mixed entries).
Proof.
  rewrite build_report_escaped.
  destruct (sort_entries_cases entries) as [[Hm ->]|[Hm (sorted & -> & _)]];
    cbn [bind].
  - split.
    + intros e. split; [now intros [= <-] | now intros [-> _]].
    + split; [intros [html Hh]; discriminate | contradiction].
  - split.
    + intros e. split; [discriminate | now intros [_ Hx]].
    + split; [now intros _ | intros _; eauto].
Qed.

Lemma cells_after_length (prev : snapshot) (rest : list snapshot) :
  let '(r, p, c) := cells_after prev rest in
  List.length r = List.length rest /\ List.length p = List.length rest
  /\ List.length c = List.length rest.
Proof.
  revert prev; induction rest as [|e rest IH]; intros prev; cbn [cells_after].
  - now repeat split.
  - specialize (IH e). destruct (cells_after e rest) as [[r p] c].
    cbn [List.length]. destruct IH as (-> & -> & ->). now repeat split.
Qed.

(** X20.  When no naive timestamp stands beside an aware one, the report
    is built from the snapshots in some order ([sorted]): its header has
    one escaped tag per snapshot, each of its three rows one cell per
    snapshot, and the cell under the first snapshot is empty in every
    row. *)
Theorem report_shape (entries : list snapshot) :
  ~ mixed entries ->
  exists sorted r p c,
    Permutation sorted entries
    /\ build_report entries
       = Ok (report_markup (List.map escape (List.map snap_tag sorted)) (r, p, c))
    /\ List.length r = List.length entries
    /\ List.length p = List.length entries
    /\ List.length c = List.length entries
    /\ (entries <> [] ->
        hd_error r = Some EmptyString /\ hd_error p = Some EmptyString
        /\ hd_error c = Some EmptyString).
Proof.
  intros Hm. rewrite build_report_escaped.
  destruct (sort_entries_cases entries) as [[Hx _]|[_ (sorted & -> & Hp)]];
    [contradiction|].
  cbn [bind]. exists sorted.
  pose proof (Permutation_length Hp) as Hlen.
  destruct sorted as [|e rest].
  - assert (entries = []) as -> by (destruct entries; [reflexivity | discriminate]).
    exists [], [], []. cbn [cells_of].
    split; [exact Hp|]. split; [reflexivity|]. split; [reflexivity|].
    split; [reflexivity|]. split; [reflexivity|].
    intros Hne. now contradiction Hne.
  - cbn [cells_of]. pose proof (cells_after_length e rest) as Hc.
    destruct (cells_after e rest) as [[r p] c]. destruct Hc as (Hr & Hpl & Hcl).
    exists (EmptyString :: r), (EmptyString :: p), (EmptyString :: c).
    cbn [List.length hd_error] in *. rewrite Hr, Hpl, Hcl, <- Hlen.
    split; [exact Hp|]. split; [reflexivity|]. split; [reflexivity|].
    split; [reflexivity|]. split; [reflexivity|].
    intros _. auto.
Qed.

Lemma report_shape_witness :
  exists sorted r p c,
    Permutation sorted
      [mk_snapshot "b.xml" "2.0" (mk_datetime 7 None) [] [] [];
       mk_snapshot "a.xml" "1.0" datetime_min [] [] []]
    /\ build_report
         [mk_snapshot "b.xml" "2.0" (mk_datetime 7 None) [] [] [];
          mk_snapshot "a.xml" "1.0" datetime_min [] [] []]
       = Ok (report_markup (List.map escape (List.map snap_tag sorted)) (r, p, c))
    /\ List.length r = 2 /\ List.length p = 2 /\ List.length c = 2
    /\ ([mk_snapshot "b.xml" "2.0" (mk_datetime 7 None) [] [] [];
         mk_snapshot "a.xml" "1.0" datetime_min [] [] []] <> [] ->
        hd_error r = Some EmptyString /\ hd_error p = Some EmptyString
        /\ hd_error c = Some EmptyString).
Proof.
  apply (@report_shape
           [mk_snapshot "b.xml" "2.0" (mk_datetime 7 None) [] [] [];
            mk_snapshot "a.xml" "1.0" datetime_min [] [] []]).
  intros (a & b & Ha & Hb & Hna & Hab).
  destruct Hb as [<-|[<-|[]]]; apply Hab; reflexivity.
Defined.

(* ===================================================================== *)
(** * The RPM parser: lines and records *)
(* ===================================================================== *)

Lemma all_chars_weaken (p q : ascii -> bool) (s : string) :
  (forall c, p c = true -> q c = true) ->
  all_chars p s = true -> all_chars q s = true.
Proof.
  intros Hpq. induction s as [|c s IH]; cbn; [reflexivity|].
  intros Hs. apply andb_prop in Hs as [Hc Hs].
  now rewrite (Hpq _ Hc), IH.
Qed.

Lemma partition_char_none_iff (c : ascii) (s : string) :
  PyStr.partition (String c EmptyString) s = None
  <-> all_chars (fun d => negb (Ascii.eqb c d)) s = true.
Proof.
  induction s as [|d s IH]; [now split|].
  rewrite partition_char_cons. cbn [all_chars].
  destruct (Ascii.eqb c d); cbn [negb andb]; [split; discriminate|].
  rewrite <- IH.
  destruct (PyStr.partition (String c EmptyString) s) as [[b a]|];
    split; congruence.
Qed.

Lemma all_chars_lstrip (p : ascii -> bool) (s : string) :
  all_chars p s = true -> all_chars p (PyStr.lstrip s) = true.
Proof.
  induction s as [|c s IH]; cbn; [reflexivity|].
  intros Hs. destruct (PyStr.is_space c); [|exact Hs].
  apply andb_prop in Hs as [_ Hs]. now apply IH.
Qed.

Lemma all_chars_rstrip (p : ascii -> bool) (s : string) :
  all_chars p s = true -> all_chars p (PyStr.rstrip s) = true.
Proof.
  induction s as [|c s IH]; cbn [PyStr.rstrip all_chars]; [reflexivity|].
  intros Hs. apply andb_prop in Hs as [Hc Hs]. specialize (IH Hs).
  destruct (PyStr.rstrip s) as [|d r].
  - destruct (PyStr.is_space c); cbn; [reflexivity | now rewrite Hc].
  - cbn [all_chars] in *. now rewrite Hc.
Qed.

Lemma all_chars_strip (p : ascii -> bool) (s : string) :
  all_chars p s = true -> all_chars p (PyStr.strip s) = true.
Proof. intros Hs. now apply all_chars_rstrip, all_chars_lstrip. Qed.

Lemma strip_no_space (s : string) :
  all_chars (fun c => negb (PyStr.is_space c)) s = true -> PyStr.strip s = s.
Proof.
  intros Hs. unfold PyStr.strip.
  assert (Hl : PyStr.lstrip s = s).
  { destruct s as [|c s]; [reflexivity|]. cbn in *.
    now destruct (PyStr.is_space c). }
  rewrite Hl. clear Hl.
  induction s as [|c s IH]; [reflexivity|].
  cbn [all_chars] in Hs. apply andb_prop in Hs as [Hc Hs].
  cbn [PyStr.rstrip]. rewrite (IH Hs).
  destruct s; [|reflexivity].
  now destruct (PyStr.is_space c).
Qed.

Section SplitAtOneChar.
Variable c : ascii.
Let sep : string := String c EmptyString.

Lemma partition_char_shorter s b a :
  PyStr.partition sep s = Some (b, a) -> String.length a < String.length s.
Proof.
  intros Hp. apply partition_length in Hp. unfold sep in Hp. cbn in Hp. lia.
Qed.

Lemma split_fuel_enough n m s :
  String.length s <= n -> String.length s <= m ->
  PyStr.split_fuel n sep s = PyStr.split_fuel m sep s.
Proof.
  revert m s; induction n as [|n IH]; intros m s Hn Hm.
  - destruct s; [|cbn in Hn; lia]. destruct m; reflexivity.
  - cbn [PyStr.split_fuel].
    destruct (PyStr.partition sep s) as [[b a]|] eqn:Ep.
    + pose proof (partition_char_shorter _ Ep) as Hlt.
      destruct m as [|m]; [lia|]. cbn [PyStr.split_fuel]. rewrite Ep.
      f_equal. apply IH; lia.
    + destruct m; cbn [PyStr.split_fuel]; [reflexivity | now rewrite Ep].
Qed.

Lemma split_cons b a :
  PyStr.partition sep b = None ->
  PyStr.split sep (b +++ String c a) = b :: PyStr.split sep a.
Proof.
  intros Hb. unfold PyStr.split. rewrite length_append. cbn [String.length].
  rewrite Nat.add_succ_r. cbn [PyStr.split_fuel].
  unfold sep. rewrite (partition_first c b a Hb). f_equal.
  apply split_fuel_enough; lia.
Qed.

Lemma split_none s :
  PyStr.partition sep s = None -> PyStr.split sep s = [s].
Proof.
  intros Hs. unfold PyStr.split.
  destruct (String.length s); cbn [PyStr.split_fuel]; [reflexivity|].
  now rewrite Hs.
Qed.

Lemma split_fuel_no_sep n s :
  String.length s <= n ->
  Forall (fun f => PyStr.partition sep f = None) (PyStr.split_fuel n sep s).
Proof.
  revert s; induction n as [|n IH]; intros s Hn.
  - destruct s; [|cbn in Hn; lia]. now repeat constructor.
  - cbn [PyStr.split_fuel].
    destruct (PyStr.partition sep s) as [[b a]|] eqn:Ep.
    + constructor.
      * apply (@partition_before sep s b a); [discriminate | exact Ep].
      * apply IH. pose proof (partition_char_shorter _ Ep). lia.
    + now repeat constructor.
Qed.

End SplitAtOneChar.

Lemma linebreak_is_space (c : ascii) :
  PyStr.is_linebreak c = true -> PyStr.is_space c = true.
Proof.
  unfold PyStr.is_linebreak, PyStr.is_space. cbv zeta.
  generalize (nat_of_ascii c). intros n.
  rewrite !orb_true_iff, !andb_true_iff, !Nat.leb_le. lia.
Qed.

Lemma splitlines_line (line rest cur : string) (open : bool) :
  all_chars (fun c => negb (PyStr.is_linebreak c)) line = true ->
  PyStr.splitlines_go (line +++ String PyStr.LF rest) cur open
  = (cur +++ line) :: PyStr.splitlines_go rest EmptyString false.
Proof.
  revert cur open; induction line as [|c line IH]; intros cur open Hl.
  - cbn [String.append PyStr.splitlines_go].
    change (PyStr.is_linebreak PyStr.LF) with true. cbv iota.
    rewrite append_empty_r.
    destruct rest as [|d rest]; [reflexivity|].
    change (Ascii.eqb PyStr.LF PyStr.CR) with false. reflexivity.
  - cbn [all_chars] in Hl. apply andb_prop in Hl as [Hc Hl].
    cbn [String.append PyStr.splitlines_go].
    destruct (PyStr.is_linebreak c); [discriminate|].
    rewrite (IH _ _ Hl). now rewrite append_assoc.
Qed.

Lemma parse_rpm_line_record (items : list rpm) (line : string) :
  parse_rpm_line items line = items ++ rpm_line_record line.
Proof.
  unfold parse_rpm_line, rpm_line_record. cbv zeta.
  destruct (negb (str_truthy (PyStr.strip line))
            || negb (PyStr.contains "|" (PyStr.strip line))) eqn:Eg.
  - assert (Hs : PyStr.split "|" (PyStr.strip line) = [PyStr.strip line]).
    { apply orb_prop in Eg as [Eg|Eg].
      - unfold str_truthy in Eg. rewrite negb_involutive in Eg.
        apply String.eqb_eq in Eg. now rewrite Eg.
      - apply negb_true_iff, contains_false in Eg. now apply split_none. }
    rewrite Hs. cbn. now rewrite app_nil_r.
  - destruct (List.map PyStr.strip (PyStr.split "|" (PyStr.strip line)))
      as [|n [|e [|v [|r [|a [|x l]]]]]]; try (now rewrite app_nil_r).
    reflexivity.
Qed.

Lemma parse_rpm_lines_loop (lines : list string) (items : list rpm) :
  fold_left parse_rpm_line lines items
  = items ++ List.flat_map rpm_line_record lines.
Proof.
  revert items; induction lines as [|l lines IH]; intros items;
    cbn [fold_left flat_map].
  - now rewrite app_nil_r.
  - now rewrite IH, parse_rpm_line_record, <- app_assoc.
Qed.

Lemma no_pipe_strip (f : string) :
  PyStr.partition "|" f = None -> PyStr.contains "|" (PyStr.strip f) = false.
Proof.
  intros Hf. apply contains_false. apply partition_char_none_iff.
  apply all_chars_strip. now apply partition_char_none_iff.
Qed.

Lemma rpm_line_record_fields (line : string) :
  Forall (fun r => rpm_epoch r <> "(none)"
                   /\ Forall (fun f => PyStr.contains "|" f = false)
                        (rpm_fields r))
    (rpm_line_record line)
  /\ List.length (rpm_line_record line) <= 1.
Proof.
  unfold rpm_line_record.
  pose proof (@split_fuel_no_sep "|"%char (String.length (PyStr.strip line))
                (PyStr.strip line) (le_n _)) as Hf.
  fold (PyStr.split "|" (PyStr.strip line)) in Hf.
  destruct (PyStr.split "|" (PyStr.strip line))
    as [|n [|e [|v [|r [|a [|x l]]]]]]; cbn [List.map];
    (split; [|cbn [List.length]; lia]); try (now constructor).
  constructor; [|constructor].
  inversion Hf as [|? ? Hn Hf1]; subst. inversion Hf1 as [|? ? He Hf2]; subst.
  inversion Hf2 as [|? ? Hv Hf3]; subst. inversion Hf3 as [|? ? Hr Hf4]; subst.
  inversion Hf4 as [|? ? Ha _]; subst.
  cbn [rpm_epoch rpm_fields rpm_name rpm_version rpm_release rpm_arch]. split.
  - destruct (str_truthy (PyStr.strip e)); cbn [andb]; [|discriminate].
    destruct (String.eqb_spec (PyStr.strip e) "(none)"); cbn [negb];
      [discriminate | assumption].
  - repeat constructor; try (now apply no_pipe_strip).
    destruct (str_truthy (PyStr.strip e) && negb (String.eqb (PyStr.strip e) "(none)"));
      [now apply no_pipe_strip | reflexivity].
Qed.

(** X21.  [parse_rpm_lines] gives, line by line and in order, one record
    for a line that splits into five fields at [|] and nothing for any
    other line (the test for an empty line or a line without [|] changes
    nothing).  No record has the epoch [(none)], no field of a record
    contains [|], and there are at most as many records as lines. *)
Theorem parse_rpm_lines_records (text : string) :
  parse_rpm_lines text
  = List.flat_map rpm_line_record (PyStr.splitlines text)
  /\ Forall (fun r => rpm_epoch r <> "(none)"
                      /\ Forall (fun f => PyStr.contains "|" f = false)
                           (rpm_fields r))
       (parse_rpm_lines text)
  /\ List.length (parse_rpm_lines text)
     <= List.length (PyStr.splitlines text).
Proof.
  unfold parse_rpm_lines. rewrite parse_rpm_lines_loop. cbn [app].
  split; [reflexivity|]. split.
  - apply Forall_flat_map, Forall_forall. intros l _.
    apply rpm_line_record_fields.
  - induction (PyStr.splitlines text) as [|l ls IH]; [reflexivity|].
    cbn [flat_map List.length]. rewrite length_app.
    pose proof (proj2 (rpm_line_record_fields l)). lia.
Qed.

Lemma clean_field_no_pipe (f : string) :
  all_chars rpm_field_char f = true -> PyStr.partition "|" f = None.
Proof.
  intros Hf. apply partition_char_none_iff.
  apply (all_chars_weaken rpm_field_char); [|exact Hf].
  intros c Hc. unfold rpm_field_char in Hc. apply andb_prop in Hc as [_ Hc].
  now rewrite Ascii.eqb_sym.
Qed.

Lemma clean_field_no_space (f : string) :
  all_chars rpm_field_char f = true ->
  all_chars (fun c => negb (PyStr.is_space c)) f = true.
Proof.
  apply all_chars_weaken. intros c Hc. unfold rpm_field_char in Hc.
  now apply andb_prop in Hc as [Hc _].
Qed.

Lemma clean_field_strip (f : string) :
  all_chars rpm_field_char f = true -> PyStr.strip f = f.
Proof. intros Hf. now apply strip_no_space, clean_field_no_space. Qed.

Lemma parse_clean_line (items : list rpm) (r : rpm) :
  clean_rpm r -> parse_rpm_line items (rpm_line r) = items ++ [r].
Proof.
  intros [Hf He]. destruct r as [n e v rl a].
  unfold rpm_fields in Hf. cbn [rpm_name rpm_epoch rpm_version rpm_release
    rpm_arch] in *.
  inversion Hf as [|? ? Hn Hf1]; subst. inversion Hf1 as [|? ? Hep Hf2]; subst.
  inversion Hf2 as [|? ? Hv Hf3]; subst. inversion Hf3 as [|? ? Hr Hf4]; subst.
  inversion Hf4 as [|? ? Ha _]; subst. clear Hf Hf1 Hf2 Hf3 Hf4.
  rewrite parse_rpm_line_record. f_equal.
  unfold rpm_line_record, rpm_line. cbn [rpm_name rpm_epoch rpm_version
    rpm_release rpm_arch].
  assert (Hline : PyStr.strip (n +++ "|" +++ e +++ "|" +++ v +++ "|" +++ rl
                               +++ "|" +++ a)
                  = n +++ "|" +++ e +++ "|" +++ v +++ "|" +++ rl +++ "|" +++ a).
  { apply strip_no_space.
    repeat (rewrite all_chars_app; apply andb_true_intro; split;
            [now apply clean_field_no_space|];
            cbn [String.append all_chars];
            change (negb (PyStr.is_space "|")) with true; cbn [andb]).
    now apply clean_field_no_space. }
  rewrite Hline. cbn [String.append].
  rewrite !(split_cons "|"%char) by now apply clean_field_no_pipe.
  rewrite (split_none "|"%char) by now apply clean_field_no_pipe.
  cbn [List.map]. rewrite !clean_field_strip by assumption.
  unfold str_truthy.
  destruct (String.eqb_spec e "(none)") as [|_]; [contradiction|].
  destruct (String.eqb_spec e EmptyString) as [->|_]; reflexivity.
Qed.

Lemma splitlines_rpm_text (rs : list rpm) :
  Forall clean_rpm rs ->
  PyStr.splitlines (rpm_text rs) = List.map rpm_line rs.
Proof.
  unfold PyStr.splitlines, rpm_text.
  induction rs as [|r rs IH]; intros Hrs; [reflexivity|].
  inversion Hrs as [|? ? Hr Hrs']; subst.
  cbn [List.map join fold_right]. rewrite append_assoc. unfold NL.
  cbn [String.append]. rewrite splitlines_line.
  - cbn [String.append]. f_equal. now apply IH.
  - destruct Hr as [Hf _]. destruct r as [n e v rl a].
    unfold rpm_fields in Hf. cbn [rpm_name rpm_epoch rpm_version rpm_release
      rpm_arch] in Hf. unfold rpm_line. cbn [rpm_name rpm_epoch rpm_version
      rpm_release rpm_arch].
    assert (Hc : forall f, all_chars rpm_field_char f = true ->
                 all_chars (fun c => negb (PyStr.is_linebreak c)) f = true).
    { intros f. apply all_chars_weaken. intros c Hc.
      unfold rpm_field_char in Hc. apply andb_prop in Hc as [Hc _].
      destruct (PyStr.is_linebreak c) eqn:El; [|reflexivity].
      now rewrite (linebreak_is_space _ El) in Hc. }
    inversion Hf as [|? ? Hn Hf1]; subst. inversion Hf1 as [|? ? Hep Hf2]; subst.
    inversion Hf2 as [|? ? Hv Hf3]; subst. inversion Hf3 as [|? ? Hr Hf4]; subst.
    inversion Hf4 as [|? ? Ha _]; subst.
    repeat (rewrite all_chars_app; apply andb_true_intro; split;
            [now apply Hc|];
            cbn [String.append all_chars];
            change (negb (PyStr.is_linebreak "|")) with true; cbn [andb]).
    now apply Hc.
Qed.

(** X22.  The text that the query format of the collector gives for
    records whose fields have no white space and no [|], and whose epoch
    is not [(none)], is parsed back into these records, in order. *)
Theorem parse_rpm_lines_round_trip (rs : list rpm) :
  Forall clean_rpm rs -> parse_rpm_lines (rpm_text rs) = rs.
Proof.
  intros Hrs. unfold parse_rpm_lines. rewrite (splitlines_rpm_text Hrs).
  assert (Hloop : forall items,
            fold_left parse_rpm_line (List.map rpm_line rs) items = items ++ rs).
  { induction Hrs as [|r rs Hr Hrs IH]; intros items; cbn [List.map fold_left].
    - now rewrite app_nil_r.
    - rewrite (parse_clean_line _ Hr), IH. now rewrite <- app_assoc. }
  apply Hloop.
Qed.

Lemma parse_rpm_lines_round_trip_witness :
  parse_rpm_lines
    (rpm_text [mk_rpm "bash" "0" "5.1.8" "6.el9" "x86_64";
               mk_rpm "gpg-pubkey" "" "fd431d51" "4ae0493b" "(none)"])
  = [mk_rpm "bash" "0" "5.1.8" "6.el9" "x86_64";
     mk_rpm "gpg-pubkey" "" "fd431d51" "4ae0493b" "(none)"].
Proof.
  apply (@parse_rpm_lines_round_trip
           [mk_rpm "bash" "0" "5.1.8" "6.el9" "x86_64";
            mk_rpm "gpg-pubkey" "" "fd431d51" "4ae0493b" "(none)"]).
  repeat constructor; discriminate.
Defined.

(* ===================================================================== *)
(** * Collection names *)
(* ===================================================================== *)

Lemma get_none_iff_not {K V : Type} `{EqKey K} (k : K)
  (d : PyDict.t (K := K) (V := V)) :
  In k (PyDict.keys d) -> PyDict.get k d <> None.
Proof. intros Hi Hg. now apply get_none_iff in Hg. Qed.

Section DottedNames.
Context `{PyRuntime}.

Lemma colls_from_obj_dotted (obj : json) (name : string) :
  In name (PyDict.keys (_colls_from_obj obj)) -> PyStr.contains "." name = true.
Proof.
  revert name.
  set (P := fun d : PyDict.t (K := string) (V := string) =>
              forall name, In name (PyDict.keys d) ->
                           PyStr.contains "." name = true).
  assert (Hdict : forall d, P (fold_left colls_dict_step d [])).
  { intros d. apply fold_left_invariant; [|now intros ? []].
    intros m [k v] Hm. unfold colls_dict_step.
    destruct v; try exact Hm.
    destruct (PyDict.get "version" d0); [|exact Hm].
    destruct (PyStr.contains "." k) eqn:Ek; [|exact Hm].
    intros name Hn. apply In_keys_set in Hn as [->|Hn]; [exact Ek | now apply Hm]. }
  assert (Hlist : forall l, P (fold_left colls_list_step l [])).
  { intros l. apply fold_left_invariant; [|now intros ? []].
    intros m e Hm. unfold colls_list_step.
    destruct e; try exact Hm.
    destruct (PyDict.get "namespace" d) as [ns|]; [|exact Hm].
    destruct (PyDict.get "name" d) as [nm|]; [|exact Hm].
    destruct (PyDict.get "version" d) as [ver|]; [|exact Hm].
    intros name Hn. apply In_keys_set in Hn as [->|Hn]; [|now apply Hm].
    now apply (contains_app "." (py_str ns) "." (py_str nm)). }
  unfold _colls_from_obj.
  destruct obj as [| | | | |l|d]; try (now intros ? []).
  - apply Hlist.
  - destruct (PyDict.get "collections" d) as [[| | | | |l'|d']|];
      apply Hdict.
Qed.

(** X23.  Every name [_colls_from_obj] keeps contains a dot, whatever
    the shape of the object, and so does the name of every collection
    that [parse_collections_merged] returns. *)
Theorem collection_names_dotted :
  (forall obj name,
     In name (PyDict.keys (_colls_from_obj obj)) ->
     PyStr.contains "." name = true)
  /\ (forall text c,
        In c (parse_collections_merged text) ->
        PyStr.contains "." (pkg_name c) = true).
Proof.
  split; [apply colls_from_obj_dotted|].
  intros text c Hc.
  apply (Permutation_in _ (parse_collections_merged_perm text)) in Hc.
  apply in_map_iff in Hc as ([name ver] & <- & Hin). cbn [pkg_name fst].
  assert (Hk : In name (PyDict.keys
                          (merged_of (source_of_chunk text 0)
                             (source_of_chunk text 1) (source_of_chunk text 2)))).
  { apply in_map_iff. now exists (name, ver). }
  apply get_none_iff_not in Hk.
  rewrite merged_get in Hk by apply source_of_chunk_nodup.
  unfold by_precedence in Hk.
  assert (Hsrc : forall i, PyDict.get name (source_of_chunk text i) <> None ->
                           PyStr.contains "." name = true).
  { intros i Hg. unfold source_of_chunk in *.
    destruct (nth_error (PyStr.split COLL_SEP text) i); [|now cbn in Hg].
    apply colls_from_obj_dotted with (obj := loads_chunk (PyStr.strip s)).
    destruct (in_dec string_dec name
                (PyDict.keys (_colls_from_obj (loads_chunk (PyStr.strip s)))))
      as [Hi|Hn]; [exact Hi|].
    now apply get_none_iff in Hn. }
  destruct (PyDict.get name (source_of_chunk text 0)) eqn:E0;
    [apply (Hsrc 0); congruence|].
  destruct (PyDict.get name (source_of_chunk text 1)) eqn:E1;
    [apply (Hsrc 1); congruence|].
  apply (Hsrc 2). exact Hk.
Qed.

End DottedNames.

(* ===================================================================== *)
(** * Stability of the sorts *)
(* ===================================================================== *)

Lemma filter_map_snd {K A : Type} (p : A -> bool) (l : list (K * A)) :
  List.filter p (List.map snd l)
  = List.map snd (List.filter (fun y => p (snd y)) l).
Proof.
  induction l as [|y l IH]; cbn; [reflexivity|].
  destruct (p (snd y)); cbn; now rewrite IH.
Qed.

Lemma filter_decorated {K A : Type} (key : A -> K) (q : K -> bool)
  (l : list A) :
  List.map snd
    (List.filter (fun y => q (fst y)) (List.map (fun x => (key x, x)) l))
  = List.filter (fun x => q (key x)) l.
Proof.
  induction l as [|x l IH]; cbn; [reflexivity|].
  destruct (q (key x)); cbn; now rewrite IH.
Qed.

Lemma sorted_by_stable {K A : Type} `{EqKey K} (ltb : K -> K -> bool)
  (key : A -> K) (l : list A) (k : K) :
  (forall a, ltb a a = false) ->
  List.filter (fun x => key_eqb (key x) k) (sorted_by ltb key l)
  = List.filter (fun x => key_eqb (key x) k) l.
Proof.
  intros Hirr. unfold sorted_by. rewrite filter_map_snd.
  set (L := List.map (fun x => (key x, x)) l).
  assert (Hdec : forall y, In y L -> fst y = key (snd y)).
  { intros y Hy. apply in_map_iff in Hy as (x & <- & _). reflexivity. }
  rewrite (@filter_ext_in _ (fun y => key_eqb (key (snd y)) k)
             (fun y => key_eqb (fst y) k)).
  - rewrite sort_keyed_stable.
    + apply (filter_decorated key (fun a => key_eqb a k)).
    + intros x y _ _ Hx Hy.
      destruct (key_eqb_spec (fst x) k) as [->|]; [|discriminate].
      destruct (key_eqb_spec (fst y) k) as [->|]; [|discriminate].
      apply Hirr.
  - intros y Hy. rewrite Hdec; [reflexivity|].
    exact (Permutation_in _ (sort_keyed_perm ltb L) Hy).
Qed.

Lemma tuple4_ltb_irrefl (x : tuple4) : tuple4_ltb x x = false.
Proof.
  destruct (tuple4_ltb x x) eqn:E; [|reflexivity].
  now rewrite (tuple4_ltb_asym _ _ E) in E.
Qed.

(** X24.  The sorts of [make_xml] and of [parse_collections_merged] are
    stable: the records of one sort key stand in the sorted list in the
    order they had (rpms of one name, arch, version and release;
    interpreted packages and collections whose names differ in case
    only). *)
Theorem sorts_are_stable :
  (forall rpms k,
     List.filter (fun r => key_eqb (rpm_sort_key r) k)
       (sorted_by tuple4_ltb rpm_sort_key rpms)
     = List.filter (fun r => key_eqb (rpm_sort_key r) k) rpms)
  /\ (forall pips k,
        List.filter (fun p => String.eqb (pip_name_lower p) k)
          (sorted_by String.ltb pip_name_lower pips)
        = List.filter (fun p => String.eqb (pip_name_lower p) k) pips)
  /\ (forall cols k,
        List.filter (fun c => String.eqb (col_sort_key c) k)
          (sorted_by String.ltb col_sort_key cols)
        = List.filter (fun c => String.eqb (col_sort_key c) k) cols).
Proof.
  split; [|split].
  - intros rpms k. apply sorted_by_stable. exact tuple4_ltb_irrefl.
  - intros pips k.
    apply (sorted_by_stable (H := EqKey_string) String.ltb pip_name_lower).
    exact string_ltb_irrefl.
  - intros cols k.
    apply (sorted_by_stable (H := EqKey_string) String.ltb col_sort_key).
    exact string_ltb_irrefl.
Qed.

(* ===================================================================== *)
(** * The pipeline of [main] *)
(* ===================================================================== *)

Lemma split_sections_total (raw : string) :
  exists r p c, split_sections raw = Ok (r, p, c).
Proof.
  unfold split_sections.
  destruct (extract_total raw RPM_START RPM_END) as (r & -> & _).
  destruct (extract_total raw PIP_START PIP_END) as (p & -> & _).
  destruct (extract_total raw COLL_START COLL_END) as (c & -> & _).
  cbn [bind]. eauto.
Qed.

Section MainPipeline.
Context `{PyRuntime}.

(** X25.  What [main] makes of the text captured from an image.  The
    three sections are always found (possibly empty); the document is
    returned exactly when [make_xml] accepts the metadata and the names
    of the interpreted packages parsed; it then carries the reference of
    the image and, sorted, the records parsed from the three sections.
    Metadata that is not a dictionary counts as empty. *)
Theorem main_document_content (image : string) (meta : json) (raw : string) :
  exists rpm_txt pip_txt col_txt,
    split_sections raw = Ok (rpm_txt, pip_txt, col_txt)
    /\ ((exists root, main_document image meta raw = Ok root)
        <-> listable (py_or (meta_get (meta_dict meta) "RepoDigests") (JArr []))
            /\ listable (py_or (meta_get (meta_dict meta) "RepoTags") (JArr []))
            /\ Forall has_str_name (parse_pip_json pip_txt))
    /\ (forall root,
          main_document image meta raw = Ok root ->
          PyDict.get "reference" (el_attrib root) = Some (JStr image)
          /\ stored_as rpm_element "rpms" root
               (sorted_by tuple4_ltb rpm_sort_key (parse_rpm_lines rpm_txt))
          /\ stored_as package_element "python" root
               (sorted_by String.ltb pip_name_lower (parse_pip_json pip_txt))
          /\ stored_as collection_element "collections" root
               (sorted_by String.ltb col_sort_key
                  (parse_collections_merged col_txt))).
Proof.
  destruct (split_sections_total raw) as (r & p & c & Hs).
  exists r, p, c. split; [exact Hs|].
  unfold main_document. rewrite Hs. cbn [bind]. fold (meta_dict meta).
  split; [apply make_xml_returns_groups|].
  intros root Hroot. split; [now apply (make_xml_reference _ _ _ _ _ Hroot)|].
  assert (Hok : exists x,
            make_xml image (meta_dict meta) (parse_rpm_lines r)
              (parse_pip_json p) (parse_collections_merged c) = Ok x)
    by now exists root.
  apply make_xml_returns_groups in Hok as (Hd & Ht & Hp).
  destruct (make_xml_groups image (meta_dict meta) (parse_rpm_lines r)
              (parse_collections_merged c) Hd Ht Hp)
    as (root' & Hroot' & Hgr & Hgp & Hgc).
  rewrite Hroot in Hroot'. injection Hroot' as <-.
  unfold stored_as. auto.
Qed.

End MainPipeline.

(* ===================================================================== *)
(** * Timestamps with a fraction or a zone letter *)
(* ===================================================================== *)

Lemma before_first_app (c : ascii) (a b : string) :
  PyStr.partition (String c EmptyString) a = None ->
  before_first (String c EmptyString) (a +++ b)
  = a +++ before_first (String c EmptyString) b.
Proof.
  intros Ha. unfold before_first. induction a as [|d a IH]; [reflexivity|].
  cbn [String.append]. rewrite partition_char_cons in *.
  destruct (Ascii.eqb c d); [discriminate|].
  destruct (PyStr.partition (String c EmptyString) a) as [[x y]|] eqn:Ea;
    [discriminate|].
  specialize (IH eq_refl).
  destruct (PyStr.partition (String c EmptyString) (a +++ b)) as [[x y]|];
    cbn in *; now rewrite IH.
Qed.

Lemma before_first_cut (c : ascii) (a b : string) :
  PyStr.partition (String c EmptyString) a = None ->
  before_first (String c EmptyString) (a +++ String c b) = a.
Proof.
  intros Ha. unfold before_first. now rewrite (partition_first c a b Ha).
Qed.

Section Fractions.
Context `{PyRuntime}.

(** X26.  The loader reads a timestamp up to its first [.] or [Z]: for a
    [created] attribute made of a text without [.] and [Z], followed by a
    fraction or by [Z] and anything else, the timestamp of the snapshot is
    the one [fromisoformat] gives for that text (the sentinel if it gives
    none), whatever follows. *)
Theorem created_fraction_ignored (root : element string)
  (date rest : string) :
  PyStr.contains "." date = false -> PyStr.contains "Z" date = false ->
  date <> EmptyString ->
  attr (el_attrib root) "created" = date +++ "." +++ rest
  \/ attr (el_attrib root) "created" = date +++ "Z" +++ rest ->
  derive_created root
  = Ok (match fromisoformat date with
        | Some dt => dt
        | None => datetime_min
        end).
Proof.
  intros Hdot Hz Hne Hattr. rewrite derive_created_total. f_equal.
  apply contains_false in Hdot. apply contains_false in Hz.
  unfold created_of, created_trim.
  assert (Htrim : before_first "." (before_first "Z" (attr (el_attrib root) "created"))
                  = date).
  { destruct Hattr as [-> | ->].
    - rewrite (before_first_app "Z" date _ Hz).
      rewrite (before_first_app "Z" "." rest eq_refl). cbn [String.append].
      now rewrite (before_first_cut "." date _ Hdot).
    - cbn [String.append]. rewrite (before_first_cut "Z" date _ Hz).
      unfold before_first. now rewrite Hdot. }
  rewrite Htrim.
  assert (Ht : str_truthy (attr (el_attrib root) "created") = true).
  { destruct Hattr as [-> | ->]; destruct date; try contradiction; reflexivity. }
  now rewrite Ht.
Qed.

End Fractions.

Lemma created_fraction_ignored_witness :
  @derive_created Mini.runtime
    (Element "image" [("created", "2024-01-15T10:30:00.123456789Z")] None [])
  = Ok (mk_datetime (Mini.clock_of 2024 1 15 10 30 0) None).
Proof.
  apply (@created_fraction_ignored Mini.runtime
           (Element "image" [("created", "2024-01-15T10:30:00.123456789Z")]
              None [])
           "2024-01-15T10:30:00" "123456789Z");
    [reflexivity | reflexivity | discriminate | left; reflexivity].
Defined.
